(** * mhooge_flask.database: connection scoping, queries and the user/token facade

    A shallow embedding of [src/mhooge_flask/database.py]: the [Query]
    object, the reentrant [__enter__]/[__exit__] pair of both database
    classes, [SQLiteDatabase.execute_query] and the user and auth-token
    operations of [SQLiteDatabase] and [SQLAlchemyDatabase].

    Python objects are modelled by the small universe [pyval]; exceptions by a
    class tag and an argument tuple, with the class hierarchy of [sqlite3] and
    of [sqlalchemy.exc] written out; mutable attributes of the database object
    ([_nested_contexts], [_connections]) and the tables on disk live in a
    [world] that every method threads through a state-and-exception monad. *)

From Stdlib Require Import ZArith QArith Ascii String List DecimalString.
From stdpp Require Import gmap strings list.

Set Warnings "-register-all".
Local Open Scope string_scope.
Local Open Scope list_scope.
Local Open Scope Z_scope.

(** ** Python values *)

Inductive pyval :=
| PNone
| PBool (b : bool)
| PInt (z : Z)
| PStr (s : string)
| PTuple (items : list pyval)
| PList (items : list pyval)
| PNamedTuple (items : list pyval)
    (* an instance of a proper subclass of [tuple], such as a named tuple *)
| PSubList (items : list pyval).
    (* an instance of a proper subclass of [list] *)

(** [bool(v)] for the built-in types above. *)
Definition truthy (v : pyval) : bool :=
  match v with
  | PNone => false
  | PBool b => b
  | PInt z => negb (Z.eqb z 0)
  | PStr s => negb (String.eqb s "")
  | PTuple items => negb (bool_decide (items = []))
  | PList items => negb (bool_decide (items = []))
  | PNamedTuple items => negb (bool_decide (items = []))
  | PSubList items => negb (bool_decide (items = []))
  end.

(** [v == s] for a string literal [s]. *)
Definition eq_str (v : pyval) (s : string) : bool :=
  match v with
  | PStr s' => String.eqb s' s
  | _ => false
  end.

(** [v is None] *)
Definition is_none (v : pyval) : bool :=
  match v with PNone => true | _ => false end.

(** ** Exceptions *)

Inductive exn_class :=
| PyException | PyValueError | PyKeyError | PyIndexError | PyTypeError
| PyAttributeError | PyArithmeticError | PyOverflowError
(* sqlite3 *)
| SqliteError | InterfaceError | DatabaseError | DataError | OperationalError
| IntegrityError | InternalError | ProgrammingError | NotSupportedError
(* class DBException(OperationalError, ProgrammingError) *)
| DBException
(* sqlalchemy.exc / sqlalchemy.orm.exc *)
| SAError | SAIntegrityError | SANoResultFound | SAMultipleResultsFound.

Global Instance exn_class_eq_dec : EqDecision exn_class.
Proof. solve_decision. Defined.

(** Direct base classes. *)
Definition bases (c : exn_class) : list exn_class :=
  match c with
  | PyException => []
  | PyValueError | PyKeyError | PyIndexError | PyTypeError
  | PyAttributeError | PyArithmeticError => [PyException]
  | PyOverflowError => [PyArithmeticError]
  | SqliteError => [PyException]
  | InterfaceError | DatabaseError => [SqliteError]
  | DataError | OperationalError | IntegrityError | InternalError
  | ProgrammingError | NotSupportedError => [DatabaseError]
  | DBException => [OperationalError; ProgrammingError]
  | SAError => [PyException]
  | SAIntegrityError | SANoResultFound | SAMultipleResultsFound => [SAError]
  end.

(** [issubclass c d]; the hierarchy above is four levels deep. *)
Fixpoint issubclass_upto (fuel : nat) (c d : exn_class) : bool :=
  bool_decide (c = d) ||
  match fuel with
  | O => false
  | S fuel' => existsb (fun b => issubclass_upto fuel' b d) (bases c)
  end.

Definition issubclass (c d : exn_class) : bool := issubclass_upto 4 c d.

Record exn := mkExn { exn_cls : exn_class; exn_args : list pyval }.

Definition isinstance (e : exn) (d : exn_class) : bool :=
  issubclass (exn_cls e) d.

(** [DBException.__init__(self, *args)] calls [super().__init__(args)]: the
    positional arguments end up as one tuple inside [args]. *)
Definition DBException_new (args : list pyval) : exn :=
  mkExn DBException [PTuple args].

(** ** Tables on disk *)

Record User := mkUser { id : string; name : string; password : string }.
Record AuthToken := mkAuthToken
  { holder_id : string; token : string; expires : Z }.

Record store := mkStore { users : list User; auth_tokens : list AuthToken }.

(** ** The world *)

Definition conn := nat.

Record world := mkWorld {
  _nested_contexts : gmap Z Z;      (* thread id -> nesting depth *)
  _connections : gmap Z conn;       (* thread id -> open connection *)
  attempts : nat;                   (* calls made to the provider so far *)
  opened : list conn;               (* physical connections opened, newest first *)
  closed : list conn;               (* connections closed, newest first *)
  disk : store
}.

Definition set_nested_contexts (f : gmap Z Z -> gmap Z Z) (w : world) : world :=
  mkWorld (f (_nested_contexts w)) (_connections w) (attempts w) (opened w)
          (closed w) (disk w).
Definition set_connections (f : gmap Z conn -> gmap Z conn) (w : world) : world :=
  mkWorld (_nested_contexts w) (f (_connections w)) (attempts w) (opened w)
          (closed w) (disk w).
Definition set_disk (s : store) (w : world) : world :=
  mkWorld (_nested_contexts w) (_connections w) (attempts w) (opened w)
          (closed w) s.

(** ** State-and-exception monad *)

Inductive outcome (A : Type) :=
| Return (a : A)
| Raise (e : exn).
Arguments Return {A} a.
Arguments Raise {A} e.

Definition M (A : Type) : Type := world -> outcome A * world.

Definition ret {A} (a : A) : M A := fun w => (Return a, w).
Definition raise {A} (e : exn) : M A := fun w => (Raise e, w).
Definition bind {A B} (m : M A) (k : A -> M B) : M B := fun w =>
  match m w with
  | (Return a, w') => k a w'
  | (Raise e, w') => (Raise e, w')
  end.
Definition gets {A} (f : world -> A) : M A := fun w => (Return (f w), w).
Definition modify (f : world -> world) : M unit := fun w => (Return tt, f w).

Notation "'do' x <- m ; k" := (bind m (fun x => k))
  (at level 10, x name, m at level 100, k at level 200).
Notation "'run' m ; k" := (bind m (fun _ => k))
  (at level 10, m at level 100, k at level 200).

(** [try: body except: handler] *)
Definition try_except {A} (body : M A) (handler : exn -> M A) : M A := fun w =>
  match body w with
  | (Return a, w') => (Return a, w')
  | (Raise e, w') => handler e w'
  end.

(** [with cm as h: body], for a context manager whose [__exit__] returns
    [None]: [__exit__] runs on both ways out of the body, and an exception of
    the body is raised again after it. *)
Definition with_ {H A} (enter : M H) (exit : M unit) (body : H -> M A) : M A :=
  fun w =>
  match enter w with
  | (Raise e, w1) => (Raise e, w1)
  | (Return h, w1) =>
      let '(r, w2) := body h w1 in
      match exit w2 with
      | (Raise e, w3) => (Raise e, w3)
      | (Return _, w3) => (r, w3)
      end
  end.

(** ** The database object *)

(** The immutable part of [self]: what the collaborators outside this file
    do.  [connect_outcome n] is what the [n]-th call of [sqlite3.connect]
    (or of the session maker) does, [None] for success; [execute_other] and
    [executemany_other] give the engine's answer to statements other than
    the four of the user/token operations.  A single statement that fails
    leaves the tables as they were; [executemany] runs its statement once
    for each row of parameters, and when it fails at one of them what the
    rows before it have changed stays in the open transaction: its answer
    comes with the tables as it leaves them, also when it raises. *)
Record Database := mkDatabase {
  connect_outcome : nat -> option exn;
  execute_other : string -> list pyval -> store -> outcome (list pyval * store);
  executemany_other : string -> list pyval -> store -> outcome (list pyval) * store
}.

(** [Database.get_connection]: every successful call yields a connection
    object of its own, identified by the number of the call. *)
Definition get_connection (self : Database) : M conn := fun w =>
  let n := attempts w in
  match connect_outcome self n with
  | Some e =>
      (Raise e, mkWorld (_nested_contexts w) (_connections w) (S n)
                        (opened w) (closed w) (disk w))
  | None =>
      (Return n, mkWorld (_nested_contexts w) (_connections w) (S n)
                         (n :: opened w) (closed w) (disk w))
  end.

(** [conn.close()] *)
Definition close (c : conn) : M unit :=
  modify (fun w => mkWorld (_nested_contexts w) (_connections w) (attempts w)
                           (opened w) (c :: closed w) (disk w)).

(** The [connection] property: [self._connections.get(get_ident())]. *)
Definition connection (thread_id : Z) : M (option conn) :=
  gets (fun w => _connections w !! thread_id).

(** [d[k]], raising [KeyError] when absent. *)
Definition getitem_connections (thread_id : Z) : M conn := fun w =>
  match _connections w !! thread_id with
  | Some c => (Return c, w)
  | None => (Raise (mkExn PyKeyError [PInt thread_id]), w)
  end.

(** [del d[k]], raising [KeyError] when absent. *)
Definition del_connections (thread_id : Z) : M unit := fun w =>
  match _connections w !! thread_id with
  | Some _ => (Return tt, set_connections (delete thread_id) w)
  | None => (Raise (mkExn PyKeyError [PInt thread_id]), w)
  end.
Definition del_nested_contexts (thread_id : Z) : M unit := fun w =>
  match _nested_contexts w !! thread_id with
  | Some _ => (Return tt, set_nested_contexts (delete thread_id) w)
  | None => (Raise (mkExn PyKeyError [PInt thread_id]), w)
  end.

(** The part of [__enter__] that both classes share: everything but the
    returned value. *)
Definition enter_scope (self : Database) (thread_id : Z) : M unit :=
  do nested_contexts <- gets (fun w => default 0 (_nested_contexts w !! thread_id));
  let nested_contexts := nested_contexts + 1 in
  run modify (set_nested_contexts <[thread_id := nested_contexts]>);
  do present <- gets (fun w => bool_decide (is_Some (_connections w !! thread_id)));
  if (present : bool) then ret tt
  else
    do c <- get_connection self;
    modify (set_connections <[thread_id := c]>).

(** [__exit__], the same text in both classes. *)
Definition exit_scope (thread_id : Z) : M unit :=
  do nested_contexts <- gets (fun w => default 1 (_nested_contexts w !! thread_id));
  let nested_contexts := nested_contexts - 1 in
  run modify (set_nested_contexts <[thread_id := nested_contexts]>);
  if Z.eqb nested_contexts 0 then
    do c <- getitem_connections thread_id;
    run close c;
    run del_connections thread_id;
    del_nested_contexts thread_id
  else ret tt.

(** ** The engine *)

(** The four statements of the user and token operations of
    [SQLiteDatabase], with runs of white space written as one blank. *)
Definition q_insert_user : string :=
  "INSERT INTO users(id, name, password) VALUES (?, ?, ?)".
Definition q_select_password : string :=
  "SELECT password FROM users WHERE name=?".
Definition q_select_token : string :=
  "SELECT at.holder_id, u.name, at.expires FROM auth_tokens AS at INNER JOIN users AS u ON u.id = at.holder_id WHERE at.token = ?".
Definition q_delete_token : string :=
  "DELETE FROM auth_tokens WHERE token = ?".

(** A user of that id, or of that name, is stored already. *)
Definition id_taken (s : store) (user_id : string) : bool :=
  existsb (fun r => String.eqb (id r) user_id) (users s).
Definition name_taken (s : store) (username : string) : bool :=
  existsb (fun r => String.eqb (name r) username) (users s).

(** The engine's error for a violated constraint, as the caller gets it:
    [sqlite3.IntegrityError] carries the engine's message; a session wraps
    that error into [sqlalchemy.exc.IntegrityError], whose message names the
    class of the original in front. *)
Definition integrity_error (cls : exn_class) (message : string) : exn :=
  mkExn cls [PStr (match cls with
                   | SAIntegrityError => "(sqlite3.IntegrityError) " ++ message
                   | _ => message
                   end)].

(** Inserting into [users]: [id] is the primary key and [name] is declared
    unique, in the SQL schema and in the mapped class alike.  [cls] is the
    class the engine raises: [sqlite3.IntegrityError] through the raw
    connection, [sqlalchemy.exc.IntegrityError] through a session.  Which
    column the message names when both are taken is the engine's choice; no
    statement below depends on it. *)
Definition insert_user (cls : exn_class) (u : User) (s : store) : outcome store :=
  if id_taken s (id u) then
    Raise (integrity_error cls "UNIQUE constraint failed: users.id")
  else if name_taken s (name u) then
    Raise (integrity_error cls "UNIQUE constraint failed: users.name")
  else Return (mkStore (users s ++ [u]) (auth_tokens s)).

(** [SELECT password FROM users WHERE name=?] *)
Definition select_password (username : string) (s : store) : list string :=
  map password (List.filter (fun u => String.eqb (name u) username) (users s)).

(** The inner join of [auth_tokens] with [users] on the holder, restricted
    to one token. *)
Definition select_token (auth_token : string) (s : store)
  : list (string * string * Z) :=
  flat_map
    (fun t => map (fun u => (holder_id t, name u, expires t))
                  (List.filter (fun u => String.eqb (id u) (holder_id t)) (users s)))
    (List.filter (fun t => String.eqb (token t) auth_token) (auth_tokens s)).

(** [DELETE FROM auth_tokens WHERE token = ?] *)
Definition delete_token (auth_token : string) (s : store) : store :=
  mkStore (users s)
          (List.filter (fun t => negb (String.eqb (token t) auth_token))
                       (auth_tokens s)).

(** A row as the default row factory of [sqlite3] hands it out: a tuple. *)
Definition row1 (a : string) : pyval := PTuple [PStr a].
Definition row3 (r : string * string * Z) : pyval :=
  let '(h, n, e) := r in PTuple [PStr h; PStr n; PInt e].

(** [cursor.execute(query, params)] on the raw connection. *)
Definition sqlite_execute (self : Database) (query : string)
    (params : list pyval) (s : store) : outcome (list pyval * store) :=
  if String.eqb query q_insert_user then
    match params with
    | [PStr i; PStr n; PStr p] =>
        match insert_user IntegrityError (mkUser i n p) s with
        | Return s' => Return ([], s')
        | Raise e => Raise e
        end
    | _ => execute_other self query params s
    end
  else if String.eqb query q_select_password then
    match params with
    | [PStr n] => Return (map row1 (select_password n s), s)
    | _ => execute_other self query params s
    end
  else if String.eqb query q_select_token then
    match params with
    | [PStr t] => Return (map row3 (select_token t s), s)
    | _ => execute_other self query params s
    end
  else if String.eqb query q_delete_token then
    match params with
    | [PStr t] => Return ([], delete_token t s)
    | _ => execute_other self query params s
    end
  else execute_other self query params s.

(** A cursor is the list of rows it has still to hand out. *)
Definition cursor := list pyval.

(** A single statement on the connection: when it fails, the tables are
    as they were before it. *)
Definition lift_engine (f : store -> outcome (list pyval * store)) : M cursor :=
  fun w =>
  match f (disk w) with
  | Return (rows, s') => (Return rows, set_disk s' w)
  | Raise e => (Raise e, w)
  end.

Definition cursor_execute (self : Database) (query : string)
    (params : list pyval) : M cursor :=
  lift_engine (sqlite_execute self query params).
Definition cursor_executemany (self : Database) (query : string)
    (params : list pyval) : M cursor := fun w =>
  let '(answer, s') := executemany_other self query params (disk w) in
  (answer, set_disk s' w).

(** [conn.commit()].  The [disk] of the [world] is the database as the
    connection sees it; what a connection closed without a commit loses is
    not modelled. *)
Definition commit (c : conn) : M unit := ret tt.

Definition fetchone (c : cursor) : option pyval := head c.
Definition fetchall (c : cursor) : list pyval := c.

(** [v[i]] *)
Definition getitem (v : pyval) (i : nat) : outcome pyval :=
  match v with
  | PTuple items | PList items | PNamedTuple items | PSubList items =>
      match nth_error items i with
      | Some x => Return x
      | None => Raise (mkExn PyIndexError [PStr "index out of range"])
      end
  | _ => Raise (mkExn PyTypeError [PStr "object is not subscriptable"])
  end.

Definition lift {A} (o : outcome A) : M A := fun w => (o, w).

(** [v < time()], for the float [now] that [time()] returned: Python compares
    an [int] with a [float] by their exact values. *)
Definition int_lt_float (z : Z) (now : Q) : bool :=
  negb (Qle_bool now (inject_Z z)).

Definition lt_time (v : pyval) (now : Q) : outcome bool :=
  match v with
  | PInt z => Return (int_lt_float z now)
  | _ => Raise (mkExn PyTypeError [PStr "'<' not supported"])
  end.

(** ** Collecting parameters *)

(** [type(param) in (list, tuple)]: the type itself, not a subclass. *)
Definition is_list_or_tuple (param : pyval) : bool :=
  match param with
  | PList _ | PTuple _ => true
  | _ => false
  end.

(** The elements of a list or a tuple, or of an instance of a subclass. *)
Definition items (v : pyval) : list pyval :=
  match v with
  | PTuple l | PList l | PNamedTuple l | PSubList l => l
  | _ => []
  end.

(** [tuple(param)] *)
Definition tuple (param : pyval) : pyval := PTuple (items param).

(** The loop at the head of [Query.__init__] and, word for word, of
    [SQLiteDatabase.execute_query]. *)
Definition collect_params (params : list pyval) : list pyval :=
  fold_left
    (fun collected_params param =>
       if is_list_or_tuple param
       then collected_params ++ [tuple param]
       else collected_params ++ [param])
    params [].

(** [isinstance(param, tuple)]: true of the instances of subclasses too. *)
Definition is_tuple (v : pyval) : bool :=
  match v with PTuple _ | PNamedTuple _ => true | _ => false end.

(** [collected_params != [] and all(isinstance(param, tuple) for ...)] *)
Definition all_tuples (collected_params : list pyval) : bool :=
  negb (bool_decide (collected_params = [])) && forallb is_tuple collected_params.

(** [except (OperationalError, ProgrammingError, DatabaseError) as exc:
        raise DBException(exc.args)] *)
Definition wrap_engine_error {A} (exc : exn) : M A :=
  if isinstance exc OperationalError || isinstance exc ProgrammingError
     || isinstance exc DatabaseError
  then raise (DBException_new [PTuple (exn_args exc)])
  else raise exc.

(** ** class SQLiteDatabase *)

Module SQLiteDatabase.

(** [__enter__] returns [self]; the caller reaches the connection through
    the [connection] property. *)
Definition __enter__ (self : Database) (thread_id : Z) : M unit :=
  enter_scope self thread_id.

Definition __exit__ (thread_id : Z) : M unit := exit_scope thread_id.

Definition execute_query (self : Database) (thread_id : Z) (query : string)
    (params : list pyval) (commit_ : bool) : M cursor :=
  do conn_ <- connection thread_id;
  match conn_ with
  | None => raise (DBException_new [PStr "No database connection is active."])
  | Some c =>
      let collected_params := collect_params params in
      let execute_many := all_tuples collected_params in
      try_except
        (do cursor_ <- (if execute_many
                        then cursor_executemany self query collected_params
                        else cursor_execute self query collected_params);
         run (if commit_ then commit c else ret tt);
         ret cursor_)
        wrap_engine_error
  end.

Definition create_user (self : Database) (thread_id : Z)
    (user_id username hashed_pass : string) : M bool :=
  try_except
    (run with_ (__enter__ self thread_id) (__exit__ thread_id) (fun _ =>
       run execute_query self thread_id q_insert_user
             [PStr user_id; PStr username; PStr hashed_pass] true;
       ret tt);
     ret true)
    (fun e => if isinstance e DatabaseError then ret false else raise e).

Definition password_matches (self : Database) (thread_id : Z)
    (username password_ : string) : M bool :=
  with_ (__enter__ self thread_id) (__exit__ thread_id) (fun _ =>
    do cursor_ <- execute_query self thread_id q_select_password
                    [PStr username] true;
    match fetchone cursor_ with
    | None => ret false
    | Some result =>
        do stored <- lift (getitem result 0);
        ret (eq_str stored password_)
    end).

(** [time_now] is what the call of [time()] returns. *)
Definition get_user_id_from_token (self : Database) (thread_id : Z)
    (time_now : Q) (auth_token : string) : M pyval :=
  with_ (__enter__ self thread_id) (__exit__ thread_id) (fun _ =>
    do cursor_ <- execute_query self thread_id q_select_token
                    [PStr auth_token] true;
    match fetchone cursor_ with
    | None => ret PNone
    | Some result =>
        do expires_ <- lift (getitem result 2);
        do is_expired <- lift (lt_time expires_ time_now);
        if (is_expired : bool) then
          run execute_query self thread_id q_delete_token
                [PStr auth_token] true;
          ret PNone
        else ret result
    end).

End SQLiteDatabase.

(** ** class Query *)

Inductive result :=
| RCursor (c : cursor)
| RValue (v : pyval).

(** [format_func]: a callable, or a plain value ([PNone] when unset). *)
Inductive format_func_t :=
| FormatCallable (f : cursor -> outcome result)
| FormatValue (v : pyval).

Fixpoint unpack_rows (rows : list pyval) : outcome (list pyval) :=
  match rows with
  | [] => Return []
  | x :: rest =>
      match getitem x 0 with
      | Raise e => Raise e
      | Return x0 =>
          match unpack_rows rest with
          | Raise e => Raise e
          | Return xs => Return (x0 :: xs)
          end
      end
  end.

(** What [fetchone()] returns as a Python object: the row, or [None]. *)
Definition or_none (o : option pyval) : pyval :=
  match o with Some v => v | None => PNone end.

(** [a or b] *)
Definition py_or (a b : pyval) : pyval := if truthy a then a else b.

Module Query.

Record t := mk {
  params : pyval;
  query : string;
  execute_many : bool;
  format_func : format_func_t;
  default : pyval
}.

Definition __init__ (query_ : string) (params_ : list pyval)
    (format_func_ : format_func_t) (default_ : pyval) : t :=
  let collected_params := collect_params params_ in
  let execute_many_ := all_tuples collected_params in
  mk (if execute_many_ then PList collected_params
      else PTuple collected_params)
     query_ execute_many_ format_func_ default_.

Definition empty_default (self : t) : pyval :=
  if is_none (default self) then PList [] else default self.

(** Lines 66 to 85: what [__call__] makes of the cursor. *)
Definition shape (self : t) (raw : bool) (cursor_ : cursor) : outcome result :=
  match format_func self with
  | FormatCallable f => if raw then Return (RCursor cursor_) else f cursor_
  | FormatValue v =>
      if raw || is_none v then Return (RCursor cursor_)
      else if eq_str v "all" then
        Return (RValue (py_or (PList (fetchall cursor_)) (empty_default self)))
      else if eq_str v "one" then
        Return (RValue (py_or (or_none (fetchone cursor_)) (default self)))
      else if eq_str v "unpack_all" then
        match unpack_rows cursor_ with
        | Raise e => Raise e
        | Return xs => Return (RValue (py_or (PList xs) (empty_default self)))
        end
      else if eq_str v "unpack_one" then
        match fetchone cursor_ with
        | None => Return (RValue (default self))
        | Some val =>
            match getitem val 0 with
            | Raise e => Raise e
            | Return x => Return (RValue x)
            end
        end
      else Raise (mkExn PyValueError
                    [PStr "Formatting function for query is invalid."; v])
  end.

(** [context] is the [SQLiteDatabase] whose [query] method built [self]. *)
Definition __call__ (context : Database) (thread_id : Z) (self : t)
    (commit_ raw : bool) : M result :=
  with_ (SQLiteDatabase.__enter__ context thread_id)
        (SQLiteDatabase.__exit__ thread_id) (fun _ =>
    do conn_ <- connection thread_id;
    try_except
      (do c <- match conn_ with
               | Some c => ret c
               | None => raise (mkExn PyAttributeError
                           [PStr "'NoneType' object has no attribute 'cursor'"])
               end;
       do cursor_ <- (if execute_many self
                      then cursor_executemany context (query self) (items (params self))
                      else cursor_execute context (query self) (items (params self)));
       run (if commit_ then commit c else ret tt);
       lift (shape self raw cursor_))
      wrap_engine_error).

End Query.

(** ** class SQLAlchemyDatabase *)

Module SQLAlchemyDatabase.

(** [__enter__] returns the session of the calling thread. *)
Definition __enter__ (self : Database) (thread_id : Z) : M conn :=
  run enter_scope self thread_id;
  getitem_connections thread_id.

Definition __exit__ (thread_id : Z) : M unit := exit_scope thread_id.

(** [session.add(User(...))] followed by [session.commit()], which
    flushes the insert. *)
Definition session_add_user (session : conn) (u : User) : M unit := fun w =>
  match insert_user SAIntegrityError u (disk w) with
  | Return s' => (Return tt, set_disk s' w)
  | Raise e => (Raise e, w)
  end.

(** [Result.scalar_one()] *)
Definition scalar_one (rows : list string) : outcome pyval :=
  match rows with
  | [x] => Return (PStr x)
  | [] => Raise (mkExn SANoResultFound
                   [PStr "No row was found when one was required"])
  | _ => Raise (mkExn SAMultipleResultsFound
                  [PStr "Multiple rows were found when exactly one was required"])
  end.

Definition create_user (self : Database) (thread_id : Z)
    (user_id username hashed_pass : string) : M bool :=
  try_except
    (run with_ (__enter__ self thread_id) (__exit__ thread_id) (fun session =>
       session_add_user session (mkUser user_id username hashed_pass));
     ret true)
    (fun e => if isinstance e DatabaseError then ret false else raise e).

Definition password_matches (self : Database) (thread_id : Z)
    (username password_ : string) : M bool :=
  with_ (__enter__ self thread_id) (__exit__ thread_id) (fun session =>
    do rows <- gets (fun w => select_password username (disk w));
    match scalar_one rows with
    | Raise e => if isinstance e PyException then ret false else raise e
    | Return result => ret (eq_str result password_)
    end).

Definition get_user_id_from_token (self : Database) (thread_id : Z)
    (time_now : Q) (auth_token : string) : M pyval :=
  with_ (__enter__ self thread_id) (__exit__ thread_id) (fun session =>
    do rows <- gets (fun w => select_token auth_token (disk w));
    match head rows with
    | None => ret PNone
    | Some result =>
        let t_ := row3 result in
        do expires_ <- lift (getitem t_ 2);
        do is_expired <- lift (lt_time expires_ time_now);
        if (is_expired : bool) then
          run modify (fun w => set_disk (delete_token auth_token (disk w)) w);
          ret PNone
        else
          do t0 <- lift (getitem t_ 0);
          do t1 <- lift (getitem t_ 1);
          ret (PTuple [t0; t1])
    end).

End SQLAlchemyDatabase.

(** ** Nested scopes *)

(** [n] nested scope entries, collecting what each one hands to its caller. *)
Fixpoint enter_times {H} (enter : M H) (n : nat) : M (list H) :=
  match n with
  | O => ret []
  | S n' =>
      do h <- enter;
      do hs <- enter_times enter n';
      ret (h :: hs)
  end.

(** [n] scope exits in a row. *)
Fixpoint exit_times (exit : M unit) (n : nat) : M unit :=
  match n with
  | O => ret tt
  | S n' => run exit; exit_times exit n'
  end.

(** The connection a caller of [SQLiteDatabase.__enter__] works with: the
    [connection] property of the object it got back. *)
Definition sqlite_enter_connection (self : Database) (thread_id : Z)
  : M (option conn) :=
  run SQLiteDatabase.__enter__ self thread_id;
  connection thread_id.

(** Thread [t] holds connection [c] at depth [d] in [w], which otherwise is
    [w0] after one more call of the provider. *)
Record held (t : Z) (c : conn) (d : Z) (w0 w : world) : Prop := mkHeld {
  held_conn : _connections w = <[t := c]> (_connections w0);
  held_depth : _nested_contexts w = <[t := d]> (_nested_contexts w0);
  held_attempts : attempts w = S (attempts w0);
  held_opened : opened w = c :: opened w0;
  held_closed : closed w = closed w0;
  held_disk : disk w = disk w0
}.

(** [w0] after the scope of [c] has been left for good. *)
Definition released (c : conn) (w0 : world) : world :=
  mkWorld (_nested_contexts w0) (_connections w0) (S (attempts w0))
          (c :: opened w0) (c :: closed w0) (disk w0).

(** ** Threads, step by step *)

(** Several threads inside [__enter__] and [__exit__] at once.  No lock is
    taken anywhere in the two methods, so a thread can be preempted between
    any two of their statements; what is atomic is the single dictionary
    operation.  A thread's place in the method is its [pc]; one [step] runs
    the next statement, with the same primitives as [enter_scope] and
    [exit_scope]. *)

Inductive call := CallEnter | CallExit.

Inductive pc :=
| Idle                   (* outside the two methods *)
| EnterGot (n : Z)       (* has read the depth counter: [_nested_contexts.get(thread_id, 0)] *)
| EnterStored            (* has written the incremented counter *)
| EnterMissing           (* has found [thread_id not in _connections] *)
| EnterOpened (c : conn) (* [get_connection()] has returned [c] *)
| ExitGot (n : Z)        (* has read the depth counter: [_nested_contexts.get(thread_id, 1)] *)
| ExitStored (n : Z)     (* has written the decremented counter [n] *)
| ExitClosed             (* has closed its connection *)
| ExitDeleted            (* has deleted its entry of [_connections] *)
| Crashed (e : exn).     (* an exception left the method *)

Record thread := mkThread { at_ : pc; todo : list call }.

Definition step (self : Database) (t : Z) (th : thread) (w : world)
  : thread * world :=
  let goto p := mkThread p (todo th) in
  match at_ th with
  | Idle =>
      match todo th with
      | [] => (th, w)
      | CallEnter :: rest =>
          (mkThread (EnterGot (default 0 (_nested_contexts w !! t))) rest, w)
      | CallExit :: rest =>
          (mkThread (ExitGot (default 1 (_nested_contexts w !! t))) rest, w)
      end
  | EnterGot n =>
      (goto EnterStored, set_nested_contexts <[t := n + 1]> w)
  | EnterStored =>
      if bool_decide (is_Some (_connections w !! t))
      then (goto Idle, w)
      else (goto EnterMissing, w)
  | EnterMissing =>
      match get_connection self w with
      | (Return c, w') => (goto (EnterOpened c), w')
      | (Raise e, w') => (goto (Crashed e), w')
      end
  | EnterOpened c =>
      (goto Idle, set_connections <[t := c]> w)
  | ExitGot n =>
      (goto (ExitStored (n - 1)), set_nested_contexts <[t := n - 1]> w)
  | ExitStored n =>
      if Z.eqb n 0 then
        match (do c <- getitem_connections t; close c) w with
        | (Return _, w') => (goto ExitClosed, w')
        | (Raise e, w') => (goto (Crashed e), w')
        end
      else (goto Idle, w)
  | ExitClosed =>
      match del_connections t w with
      | (Return _, w') => (goto ExitDeleted, w')
      | (Raise e, w') => (goto (Crashed e), w')
      end
  | ExitDeleted =>
      match del_nested_contexts t w with
      | (Return _, w') => (goto Idle, w')
      | (Raise e, w') => (goto (Crashed e), w')
      end
  | Crashed e => (th, w)
  end.

(** [n] steps of one thread with no other thread running. *)
Fixpoint steps (self : Database) (t : Z) (n : nat) (th : thread) (w : world)
  : thread * world :=
  match n with
  | O => (th, w)
  | S n' => let '(th', w') := step self t th w in steps self t n' th' w'
  end.

(** The threads and what they share. *)
Record system := mkSystem { pool : gmap Z thread; shared : world }.

(** The scheduler lets thread [t] run one statement. *)
Definition sched_step (self : Database) (sys : system) (t : Z) : system :=
  match pool sys !! t with
  | None => sys
  | Some th =>
      let '(th', w') := step self t th (shared sys) in
      mkSystem (<[t := th']> (pool sys)) w'
  end.

(** A schedule: which thread runs next, statement after statement. *)
Definition run_schedule (self : Database) (schedule : list Z) (sys : system)
  : system :=
  fold_left (sched_step self) schedule sys.

(** The thread stands between the read and the write of a
    read-modify-write of one of the two maps: the counter it has read is not
    stored yet, or the entry it has found missing is not inserted yet. *)
Definition in_read_modify_write (p : pc) : bool :=
  match p with
  | EnterGot _ | EnterMissing | EnterOpened _ | ExitGot _ => true
  | _ => false
  end.

(** Thread [t] holds connection [c]: in the map, or in hand on its way
    there. *)
Definition holds (sys : system) (t : Z) (c : conn) : Prop :=
  _connections (shared sys) !! t = Some c \/
  exists th, pool sys !! t = Some th /\ at_ th = EnterOpened c.

(** What every schedule keeps true: the provider has handed out every
    connection held; no connection is held by two threads; a thread that has
    found its entry missing still has none. *)
Record sys_inv (sys : system) : Prop := mkSysInv {
  inv_handed_out : forall t c, holds sys t c -> (c < attempts (shared sys))%nat;
  inv_owner : forall t t' c, holds sys t c -> holds sys t' c -> t = t';
  inv_missing : forall t th,
    pool sys !! t = Some th ->
    at_ th = EnterMissing \/ (exists c, at_ th = EnterOpened c) ->
    _connections (shared sys) !! t = None
}.

(** How far thread [t], which set out with the one call [CallEnter] and no
    entry in either map, has come after [k] steps of its own. *)
Definition entered_upto (k : nat) (t : Z) (th : thread) (w : world) : Prop :=
  match k with
  | 0%nat => th = mkThread Idle [CallEnter] /\
             _nested_contexts w !! t = None /\ _connections w !! t = None
  | 1%nat => th = mkThread (EnterGot 0) [] /\
             _nested_contexts w !! t = None /\ _connections w !! t = None
  | 2%nat => th = mkThread EnterStored [] /\
             _nested_contexts w !! t = Some 1 /\ _connections w !! t = None
  | 3%nat => th = mkThread EnterMissing [] /\
             _nested_contexts w !! t = Some 1 /\ _connections w !! t = None
  | 4%nat => exists c, th = mkThread (EnterOpened c) [] /\
             _nested_contexts w !! t = Some 1 /\ _connections w !! t = None /\
             In c (opened w)
  | _ => exists c, th = mkThread Idle [] /\
             _nested_contexts w !! t = Some 1 /\ _connections w !! t = Some c /\
             In c (opened w)
  end.

(** ** Vocabulary of the statements *)

(** The thread can get hold of a connection: it has one cached, or the next
    call of the provider succeeds. *)
Definition can_connect (self : Database) (t : Z) (w : world) : Prop :=
  is_Some (_connections w !! t) \/ connect_outcome self (attempts w) = None.

(** What the engine answers when [Query.__call__] executes [q]. *)
Definition engine_answer (context : Database) (q : Query.t) (s : store)
  : outcome (list pyval * store) :=
  if Query.execute_many q
  then match executemany_other context (Query.query q)
                               (items (Query.params q)) s with
       | (Return rows, s') => Return (rows, s')
       | (Raise e, _) => Raise e
       end
  else sqlite_execute context (Query.query q) (items (Query.params q)) s.

(** The credentials name a stored user and that user's stored hash. *)
Definition valid_credentials (s : store) (username password_ : string) : bool :=
  existsb (fun u => String.eqb (name u) username
                    && String.eqb (password u) password_) (users s).

(** What a token lookup finds: nothing, a row past its expiry, or a row
    still valid, with the holder, the holder's name and the expiry. *)
Inductive token_state :=
| TokenMissing
| TokenExpired
| TokenValid (holder username : string) (expires_ : Z).

Definition token_lookup (s : store) (now : Q) (auth_token : string) : token_state :=
  match head (select_token auth_token s) with
  | None => TokenMissing
  | Some (h, n, e) => if int_lt_float e now then TokenExpired else TokenValid h n e
  end.

(** The exception that leaves the [except] clause of [Query.__call__] and
    of [execute_query] when [exc] reaches it. *)
Definition normalized (exc : exn) : exn :=
  if isinstance exc OperationalError || isinstance exc ProgrammingError
     || isinstance exc DatabaseError
  then DBException_new [PTuple (exn_args exc)]
  else exc.

(** A result row: a tuple of one column at least. *)
Definition mk_row (cols : pyval * list pyval) : pyval :=
  PTuple (fst cols :: snd cols).

(** ** Sample objects *)

(** A database object with nothing in it and no scope entered. *)
Definition world0 : world :=
  mkWorld ∅ ∅ 0 [] [] (mkStore [] []).

(** A provider that always answers, and an engine that has no rows for the
    statements it is not asked about here. *)
Definition quiet_db : Database :=
  mkDatabase (fun _ => None)
             (fun _ _ s => Return ([], s))
             (fun _ _ s => (Return [], s)).

Definition unable_to_open : exn :=
  mkExn OperationalError [PStr "unable to open database file"].

(** A provider that cannot open the file. *)
Definition refusing_db : Database :=
  mkDatabase (fun _ => Some unable_to_open)
             (fun _ _ s => Return ([], s))
             (fun _ _ s => (Return [], s)).

(** An engine that answers every statement with the call it received: which
    of [execute] and [executemany] was used, and with what parameters. *)
Definition echo_db : Database :=
  mkDatabase (fun _ => None)
             (fun _ params s => Return ([PStr "execute"; PTuple params], s))
             (fun _ params s => (Return [PStr "executemany"; PList params], s)).

(** An engine that answers every statement with the same rows. *)
Definition rows_db (rows : list pyval) : Database :=
  mkDatabase (fun _ => None)
             (fun _ _ s => Return (rows, s))
             (fun _ _ s => (Return rows, s)).

(** One user, alice, holding one token that expires at time 100. *)
Definition store1 : store :=
  mkStore [mkUser "id1" "alice" "h1"] [mkAuthToken "id1" "tok1" 100].

Definition world1 : world := mkWorld ∅ ∅ 0 [] [] store1.

(** Threads 1 and 2, each about to enter the scope for the first time. *)
Definition two_entering : system :=
  mkSystem {[ 1 := mkThread Idle [CallEnter]; 2 := mkThread Idle [CallEnter] ]}
           world0.

(** ** The other user and token operations *)

(** The two further statements of [SQLiteDatabase]. *)
Definition q_select_id : string :=
  "SELECT id FROM users WHERE name=?".
Definition q_insert_token : string :=
  "INSERT INTO auth_tokens(holder_id, token, expires) VALUES (?, ?, ?)".

(** [SELECT id FROM users WHERE name=?] *)
Definition select_id (username : string) (s : store) : list string :=
  map id (List.filter (fun u => String.eqb (name u) username) (users s)).

(** [select(AuthToken.token).where(AuthToken.holder_id == user_id)] *)
Definition select_tokens_of (user_id : string) (s : store) : list string :=
  map token
      (List.filter (fun a => String.eqb (holder_id a) user_id) (auth_tokens s)).

(** A row of that token is stored already. *)
Definition token_taken (s : store) (auth_token : string) : bool :=
  existsb (fun a => String.eqb (token a) auth_token) (auth_tokens s).

(** An [INTEGER] of SQLite holds 64 bits, sign included. *)
Definition fits_int64 (z : Z) : bool :=
  (- 2 ^ 63 <=? z) && (z <? 2 ^ 63).

(** What [sqlite3] raises when it is to bind an [int] that does not fit;
    the session passes it on as it is. *)
Definition int_too_large : exn :=
  mkExn PyOverflowError [PStr "Python int too large to convert to SQLite INTEGER"].

(** Inserting into [auth_tokens]: the parameters are bound first, then
    [token] is the primary key.  Nothing checks the holder: the SQL schema
    declares no foreign key, and SQLite does not enforce the one of the
    mapped class unless asked to, which nothing here does. *)
Definition insert_token (cls : exn_class) (a : AuthToken) (s : store)
  : outcome store :=
  if negb (fits_int64 (expires a)) then Raise int_too_large
  else if token_taken s (token a) then
    Raise (integrity_error cls "UNIQUE constraint failed: auth_tokens.token")
  else Return (mkStore (users s) (auth_tokens s ++ [a])).

(** The engine's answer to the two further statements; any other statement
    is none of its business here. *)
Definition sql_other (query : string) (params : list pyval) (s : store)
  : outcome (list pyval * store) :=
  if String.eqb query q_select_id then
    match params with
    | [PStr n] => Return (map row1 (select_id n s), s)
    | _ => Raise (mkExn ProgrammingError [PStr "Incorrect number of bindings supplied."])
    end
  else if String.eqb query q_insert_token then
    match params with
    | [PStr h; PStr t; PInt e] =>
        match insert_token IntegrityError (mkAuthToken h t e) s with
        | Return s' => Return ([], s')
        | Raise e => Raise e
        end
    | _ => Raise (mkExn ProgrammingError [PStr "Incorrect number of bindings supplied."])
    end
  else Raise (mkExn OperationalError [PStr "not a statement of this model"]).

(** The database object answers the two statements as the engine does. *)
Definition answers_user_statements (self : Database) : Prop :=
  (forall n s,
     execute_other self q_select_id [PStr n] s
       = Return (map row1 (select_id n s), s)) /\
  (forall h t e s,
     execute_other self q_insert_token [PStr h; PStr t; PInt e] s
       = match insert_token IntegrityError (mkAuthToken h t e) s with
         | Return s' => Return ([], s')
         | Raise e => Raise e
         end).

(** [int(x)] for a float [x]: the integer part, rounded towards zero. *)
Definition int_of_float (x : Q) : Z := Z.quot (Qnum x) (Z.pos (Qden x)).

Definition SQLiteDatabase_get_user_id (self : Database) (thread_id : Z)
    (username : string) : M pyval :=
  with_ (SQLiteDatabase.__enter__ self thread_id)
        (SQLiteDatabase.__exit__ thread_id) (fun _ =>
    do cursor_ <- SQLiteDatabase.execute_query self thread_id q_select_id
                    [PStr username] true;
    match fetchone cursor_ with
    | None => ret PNone
    | Some result => lift (getitem result 0)
    end).

(** [expires_] is the float that [time() + max_age] evaluates to. *)
Definition SQLiteDatabase_save_auth_token (self : Database) (thread_id : Z)
    (expires_ : Q) (token_ user_id : string) : M unit :=
  with_ (SQLiteDatabase.__enter__ self thread_id)
        (SQLiteDatabase.__exit__ thread_id) (fun _ =>
    run SQLiteDatabase.execute_query self thread_id q_insert_token
          [PStr user_id; PStr token_; PInt (int_of_float expires_)] true;
    ret tt).

Definition SQLAlchemyDatabase_get_user_id (self : Database) (thread_id : Z)
    (username : string) : M pyval :=
  with_ (SQLAlchemyDatabase.__enter__ self thread_id)
        (SQLAlchemyDatabase.__exit__ thread_id) (fun session =>
    do rows <- gets (fun w => select_id username (disk w));
    match SQLAlchemyDatabase.scalar_one rows with
    | Raise e => if isinstance e PyException then ret PNone else raise e
    | Return result => ret result
    end).

Definition SQLAlchemyDatabase_get_auth_token (self : Database) (thread_id : Z)
    (user_id : string) : M pyval :=
  with_ (SQLAlchemyDatabase.__enter__ self thread_id)
        (SQLAlchemyDatabase.__exit__ thread_id) (fun session =>
    do rows <- gets (fun w => select_tokens_of user_id (disk w));
    lift (SQLAlchemyDatabase.scalar_one rows)).

(** [session.add(AuthToken(...))] followed by [session.commit()]. *)
Definition session_add_token (session : conn) (a : AuthToken) : M unit := fun w =>
  match insert_token SAIntegrityError a (disk w) with
  | Return s' => (Return tt, set_disk s' w)
  | Raise e => (Raise e, w)
  end.

Definition SQLAlchemyDatabase_save_auth_token (self : Database) (thread_id : Z)
    (expires_ : Q) (token_ user_id : string) : M unit :=
  with_ (SQLAlchemyDatabase.__enter__ self thread_id)
        (SQLAlchemyDatabase.__exit__ thread_id) (fun session =>
    session_add_token session
      (mkAuthToken user_id token_ (int_of_float expires_))).

(** A database object whose provider always answers and whose engine knows
    the two further statements. *)
Definition sql_db : Database :=
  mkDatabase (fun _ => None) sql_other (fun _ _ s => (Return [], s)).

(** The world after a scope with nothing in it, entered and left by thread
    [t]. *)
Definition scope_done (self : Database) (t : Z) (w : world) : world :=
  snd (with_ (enter_scope self t) (exit_scope t) (fun _ : unit => ret tt) w).

(** The provider answers every call. *)
Definition always_connects (self : Database) : Prop :=
  forall n, connect_outcome self n = None.

(** What the schema declares of the two tables: ids and names of users are
    unique, and so are tokens. *)
Record store_wf (s : store) : Prop := mkStoreWf {
  wf_ids : List.NoDup (map id (users s));
  wf_names : List.NoDup (map name (users s));
  wf_tokens : List.NoDup (map token (auth_tokens s))
}.



(** A provider that fails on its first call only. *)
Definition failing_once_db : Database :=
  mkDatabase (fun n => match n with O => Some unable_to_open | _ => None end)
             (fun _ _ s => Return ([], s))
             (fun _ _ s => (Return [], s)).

(** ** [Query.__str__] *)

(** [s.replace("?", new, 1)] *)
Fixpoint replace_first_qmark (new s : string) : string :=
  match s with
  | EmptyString => EmptyString
  | String c rest =>
      if Ascii.eqb c "?"%char then new ++ rest
      else String c (replace_first_qmark new rest)
  end.

(** [str] is Python's built-in [str], as a parameter. *)
Definition Query__str__ (str : pyval -> string) (self : Query.t) : string :=
  fold_left (fun query param => replace_first_qmark (str param) query)
            (items (Query.params self)) (Query.query self).

(** The text with its first placeholders filled, one text each, from left
    to right. *)
Fixpoint fill (texts : list string) (s : string) : string :=
  match s with
  | EmptyString => EmptyString
  | String c rest =>
      if Ascii.eqb c "?"%char then
        match texts with
        | [] => s
        | x :: texts' => x ++ fill texts' rest
        end
      else String c (fill texts rest)
  end.

(** The text holds no question mark. *)
Fixpoint no_qmark (s : string) : bool :=
  match s with
  | EmptyString => true
  | String c rest => negb (Ascii.eqb c "?"%char) && no_qmark rest
  end.

(** ** [Database.create_backup] *)

(** [s.replace(".db", "")]: every occurrence, found from left to right. *)
Fixpoint remove_db (s : string) : string :=
  match s with
  | EmptyString => EmptyString
  | String c rest =>
      match rest with
      | String c2 (String c3 rest') =>
          if Ascii.eqb c "."%char && Ascii.eqb c2 "d"%char && Ascii.eqb c3 "b"%char
          then remove_db rest'
          else String c (remove_db rest)
      | _ => String c (remove_db rest)
      end
  end.

Definition backup_name (db_path : string) : string :=
  remove_db db_path ++ "_backup.db".

(** The files there are, path to content: regular files, all of them
    readable and writable, a path naming one file. *)
Definition files := gmap string string.

(** [shutil.copyfile(src, dst)]; on failure, [args[0]] of the [OSError].
    The source is opened first, then the destination.  [open_new dst] is
    what opening [dst] for writing does when no file is there: [None] when
    the file can be created, and otherwise the error number, which is 2 when
    the directory of [dst] does not exist. *)
Definition copyfile (open_new : string -> option Z) (src dst : string)
    (fs : files) : pyval + files :=
  match fs !! src with
  | None => inl (PInt 2)
  | Some content =>
      if String.eqb src dst
      then inl (PStr ("'" ++ src ++ "' and '" ++ dst ++ "' are the same file"))
      else
        match fs !! dst, open_new dst with
        | None, Some errno => inl (PInt errno)
        | _, _ => inr (<[dst := content]> fs)
        end
  end.

Definition create_backup (open_new : string -> option Z) (db_path : string)
    (fs : files) : outcome unit * files :=
  let backup_name := backup_name db_path in
  let fs1 := if bool_decide (is_Some (fs !! backup_name))
             then delete backup_name fs else fs in
  match copyfile open_new db_path backup_name fs1 with
  | inl args0 => (Raise (DBException_new [args0]), fs1)
  | inr fs2 => (Return tt, fs2)
  end.



(** ** utils.py *)

Module utils.

(** What the code reads of a [datetime]: [weekday] is [dt.weekday()],
    Monday 0 to Sunday 6. *)
Record datetime := mkDatetime { month : Z; day : Z; weekday : nat }.

Definition days_offset : list Z := [6; 5; 4; 3; 2; 1; 0].

Definition _last_sunday_in_month (dt : datetime) : outcome bool :=
  match nth_error days_offset (weekday dt) with
  | Some offset => Return (31 - day dt <=? offset)
  | None => Raise (mkExn PyIndexError [PStr "list index out of range"])
  end.

(** A [timedelta], in seconds. *)
Definition hours (h : Z) : Z := h * 3600.

(** [CPHTimeZone.dst] *)
Definition dst (dt : datetime) : outcome Z :=
  if (3 <? month dt) && (month dt <? 10) then Return (hours 2)
  else if (month dt <? 3) || (10 <? month dt) then Return (hours 0)
  else
    match (if (month dt =? 3) && (24 <? day dt)
           then _last_sunday_in_month dt else Return false) with
    | Raise e => Raise e
    | Return true => Return (hours 2)
    | Return false =>
        match (if month dt =? 10 then
                 if day dt <? 25 then Return true
                 else match _last_sunday_in_month dt with
                      | Raise e => Raise e
                      | Return b => Return (negb b)
                      end
               else Return false) with
        | Raise e => Raise e
        | Return true => Return (hours 2)
        | Return false => Return (hours 0)
        end
    end.

(** [CPHTimeZone.utcoffset] *)
Definition utcoffset (dt : datetime) : outcome Z :=
  match dst dt with
  | Raise e => Raise e
  | Return d => Return (if 0 <? d then d else hours 1)
  end.

End utils.

(** ** auth.verify_input *)

(** [len(v)] *)
Definition py_len (v : pyval) : outcome Z :=
  match v with
  | PStr s => Return (Z.of_nat (String.length s))
  | PTuple l | PList l | PNamedTuple l | PSubList l =>
      Return (Z.of_nat (List.length l))
  | _ => Raise (mkExn PyTypeError [PStr "object has no len()"])
  end.

(** [str(n)] for an [int]. *)
Definition str_int (n : Z) : string := NilZero.string_of_int (Z.to_int n).

(** The loop runs over [zip(names, keys, lengths)]: it ends with the
    shortest of the three. *)
Fixpoint verify_input (data : gmap string pyval) (names keys : list string)
    (lengths : list Z) : outcome (bool * pyval) :=
  match names, keys, lengths with
  | name_ :: names', key :: keys', max_len :: lengths' =>
      match data !! key with
      | None => Return (false, PStr (name_ ++ " must be given."))
      | Some value =>
          if is_none value || eq_str value ""
          then Return (false, PStr (name_ ++ " must not be empty."))
          else
            match py_len value with
            | Raise e => Raise e
            | Return n =>
                if max_len <? n
                then Return (false,
                       PStr (name_ ++ " must be a maximum of " ++ str_int max_len
                             ++ " characters in length."))
                else verify_input data names' keys' lengths'
            end
      end
  | _, _, _ => Return (true, PNone)
  end.

(** A field that passes: present, a string that is not empty and no longer
    than allowed. *)
Definition field_ok (data : gmap string pyval) (key : string) (max_len : Z)
  : Prop :=
  exists s, data !! key = Some (PStr s) /\ s <> "" /\
            Z.of_nat (String.length s) <= max_len.

(** [zip(names, keys, lengths)] *)
Fixpoint zip3 (names keys : list string) (lengths : list Z)
  : list (string * string * Z) :=
  match names, keys, lengths with
  | n :: names', k :: keys', m :: lengths' => (n, k, m) :: zip3 names' keys' lengths'
  | _, _, _ => []
  end.

(** ** search_logs.key_value_type *)

(** [s.split(sep)] for a separator of one character. *)
Fixpoint split_on (sep : Ascii.ascii) (s : string) : list string :=
  match s with
  | EmptyString => [EmptyString]
  | String c rest =>
      if Ascii.eqb c sep then EmptyString :: split_on sep rest
      else match split_on sep rest with
           | piece :: pieces => String c piece :: pieces
           | [] => [String c EmptyString]
           end
  end.

(** What [key_value_type] hands back: the pair, with [None] for a missing
    value, or the [argparse.ArgumentTypeError] it raises. *)
Inductive key_value :=
| KeyValue (key : string) (value : option string)
| ArgumentTypeError (message : string).

Definition key_value_type (kv_string : string) : key_value :=
  match split_on "="%char kv_string with
  | [_] => KeyValue kv_string None
  | [k; v] => KeyValue k (Some v)
  | _ => ArgumentTypeError "Invalid key-value string"
  end.

(** How often [c] occurs in [s]. *)
Fixpoint count_char (c : Ascii.ascii) (s : string) : nat :=
  match s with
  | EmptyString => O
  | String c' rest => ((if Ascii.eqb c' c then 1 else 0) + count_char c rest)%nat
  end.

(** Form data: every value is a string or [None]. *)
Definition strings_only (data : gmap string pyval) : Prop :=
  forall k v, data !! k = Some v -> v = PNone \/ exists s, v = PStr s.

(** What is wrong with a field that does not pass. *)
Definition complaint (data : gmap string pyval) (key : string) (max_len : Z)
  : string :=
  match data !! key with
  | None => " must be given."
  | Some (PStr (String _ _)) =>
      " must be a maximum of " ++ str_int max_len ++ " characters in length."
  | Some _ => " must not be empty."
  end.

(** The text of a parameter: a string as it is, an integer in decimal. *)
Definition str_sample (v : pyval) : string :=
  match v with
  | PStr s => s
  | PInt z => str_int z
  | _ => "None"
  end.

(** ** query_db.format_raw_output *)

(** [format_value]; the values here hold no float, and [str] is the
    built-in on what is not a string. *)
Definition format_value (str : pyval -> string) (val : pyval) : string :=
  match val with
  | PStr s => String "034" (s ++ String "034" EmptyString)
  | _ => str val
  end.

(** [c * n] for a string of one character; nothing for [n] below one. *)
Fixpoint str_repeat (c : ascii) (n : nat) : string :=
  match n with
  | O => EmptyString
  | S n' => String c (str_repeat c n')
  end.

(** [sep.join(pieces)] *)
Fixpoint join (sep : string) (pieces : list string) : string :=
  match pieces with
  | [] => EmptyString
  | [piece] => piece
  | piece :: rest => piece ++ sep ++ join sep rest
  end.

Definition IndexError : exn :=
  mkExn PyIndexError [PStr "list index out of range"].

(** The inner loop of the first pass, over [enumerate(row)] from
    [col_index] on: [row_lengths[col_index] = max(len(data),
    row_lengths[col_index])]. *)
Fixpoint widen (str : pyval -> string) (row_lengths : list nat)
    (col_index : nat) (row : list pyval) : outcome (list nat) :=
  match row with
  | [] => Return row_lengths
  | col :: row' =>
      let data := format_value str col in
      match row_lengths !! col_index with
      | None => Raise IndexError
      | Some old =>
          widen str (<[col_index := Nat.max (String.length data) old]> row_lengths)
                (S col_index) row'
      end
  end.

(** The first pass over the rows, [row_lengths] already set up by the
    first turn. *)
Fixpoint measure_rows (str : pyval -> string) (row_lengths : list nat)
    (rows : list (list pyval)) : outcome (list nat) :=
  match rows with
  | [] => Return row_lengths
  | row :: rows' =>
      match widen str row_lengths 0 row with
      | Raise e => Raise e
      | Return row_lengths' => measure_rows str row_lengths' rows'
      end
  end.

(** The cells of one printed line: [texts] are the column names for the
    head line, the formatted values for a row.  A negative number of
    spaces gives none, as the truncated subtraction does. *)
Fixpoint pad_cells (row_lengths : list nat) (col_index : nat)
    (texts : list string) : outcome (list string) :=
  match texts with
  | [] => Return []
  | data :: texts' =>
      match row_lengths !! col_index with
      | None => Raise IndexError
      | Some width =>
          let padding := str_repeat " " (width - String.length data) in
          match pad_cells row_lengths (S col_index) texts' with
          | Raise e => Raise e
          | Return row_fmt => Return ((data ++ padding)%string :: row_fmt)
          end
      end
  end.

(** The last loop; [out] is what has been printed so far. *)
Fixpoint print_rows (str : pyval -> string) (row_lengths : list nat)
    (all_rows : list (list pyval)) (out : list string)
  : outcome unit * list string :=
  match all_rows with
  | [] => (Return tt, out)
  | row :: rows' =>
      match pad_cells row_lengths 0 (map (format_value str) row) with
      | Raise e => (Raise e, out)
      | Return row_fmt =>
          print_rows str row_lengths rows' (out ++ [join " | " row_fmt])
      end
  end.

(** [rows] is a list ([rows_is_list]) or another iterable of rows, such as
    a cursor, which is never equal to [[]]; [columns] holds the names
    [col[0]], and is empty for [None] as well: the code only asks
    [if columns].  The result is what is returned or raised, and the lines
    printed. *)
Definition format_raw_output (str : pyval -> string) (rows_is_list : bool)
    (rows : list (list pyval)) (columns : list string)
  : outcome Z * list string :=
  if rows_is_list && match rows with [] => true | _ => false end
  then (Return 0, [])
  else
    let row_lengths0 :=
      match rows with
      | [] => []
      | row :: _ =>
          match columns with
          | [] => repeat O (List.length row)
          | _ => map String.length columns
          end
      end in
    match measure_rows str row_lengths0 rows with
    | Raise e => (Raise e, [])
    | Return row_lengths =>
        let head :=
          match columns with
          | [] => Return []
          | _ =>
              match pad_cells row_lengths 0 columns with
              | Raise e => Raise e
              | Return row_fmt =>
                  Return [join " | " row_fmt;
                          str_repeat "-" (sum_list row_lengths
                                          + List.length columns * 3)]
              end
          end in
        match head with
        | Raise e => (Raise e, [])
        | Return printed =>
            match print_rows str row_lengths rows printed with
            | (Raise e, out) => (Raise e, out)
            | (Return _, out) => (Return (Z.of_nat (List.length rows)), out)
            end
        end
    end.

(** A printed line laid out in columns of the given widths: its cells,
    joined by the separator, are the texts followed by nothing but spaces,
    each cell as wide as its column. *)
Definition laid_out (widths : list nat) (texts : list string) (line : string)
  : Prop :=
  exists cells,
    line = join " | " cells /\
    map String.length cells = widths /\
    Forall2 (fun data cell => exists k, cell = (data ++ str_repeat " " k)%string)
            texts cells.

(** ** search_logs.search_for_key *)

(** What [json.loads] gives. *)
Inductive json :=
| JNull
| JBool (b : bool)
| JNum (z : Z)
| JStr (s : string)
| JList (items : list json)
| JDict (entries : list (string * json)).

(** [d[key]] of a [dict], if there. *)
Fixpoint dict_get (entries : list (string * json)) (key : string)
  : option json :=
  match entries with
  | [] => None
  | (k, v) :: entries' => if String.eqb k key then Some v else dict_get entries' key
  end.

(** [key in s] for two strings. *)
Fixpoint substring_in (key s : string) : bool :=
  String.prefix key s ||
  match s with
  | EmptyString => false
  | String _ rest => substring_in key rest
  end.

(** [key in container], for a string [key]. *)
Definition json_contains (container : json) (key : string) : outcome bool :=
  match container with
  | JDict entries =>
      Return (match dict_get entries key with Some _ => true | None => false end)
  | JStr s => Return (substring_in key s)
  | JList items =>
      Return (existsb (fun item => match item with
                                   | JStr s => String.eqb s key
                                   | _ => false
                                   end) items)
  | JNull | JBool _ | JNum _ =>
      Raise (mkExn PyTypeError [PStr "argument is not iterable"])
  end.

(** [container.get(key)] *)
Definition json_get (container : json) (key : string) : outcome json :=
  match container with
  | JDict entries =>
      Return (match dict_get entries key with Some v => v | None => JNull end)
  | _ => Raise (mkExn PyAttributeError [PStr "object has no attribute 'get'"])
  end.

(** The loop over [nested_keys], on [(unpacked_value, key_in_container)]. *)
Fixpoint unpack (nested_keys : list string) (unpacked_value : json)
    (key_in_container : bool) : outcome (json * bool) :=
  match nested_keys with
  | [] => Return (unpacked_value, key_in_container)
  | nested_key :: nested_keys' =>
      match (match unpacked_value with
             | JNull => Return true
             | _ => match json_contains unpacked_value nested_key with
                    | Raise e => Raise e
                    | Return b => Return (negb b)
                    end
             end) with
      | Raise e => Raise e
      | Return missing =>
          let key_in_container := if missing then false else key_in_container in
          match json_get unpacked_value nested_key with
          | Raise e => Raise e
          | Return unpacked_value' =>
              unpack nested_keys' unpacked_value' key_in_container
          end
      end
  end.

(** [str] is the built-in, [search_regex] the function of that name, both
    as parameters; the result is the text found, or [None]. *)
Definition search_for_key (str : json -> string)
    (search_regex : json -> string -> outcome (option string))
    (record : json) (key : string) (value : option string)
  : outcome (option string) :=
  let nested_keys := split_on "." key in
  match unpack nested_keys record true with
  | Raise e => Raise e
  | Return (unpacked_value, key_in_container) =>
      match unpacked_value with
      | JDict _ =>
          Raise (mkExn PyValueError
                   [PStr ("The key to search for: " ++ key ++ " is invalid. "
                          ++ "Maybe you need sub key (main.sub)?.")])
      | _ =>
          if negb key_in_container then Return None
          else match value with
               | None => Return (Some (str unpacked_value))
               | Some pattern => search_regex unpacked_value pattern
               end
      end
  end.

(** Following a path of keys through nested dicts. *)
Fixpoint walk (record : json) (path : list string) : option json :=
  match path with
  | [] => Some record
  | k :: path' =>
      match record with
      | JDict entries =>
          match dict_get entries k with
          | Some v => walk v path'
          | None => None
          end
      | _ => None
      end
  end.

(** A record, a [str] and a [search_regex] for the examples: the text of
    a string is the string, and the patterns are plain texts. *)
Definition record_sample : json :=
  JDict [("level", JDict [("name", JStr "ERROR"); ("no", JNum 40)]);
         ("message", JStr "disk full");
         ("extra", JNull)].

Definition json_str_sample (v : json) : string :=
  match v with
  | JStr s => s
  | JNull => "None"
  | _ => "..."
  end.

Definition search_regex_sample (text : json) (pattern : string)
  : outcome (option string) :=
  match text with
  | JStr s => Return (if substring_in pattern s then Some pattern else None)
  | _ => Raise (mkExn PyTypeError [PStr "expected string or bytes-like object"])
  end.

(** * Theorems *)

(** ** The context manager, step by step *)

Lemma world_eq (w1 w2 : world) :
  _nested_contexts w1 = _nested_contexts w2 ->
  _connections w1 = _connections w2 ->
  attempts w1 = attempts w2 ->
  opened w1 = opened w2 ->
  closed w1 = closed w2 ->
  disk w1 = disk w2 ->
  w1 = w2.
Proof. destruct w1, w2; simpl; intros; subst; reflexivity. Qed.

Lemma enter_scope_open (self : Database) (t : Z) (w : world) :
  _connections w !! t = None ->
  connect_outcome self (attempts w) = None ->
  enter_scope self t w =
    (Return tt,
     mkWorld (<[t := default 0 (_nested_contexts w !! t) + 1]> (_nested_contexts w))
             (<[t := attempts w]> (_connections w))
             (S (attempts w)) (attempts w :: opened w) (closed w) (disk w)).
Proof.
  intros Hc Hp. unfold enter_scope, bind, gets, modify, get_connection; simpl.
  rewrite Hc. rewrite bool_decide_eq_false_2 by (intros [? ?]; discriminate).
  simpl. rewrite Hp. reflexivity.
Qed.

Lemma enter_scope_open_fails (self : Database) (t : Z) (w : world) (e : exn) :
  _connections w !! t = None ->
  connect_outcome self (attempts w) = Some e ->
  enter_scope self t w =
    (Raise e,
     mkWorld (<[t := default 0 (_nested_contexts w !! t) + 1]> (_nested_contexts w))
             (_connections w)
             (S (attempts w)) (opened w) (closed w) (disk w)).
Proof.
  intros Hc Hp. unfold enter_scope, bind, gets, modify, get_connection; simpl.
  rewrite Hc. rewrite bool_decide_eq_false_2 by (intros [? ?]; discriminate).
  simpl. rewrite Hp. reflexivity.
Qed.

Lemma enter_scope_cached (self : Database) (t : Z) (w : world) (c : conn) :
  _connections w !! t = Some c ->
  enter_scope self t w =
    (Return tt,
     set_nested_contexts <[t := default 0 (_nested_contexts w !! t) + 1]> w).
Proof.
  intros Hc. unfold enter_scope, bind, gets, modify; simpl.
  rewrite Hc. rewrite bool_decide_eq_true_2 by eauto. reflexivity.
Qed.

Lemma exit_scope_inner (t : Z) (w : world) :
  default 1 (_nested_contexts w !! t) - 1 <> 0 ->
  exit_scope t w =
    (Return tt,
     set_nested_contexts <[t := default 1 (_nested_contexts w !! t) - 1]> w).
Proof.
  intros Hd. unfold exit_scope, bind, gets, modify; simpl.
  apply Z.eqb_neq in Hd. rewrite Hd. reflexivity.
Qed.

Lemma exit_scope_last (t : Z) (w : world) (c : conn) :
  default 1 (_nested_contexts w !! t) = 1 ->
  _connections w !! t = Some c ->
  exit_scope t w =
    (Return tt,
     mkWorld (delete t (_nested_contexts w)) (delete t (_connections w))
             (attempts w) (opened w) (c :: closed w) (disk w)).
Proof.
  intros Hd Hc.
  unfold exit_scope, bind, gets, modify, getitem_connections, close,
    del_connections, del_nested_contexts; simpl.
  rewrite Hd. simpl. rewrite Hc. simpl. rewrite Hc. simpl.
  rewrite lookup_insert_eq. unfold set_nested_contexts, set_connections; simpl.
  rewrite delete_insert_eq. reflexivity.
Qed.

(** ** One thread's scopes: the invariant [held] *)

Lemma enter_first (self : Database) (t : Z) (w : world) :
  _nested_contexts w !! t = None ->
  _connections w !! t = None ->
  connect_outcome self (attempts w) = None ->
  exists w1, enter_scope self t w = (Return tt, w1) /\
             held t (attempts w) 1 w w1.
Proof.
  intros Hn Hc Hp. eexists. split.
  - apply enter_scope_open; assumption.
  - rewrite Hn. constructor; reflexivity.
Qed.

Lemma enter_held (self : Database) (t : Z) (c : conn) (d : Z) (w0 w : world) :
  held t c d w0 w ->
  exists w1, enter_scope self t w = (Return tt, w1) /\
             held t c (d + 1) w0 w1.
Proof.
  intros [Hc Hd Ha Ho Hcl Hdk]. eexists. split.
  - apply (enter_scope_cached self t w c). rewrite Hc. apply lookup_insert_eq.
  - rewrite Hd, lookup_insert_eq. simpl.
    constructor; simpl; try assumption.
    rewrite Hd. apply insert_insert_eq.
Qed.

Lemma exit_held_inner (t : Z) (c : conn) (d : Z) (w0 w : world) :
  held t c d w0 w ->
  d - 1 <> 0 ->
  exists w1, exit_scope t w = (Return tt, w1) /\
             held t c (d - 1) w0 w1.
Proof.
  intros [Hc Hd Ha Ho Hcl Hdk] Hne.
  assert (Hl : default 1 (_nested_contexts w !! t) = d)
    by (rewrite Hd, lookup_insert_eq; reflexivity).
  eexists. split.
  - apply exit_scope_inner. rewrite Hl. assumption.
  - rewrite Hl. constructor; simpl; try assumption.
    rewrite Hd. apply insert_insert_eq.
Qed.

Lemma exit_held_last (t : Z) (c : conn) (w0 w : world) :
  _nested_contexts w0 !! t = None ->
  _connections w0 !! t = None ->
  held t c 1 w0 w ->
  exit_scope t w = (Return tt, released c w0).
Proof.
  intros Hn0 Hc0 [Hc Hd Ha Ho Hcl Hdk].
  rewrite (exit_scope_last t w c).
  - f_equal. unfold released. apply world_eq; simpl; try congruence.
    + rewrite Hd, delete_insert_eq. apply delete_id. assumption.
    + rewrite Hc, delete_insert_eq. apply delete_id. assumption.
  - rewrite Hd, lookup_insert_eq. reflexivity.
  - rewrite Hc. apply lookup_insert_eq.
Qed.

Lemma held_connection (t : Z) (c : conn) (d : Z) (w0 w : world) :
  held t c d w0 w -> _connections w !! t = Some c.
Proof. intros [Hc _ _ _ _ _]. rewrite Hc. apply lookup_insert_eq. Qed.

(** Entering [n] more times from depth [d]: every entry hands out [c]. *)
Lemma enter_times_held (self : Database) (t : Z) (c : conn) (w0 : world)
    (n : nat) :
  forall (d : Z) (w : world),
  held t c d w0 w ->
  exists w1,
    enter_times (sqlite_enter_connection self t) n w
      = (Return (replicate n (Some c)), w1) /\
    enter_times (SQLAlchemyDatabase.__enter__ self t) n w
      = (Return (replicate n c), w1) /\
    held t c (d + Z.of_nat n) w0 w1.
Proof.
  induction n as [|n IH]; intros d w Hh.
  - exists w. simpl. rewrite Z.add_0_r. auto.
  - destruct (enter_held self t c d w0 w Hh) as (w1 & He & Hh1).
    destruct (IH (d + 1) w1 Hh1) as (w2 & Hl & Ha & Hh2).
    pose proof (held_connection _ _ _ _ _ Hh1) as Hc1.
    exists w2. split; [|split].
    + simpl. unfold bind at 1. unfold sqlite_enter_connection at 1.
      unfold SQLiteDatabase.__enter__, bind at 1. rewrite He.
      unfold connection, gets. rewrite Hc1.
      unfold bind at 1. rewrite Hl. reflexivity.
    + simpl. unfold bind at 1. unfold SQLAlchemyDatabase.__enter__ at 1.
      unfold bind at 1. rewrite He.
      unfold getitem_connections. rewrite Hc1.
      unfold bind at 1. rewrite Ha. reflexivity.
    + replace (d + Z.of_nat (S n)) with (d + 1 + Z.of_nat n) by lia.
      assumption.
Qed.

(** Leaving [k] scopes out of [d > k]: the connection stays. *)
Lemma exit_times_held (t : Z) (c : conn) (w0 : world) (k : nat) :
  forall (d : Z) (w : world),
  held t c d w0 w ->
  Z.of_nat k < d ->
  exists w1, exit_times (exit_scope t) k w = (Return tt, w1) /\
             held t c (d - Z.of_nat k) w0 w1.
Proof.
  induction k as [|k IH]; intros d w Hh Hlt.
  - exists w. simpl. rewrite Z.sub_0_r. auto.
  - destruct (exit_held_inner t c d w0 w Hh) as (w1 & He & Hh1); [lia|].
    destruct (IH (d - 1) w1 Hh1) as (w2 & Hx & Hh2); [lia|].
    exists w2. split.
    + simpl. unfold bind at 1. rewrite He. assumption.
    + replace (d - Z.of_nat (S k)) with (d - 1 - Z.of_nat k) by lia.
      assumption.
Qed.

Lemma exit_times_app (exit : M unit) (j k : nat) (w w1 : world) :
  exit_times exit j w = (Return tt, w1) ->
  exit_times exit (j + k) w = exit_times exit k w1.
Proof.
  revert w. induction j as [|j IH]; intros w Hj; simpl in *.
  - injection Hj as <-. reflexivity.
  - unfold bind in *. destruct (exit w) as [[[]|e] w']; [|discriminate].
    apply IH. assumption.
Qed.

Lemma enter_times_fresh (self : Database) (t : Z) (w : world) (n : nat) :
  _nested_contexts w !! t = None ->
  _connections w !! t = None ->
  connect_outcome self (attempts w) = None ->
  exists w1,
    enter_times (sqlite_enter_connection self t) (S n) w
      = (Return (replicate (S n) (Some (attempts w))), w1) /\
    enter_times (SQLAlchemyDatabase.__enter__ self t) (S n) w
      = (Return (replicate (S n) (attempts w)), w1) /\
    held t (attempts w) (Z.of_nat (S n)) w w1.
Proof.
  intros Hn Hc Hp.
  destruct (enter_first self t w Hn Hc Hp) as (w1 & He & Hh1).
  destruct (enter_times_held self t _ w n 1 w1 Hh1) as (w2 & Hl & Ha & Hh2).
  pose proof (held_connection _ _ _ _ _ Hh1) as Hc1.
  exists w2. split; [|split].
  - simpl. unfold bind at 1. unfold sqlite_enter_connection at 1.
    unfold SQLiteDatabase.__enter__, bind at 1. rewrite He.
    unfold connection, gets. rewrite Hc1.
    unfold bind at 1. rewrite Hl. reflexivity.
  - simpl. unfold bind at 1. unfold SQLAlchemyDatabase.__enter__ at 1.
    unfold bind at 1. rewrite He.
    unfold getitem_connections. rewrite Hc1.
    unfold bind at 1. rewrite Ha. reflexivity.
  - replace (Z.of_nat (S n)) with (1 + Z.of_nat n) by lia. assumption.
Qed.

(** C1, as stated, fails: after an entry that failed in the provider the
    thread has no scope open and no connection, yet its depth counter stands
    at 1.  Two nested scopes entered and left from there open one
    connection and hand it to both entries, in either class, but the second
    exit does not close it: the connection is still cached, nothing has been
    closed, and the counter is back at 1. *)
Lemma balanced_scopes_after_failed_entry :
  let w := snd (SQLiteDatabase.__enter__ failing_once_db 7 world0) in
  let w1 := snd (enter_times (sqlite_enter_connection failing_once_db 7) 2 w) in
  let w2 := snd (exit_times (exit_scope 7) 2 w1) in
  fst (SQLiteDatabase.__enter__ failing_once_db 7 world0) = Raise unable_to_open /\
  _connections w !! 7 = None /\
  _nested_contexts w !! 7 = Some 1 /\
  fst (enter_times (sqlite_enter_connection failing_once_db 7) 2 w)
    = Return [Some 1%nat; Some 1%nat] /\
  enter_times (SQLAlchemyDatabase.__enter__ failing_once_db 7) 2 w
    = (Return [1%nat; 1%nat], w1) /\
  fst (exit_times (exit_scope 7) 2 w1) = Return tt /\
  opened w2 = [1%nat] /\
  closed w2 = [] /\
  _connections w2 !! 7 = Some 1%nat /\
  _nested_contexts w2 !! 7 = Some 1.
Proof. repeat split; vm_compute; reflexivity. Qed.

(** C1, amended.  A thread that has no entry in either map - no scope
    open, and no earlier entry that failed - enters [N >= 1] nested scopes and
    leaves them again, the provider answering the one call it gets.  Then,
    for [SQLiteDatabase] and [SQLAlchemyDatabase] alike: after each of the
    first [k] entries exactly one connection [c] has been opened and none
    closed ([held]); every entry hands [c] to its caller; after [j < N] exits
    [c] is still cached and open at depth [N - j]; the [N]-th exit closes
    [c], once, and leaves both maps without an entry for the thread
    ([released]). *)
Theorem nested_scopes_one_connection
    (self : Database) (t : Z) (w : world) (N : nat) :
  (1 <= N)%nat ->
  _nested_contexts w !! t = None ->
  _connections w !! t = None ->
  connect_outcome self (attempts w) = None ->
  let c := attempts w in
  (forall k, (1 <= k <= N)%nat ->
     exists wk,
       enter_times (sqlite_enter_connection self t) k w
         = (Return (replicate k (Some c)), wk) /\
       enter_times (SQLAlchemyDatabase.__enter__ self t) k w
         = (Return (replicate k c), wk) /\
       held t c (Z.of_nat k) w wk) /\
  exists w1,
    enter_times (sqlite_enter_connection self t) N w
      = (Return (replicate N (Some c)), w1) /\
    enter_times (SQLAlchemyDatabase.__enter__ self t) N w
      = (Return (replicate N c), w1) /\
    (forall j, (j < N)%nat ->
       exists w2, exit_times (exit_scope t) j w1 = (Return tt, w2) /\
                  held t c (Z.of_nat N - Z.of_nat j) w w2) /\
    exit_times (exit_scope t) N w1 = (Return tt, released c w) /\
    _connections (released c w) !! t = None /\
    _nested_contexts (released c w) !! t = None /\
    opened (released c w) = c :: opened w /\
    closed (released c w) = c :: closed w.
Proof.
  intros HN Hn Hc Hp c. split.
  - intros k [Hk1 Hk2]. destruct k as [|k]; [lia|].
    apply enter_times_fresh; assumption.
  - destruct N as [|n]; [lia|].
    destruct (enter_times_fresh self t w n Hn Hc Hp) as (w1 & Hl & Ha & Hh).
    exists w1. repeat split; try assumption.
    + intros j Hj. apply exit_times_held; [assumption|lia].
    + destruct (exit_times_held t c w n _ w1 Hh) as (w2 & Hx & Hh2); [lia|].
      replace (S n) with (n + 1)%nat by lia.
      rewrite (exit_times_app _ n 1 w1 w2 Hx).
      replace (Z.of_nat (S n) - Z.of_nat n) with 1 in Hh2 by lia.
      simpl. unfold bind.
      rewrite (exit_held_last t c w w2 Hn Hc Hh2). reflexivity.
Qed.

Lemma nested_scopes_one_connection_witness :
  exists w1,
    enter_times (sqlite_enter_connection quiet_db 7) 3 world0
      = (Return [Some 0%nat; Some 0%nat; Some 0%nat], w1) /\
    enter_times (SQLAlchemyDatabase.__enter__ quiet_db 7) 3 world0
      = (Return [0%nat; 0%nat; 0%nat], w1) /\
    exit_times (exit_scope 7) 3 w1 = (Return tt, released 0%nat world0).
Proof.
  destruct (nested_scopes_one_connection quiet_db 7 world0 3)
    as [_ (w1 & H1 & H2 & _ & H3 & _)];
    [lia | reflexivity | reflexivity | reflexivity |].
  exists w1. repeat split; assumption.
Defined.

(** ** A provider that fails *)

(** C2, as stated, fails: with no scope entered and a provider that cannot
    open the file, [__enter__] of either class raises the provider's error
    and leaves the depth counter of the thread at 1 with no connection
    entry beside it. *)
Lemma open_failure_leaves_depth_counter :
  _nested_contexts world0 !! 7 = None /\
  _connections world0 !! 7 = None /\
  exists w',
    SQLiteDatabase.__enter__ refusing_db 7 world0 = (Raise unable_to_open, w') /\
    SQLAlchemyDatabase.__enter__ refusing_db 7 world0 = (Raise unable_to_open, w') /\
    _nested_contexts w' !! 7 = Some 1 /\
    _connections w' !! 7 = None /\
    _nested_contexts w' <> _nested_contexts world0.
Proof.
  split; [reflexivity|]. split; [reflexivity|].
  pose proof (enter_scope_open_fails refusing_db 7 world0 unable_to_open
                eq_refl eq_refl) as He.
  eexists. split; [exact He|]. split.
  - unfold SQLAlchemyDatabase.__enter__, bind. rewrite He. reflexivity.
  - simpl. split; [apply lookup_insert_eq|]. split; [reflexivity|].
    intros H. apply (f_equal (fun m => m !! 7)) in H.
    rewrite lookup_insert_eq in H. discriminate H.
Qed.

(** C2, amended.  When the thread has no cached connection and the provider
    fails with [e], [__enter__] of either class raises [e] itself; no
    connection entry is created and no connection is opened; the depth
    counter of the thread has been raised by one before the provider was
    called and stays so. *)
Theorem enter_open_failure (self : Database) (t : Z) (w : world) (e : exn) :
  _connections w !! t = None ->
  connect_outcome self (attempts w) = Some e ->
  let w' := mkWorld (<[t := default 0 (_nested_contexts w !! t) + 1]>
                       (_nested_contexts w))
                    (_connections w) (S (attempts w)) (opened w) (closed w)
                    (disk w) in
  SQLiteDatabase.__enter__ self t w = (Raise e, w') /\
  SQLAlchemyDatabase.__enter__ self t w = (Raise e, w') /\
  _connections w' !! t = None /\
  _nested_contexts w' !! t = Some (default 0 (_nested_contexts w !! t) + 1).
Proof.
  intros Hc Hp w'.
  pose proof (enter_scope_open_fails self t w e Hc Hp) as He.
  split; [exact He|]. split.
  - unfold SQLAlchemyDatabase.__enter__, bind. rewrite He. reflexivity.
  - split; [exact Hc|]. subst w'. simpl. apply lookup_insert_eq.
Qed.

Lemma enter_open_failure_witness :
  SQLiteDatabase.__enter__ refusing_db 7 world0
    = (Raise unable_to_open, mkWorld {[ 7 := 1 ]} ∅ 1 [] [] (mkStore [] [])) /\
  SQLAlchemyDatabase.__enter__ refusing_db 7 world0
    = (Raise unable_to_open, mkWorld {[ 7 := 1 ]} ∅ 1 [] [] (mkStore [] [])).
Proof.
  destruct (enter_open_failure refusing_db 7 world0 unable_to_open)
    as (H1 & H2 & _); [reflexivity | reflexivity |].
  split; [exact H1 | exact H2].
Defined.

(** ** [execute_query] outside a scope *)

(** C10.  When the calling thread has no entry in [_connections],
    [SQLiteDatabase.execute_query] raises [DBException] carrying the message
    and changes nothing: no connection is opened, no statement reaches the
    engine. *)
Theorem execute_query_no_connection
    (self : Database) (t : Z) (query : string) (params : list pyval)
    (commit_ : bool) (w : world) :
  _connections w !! t = None ->
  SQLiteDatabase.execute_query self t query params commit_ w
    = (Raise (DBException_new [PStr "No database connection is active."]), w).
Proof.
  intros Hc. unfold SQLiteDatabase.execute_query, bind, connection, gets.
  rewrite Hc. reflexivity.
Qed.

Lemma execute_query_no_connection_witness :
  SQLiteDatabase.execute_query quiet_db 7 q_select_password [PStr "alice"] true world0
    = (Raise (mkExn DBException [PTuple [PStr "No database connection is active."]]),
       world0).
Proof.
  apply (execute_query_no_connection quiet_db 7 q_select_password
           [PStr "alice"] true world0).
  reflexivity.
Defined.

(** ** Batch detection *)

Lemma collect_params_map (params : list pyval) :
  collect_params params
    = map (fun p => match p with PList l => PTuple l | _ => p end) params.
Proof.
  unfold collect_params.
  enough (Hgen : forall acc,
    fold_left
      (fun collected_params param =>
         if is_list_or_tuple param
         then collected_params ++ [tuple param]
         else collected_params ++ [param])
      params acc
    = acc ++ map (fun p => match p with PList l => PTuple l | _ => p end) params)
    by apply (Hgen []).
  induction params as [|p ps IH]; intros acc; simpl.
  - rewrite app_nil_r. reflexivity.
  - rewrite IH. destruct p; simpl; rewrite <- app_assoc; reflexivity.
Qed.

Lemma all_tuples_spec (l : list pyval) :
  all_tuples l = true <-> l <> [] /\ Forall (fun p => is_tuple p = true) l.
Proof.
  unfold all_tuples. rewrite andb_true_iff, negb_true_iff, bool_decide_eq_false.
  rewrite forallb_forall, Forall_forall.
  split; intros [H1 H2]; split; try assumption.
  - intros x Hx. apply H2. apply list_elem_of_In. assumption.
  - intros x Hx. apply H2. apply list_elem_of_In. assumption.
Qed.

Lemma is_tuple_spec (p : pyval) :
  is_tuple p = true <-> exists l, p = PTuple l \/ p = PNamedTuple l.
Proof.
  destruct p; simpl; split; try discriminate; eauto;
    intros [l [H|H]]; discriminate.
Qed.

Lemma is_tuple_coerced (p : pyval) :
  is_tuple (match p with PList l => PTuple l | _ => p end) = true <->
  exists l, p = PList l \/ p = PTuple l \/ p = PNamedTuple l.
Proof.
  destruct p; simpl; split; try discriminate; eauto;
    intros [l [H|[H|H]]]; discriminate.
Qed.

Lemma bind_commit_ret (m : M cursor) (b : bool) (c : conn) (w : world) :
  (do cursor_ <- m; run (if b then commit c else ret tt); ret cursor_) w = m w.
Proof.
  unfold bind. destruct (m w) as [[a|e] w']; [|reflexivity].
  destruct b; reflexivity.
Qed.

(** C7.  [Query.__init__] turns every parameter that is a list into the
    tuple of the same elements and leaves every other parameter, tuples
    included, as it is; [execute_many] is set exactly when there is at least
    one parameter and every collected parameter is a tuple, that is, when
    every parameter given was a list, a tuple or an instance of a subclass of
    tuple; the parameters are then the list of these tuples, and otherwise
    one flat tuple.  [SQLiteDatabase.execute_query] collects in the same way
    and decides in the same way between [executemany] and [execute].  The
    parameters [("a", 1)], [("b", 2)] give a batch of two rows, and so do
    [["a", 1]], [("b", 2)]; the parameters ["a"], [1] give one execution with
    two values; a list beside a scalar is coerced all the same, and the
    whole is one execution.  An instance of a subclass is never coerced: of
    a subclass of tuple it counts as the tuple it is, of a subclass of list
    it is one positional value. *)
Theorem query_batch_detection
    (query_ : string) (params_ : list pyval) (format_func_ : format_func_t)
    (default_ : pyval) :
  let collected :=
    map (fun p => match p with PList l => PTuple l | _ => p end) params_ in
  let q := Query.__init__ query_ params_ format_func_ default_ in
  (Query.execute_many q = true <->
     params_ <> [] /\
     Forall (fun p => exists l, p = PTuple l \/ p = PNamedTuple l) collected) /\
  (Query.execute_many q = true <->
     params_ <> [] /\
     Forall (fun p => exists l, p = PList l \/ p = PTuple l \/ p = PNamedTuple l)
            params_) /\
  Query.params q = (if Query.execute_many q then PList collected
                    else PTuple collected) /\
  (forall self t c commit_ w,
     _connections w !! t = Some c ->
     SQLiteDatabase.execute_query self t query_ params_ commit_ w
       = try_except
           (if Query.execute_many q
            then cursor_executemany self query_ collected
            else cursor_execute self query_ collected)
           wrap_engine_error w) /\
  Query.__init__ query_ [PTuple [PStr "a"; PInt 1]; PTuple [PStr "b"; PInt 2]]
                 format_func_ default_
    = Query.mk (PList [PTuple [PStr "a"; PInt 1]; PTuple [PStr "b"; PInt 2]])
               query_ true format_func_ default_ /\
  Query.__init__ query_ [PList [PStr "a"; PInt 1]; PTuple [PStr "b"; PInt 2]]
                 format_func_ default_
    = Query.mk (PList [PTuple [PStr "a"; PInt 1]; PTuple [PStr "b"; PInt 2]])
               query_ true format_func_ default_ /\
  Query.__init__ query_ [PStr "a"; PInt 1] format_func_ default_
    = Query.mk (PTuple [PStr "a"; PInt 1]) query_ false format_func_ default_ /\
  Query.__init__ query_ [PList [PStr "a"; PStr "b"]; PInt 1] format_func_ default_
    = Query.mk (PTuple [PTuple [PStr "a"; PStr "b"]; PInt 1])
               query_ false format_func_ default_ /\
  Query.__init__ query_ [PNamedTuple [PStr "a"; PInt 1]] format_func_ default_
    = Query.mk (PList [PNamedTuple [PStr "a"; PInt 1]])
               query_ true format_func_ default_ /\
  Query.__init__ query_ [PSubList [PStr "a"; PInt 1]] format_func_ default_
    = Query.mk (PTuple [PSubList [PStr "a"; PInt 1]])
               query_ false format_func_ default_ /\
  fst (Query.__call__ echo_db 7
         (Query.__init__ "INSERT INTO t(a, b) VALUES (?, ?)"
            [PList [PStr "a"; PInt 1]; PTuple [PStr "b"; PInt 2]]
            (FormatValue PNone) PNone) true false world0)
    = Return (RCursor [PStr "executemany";
                       PList [PTuple [PStr "a"; PInt 1]; PTuple [PStr "b"; PInt 2]]]) /\
  fst (Query.__call__ echo_db 7
         (Query.__init__ "INSERT INTO t(a, b) VALUES (?, ?)"
            [PStr "a"; PInt 1] (FormatValue PNone) PNone)
         true false world0)
    = Return (RCursor [PStr "execute"; PTuple [PStr "a"; PInt 1]]).
Proof.
  intros collected q.
  assert (Hq : Query.execute_many q = all_tuples collected).
  { unfold q, Query.__init__. simpl. rewrite collect_params_map. reflexivity. }
  assert (Hne : collected <> [] <-> params_ <> []).
  { unfold collected. destruct params_; simpl; split; congruence. }
  split; [|split; [|split; [|split]]].
  - rewrite Hq, all_tuples_spec, Hne.
    split; intros [H1 H2]; split; try assumption;
      eapply Forall_impl; try exact H2; intros p; simpl;
      apply is_tuple_spec.
  - rewrite Hq, all_tuples_spec, Hne. unfold collected.
    rewrite Forall_map.
    split; intros [H1 H2]; split; try assumption;
      eapply Forall_impl; try exact H2; intros p; simpl;
      apply is_tuple_coerced.
  - unfold q, Query.__init__. simpl. rewrite collect_params_map. reflexivity.
  - intros self t c commit_ w Hc.
    unfold SQLiteDatabase.execute_query, bind at 1, connection, gets.
    rewrite Hc. rewrite collect_params_map. fold collected. rewrite Hq.
    unfold try_except. rewrite bind_commit_ret. reflexivity.
  - repeat split; try reflexivity; vm_compute; reflexivity.
Qed.

(** ** Scopes around a body *)

Lemma enter_scope_ok (self : Database) (t : Z) (w : world) :
  can_connect self t w ->
  exists w1 c,
    enter_scope self t w = (Return tt, w1) /\
    _connections w1 !! t = Some c /\
    disk w1 = disk w.
Proof.
  intros Hcan. destruct (_connections w !! t) as [c|] eqn:Hc.
  - eexists _, c. split; [apply (enter_scope_cached self t w c Hc)|].
    split; [exact Hc | reflexivity].
  - destruct Hcan as [[c Hc']|Hp]; [congruence|].
    eexists _, (attempts w). split; [apply enter_scope_open; assumption|].
    split; [apply lookup_insert_eq | reflexivity].
Qed.

Lemma exit_scope_ok (t : Z) (w : world) (c : conn) :
  _connections w !! t = Some c ->
  exists w', exit_scope t w = (Return tt, w') /\ disk w' = disk w.
Proof.
  intros Hc.
  destruct (Z.eq_dec (default 1 (_nested_contexts w !! t) - 1) 0) as [Hz|Hnz].
  - eexists. split; [apply (exit_scope_last t w c); [lia | exact Hc]|].
    reflexivity.
  - eexists. split; [apply exit_scope_inner; exact Hnz|]. reflexivity.
Qed.

(** A body that touches nothing but the tables, run inside a scope. *)
Lemma with_scope {A} (self : Database) (t : Z) (w : world)
    (body : unit -> M A) :
  can_connect self t w ->
  exists w1 c,
    enter_scope self t w = (Return tt, w1) /\
    _connections w1 !! t = Some c /\
    disk w1 = disk w /\
    forall (r : outcome A) (s : store),
      body tt w1 = (r, set_disk s w1) ->
      exists w3,
        with_ (enter_scope self t) (exit_scope t) body w = (r, w3) /\
        disk w3 = s.
Proof.
  intros Hcan.
  destruct (enter_scope_ok self t w Hcan) as (w1 & c & He & Hc & Hd).
  exists w1, c. repeat split; try assumption.
  intros r s Hb.
  destruct (exit_scope_ok t (set_disk s w1) c Hc) as (w3 & Hx & Hd3).
  exists w3. split; [|exact Hd3].
  unfold with_. rewrite He, Hb, Hx. reflexivity.
Qed.

Lemma set_disk_same (w : world) : set_disk (disk w) w = w.
Proof. destruct w; reflexivity. Qed.

(** ** Result shaping *)

Lemma wrap_engine_error_normalized {A} (exc : exn) (w : world) :
  @wrap_engine_error A exc w = (Raise (normalized exc), w).
Proof.
  unfold wrap_engine_error, normalized.
  destruct (isinstance exc OperationalError || isinstance exc ProgrammingError
            || isinstance exc DatabaseError); reflexivity.
Qed.

Lemma eq_str_spec (v : pyval) (s : string) : eq_str v s = true <-> v = PStr s.
Proof.
  destruct v; simpl; try (split; [discriminate | intros H; discriminate H]).
  rewrite String.eqb_eq. split; [intros ->; reflexivity | intros [= ->]; reflexivity].
Qed.

Lemma eq_str_false (v : pyval) (s : string) : v <> PStr s -> eq_str v s = false.
Proof.
  intros Hne. destruct (eq_str v s) eqn:E; [|reflexivity].
  apply eq_str_spec in E. contradiction.
Qed.

Lemma unpack_rows_mk_row (cols : list (pyval * list pyval)) :
  unpack_rows (map mk_row cols) = Return (map fst cols).
Proof.
  induction cols as [|c cols IH]; simpl; [reflexivity|].
  rewrite IH. reflexivity.
Qed.

(** What [Query.__call__] returns once the engine has answered. *)
Lemma query_call_result (context : Database) (t : Z) (q : Query.t)
    (commit_ raw : bool) (w : world) (rows : list pyval) (s' : store) :
  can_connect context t w ->
  engine_answer context q (disk w) = Return (rows, s') ->
  exists w3,
    Query.__call__ context t q commit_ raw w
      = (match Query.shape q raw rows with
         | Return r => Return r
         | Raise e => Raise (normalized e)
         end, w3) /\
    disk w3 = s'.
Proof.
  intros Hcan Heng.
  destruct (with_scope context t w
              (fun _ : unit =>
                 do conn_ <- connection t;
                 try_except
                   (do c <- match conn_ with
                            | Some c => ret c
                            | None => raise (mkExn PyAttributeError
                                [PStr "'NoneType' object has no attribute 'cursor'"])
                            end;
                    do cursor_ <- (if Query.execute_many q
                                   then cursor_executemany context (Query.query q)
                                          (items (Query.params q))
                                   else cursor_execute context (Query.query q)
                                          (items (Query.params q)));
                    run (if commit_ then commit c else ret tt);
                    lift (Query.shape q raw cursor_))
                   wrap_engine_error) Hcan)
    as (w1 & c & He & Hc & Hd & Hbody).
  apply Hbody.
  unfold bind at 1, connection, gets. rewrite Hc.
  unfold try_except, bind at 1, ret.
  assert (Hcur : (if Query.execute_many q
                  then cursor_executemany context (Query.query q)
                         (items (Query.params q))
                  else cursor_execute context (Query.query q)
                         (items (Query.params q))) w1
                 = (Return rows, set_disk s' w1)).
  { unfold engine_answer in Heng. rewrite <- Hd in Heng.
    destruct (Query.execute_many q).
    - unfold cursor_executemany.
      destruct (executemany_other context (Query.query q)
                  (items (Query.params q)) (disk w1)) as [[rows0|e0] s0];
        [|discriminate].
      injection Heng as -> ->. reflexivity.
    - unfold cursor_execute, lift_engine. rewrite Heng. reflexivity. }
  unfold bind at 1. rewrite Hcur.
  unfold bind, lift, commit, ret.
  destruct commit_; destruct (Query.shape q raw rows) as [r|e];
    try reflexivity; apply wrap_engine_error_normalized.
Qed.

(** C6.  A call of a [Query] (not in raw mode) whose format function is the
    plain value [v], after the engine has answered with the rows [cols]:
    ["all"] gives the list of all rows, or, when there is none, the default
    (the empty list when the default is unset); ["one"] the first row, or the
    default when there is none; ["unpack_all"] the first column of every row,
    or the default (the empty list when unset) when there is none;
    ["unpack_one"] the first column of the first row, or the default when
    there is none; a value that is neither [None] nor one of the four makes
    the call raise [ValueError]. *)
Theorem query_result_shaping (context : Database) (t : Z) (q : Query.t)
    (commit_ : bool) (w : world) (cols : list (pyval * list pyval))
    (s' : store) (v : pyval) :
  can_connect context t w ->
  engine_answer context q (disk w) = Return (map mk_row cols, s') ->
  Query.format_func q = FormatValue v ->
  let returned := fst (Query.__call__ context t q commit_ false w) in
  let unset := if is_none (Query.default q) then PList [] else Query.default q in
  (v = PStr "all" ->
     returned = Return (RValue (match cols with
                                | [] => unset
                                | _ => PList (map mk_row cols)
                                end))) /\
  (v = PStr "one" ->
     returned = Return (RValue (match cols with
                                | [] => Query.default q
                                | c :: _ => mk_row c
                                end))) /\
  (v = PStr "unpack_all" ->
     returned = Return (RValue (match cols with
                                | [] => unset
                                | _ => PList (map fst cols)
                                end))) /\
  (v = PStr "unpack_one" ->
     returned = Return (RValue (match cols with
                                | [] => Query.default q
                                | c :: _ => fst c
                                end))) /\
  (v <> PNone -> v <> PStr "all" -> v <> PStr "one" ->
   v <> PStr "unpack_all" -> v <> PStr "unpack_one" ->
     returned = Raise (mkExn PyValueError
                         [PStr "Formatting function for query is invalid."; v])).
Proof.
  intros Hcan Heng Hf returned unset.
  destruct (query_call_result context t q commit_ false w _ s' Hcan Heng)
    as (w3 & Hcall & _).
  unfold returned. rewrite Hcall. simpl. clear Hcall returned.
  unfold Query.shape. rewrite Hf.
  split; [|split; [|split; [|split]]].
  - intros ->. simpl. destruct cols; reflexivity.
  - intros ->. simpl. destruct cols; reflexivity.
  - intros ->. simpl. rewrite unpack_rows_mk_row. destruct cols; reflexivity.
  - intros ->. simpl. destruct cols; reflexivity.
  - intros Hn Ha Ho Hua Huo.
    replace (is_none v) with false by (destruct v; simpl; congruence).
    rewrite !eq_str_false by assumption. reflexivity.
Qed.

Lemma query_result_shaping_witness :
  fst (Query.__call__ (rows_db [PTuple [PInt 5; PStr "x"]; PTuple [PInt 6; PStr "y"]]) 7
         (Query.__init__ "SELECT a, b FROM t" [] (FormatValue (PStr "unpack_all")) PNone)
         true false world0)
    = Return (RValue (PList [PInt 5; PInt 6])) /\
  fst (Query.__call__ (rows_db []) 7
         (Query.__init__ "SELECT a, b FROM t" [] (FormatValue (PStr "all")) PNone)
         true false world0)
    = Return (RValue (PList [])).
Proof.
  split.
  - destruct (query_result_shaping
             (rows_db [PTuple [PInt 5; PStr "x"]; PTuple [PInt 6; PStr "y"]]) 7
             (Query.__init__ "SELECT a, b FROM t" [] (FormatValue (PStr "unpack_all")) PNone)
             true world0 [(PInt 5, [PStr "x"]); (PInt 6, [PStr "y"])]
             (disk world0) (PStr "unpack_all"))
      as (_ & _ & Hunpack & _);
      [right; reflexivity | reflexivity | reflexivity |].
    exact (Hunpack eq_refl).
  - destruct (query_result_shaping (rows_db []) 7
             (Query.__init__ "SELECT a, b FROM t" [] (FormatValue (PStr "all")) PNone)
             true world0 [] (disk world0) (PStr "all"))
      as (Hall & _);
      [right; reflexivity | reflexivity | reflexivity |].
    exact (Hall eq_refl).
Defined.

(** ** The engine on the four statements *)

Lemma int_lt_float_spec (z : Z) (now : Q) :
  int_lt_float z now = true <-> (inject_Z z < now)%Q.
Proof.
  unfold int_lt_float. rewrite negb_true_iff.
  split.
  - intros H. apply Qnot_le_lt. intros Hle.
    apply Qle_bool_iff in Hle. congruence.
  - intros H. destruct (Qle_bool now (inject_Z z)) eqn:E; [|reflexivity].
    apply Qle_bool_iff in E. exfalso. apply (Qlt_not_le _ _ H E).
Qed.

Lemma sqlite_execute_insert_user (self : Database)
    (user_id username hashed_pass : string) (s : store) :
  sqlite_execute self q_insert_user
      [PStr user_id; PStr username; PStr hashed_pass] s
    = match insert_user IntegrityError
              (mkUser user_id username hashed_pass) s with
      | Return s' => Return ([], s')
      | Raise e => Raise e
      end.
Proof. reflexivity. Qed.

Lemma execute_query_cached (self : Database) (t : Z) (c : conn)
    (query_ : string) (params_ : list pyval) (commit_ : bool) (w : world) :
  _connections w !! t = Some c ->
  SQLiteDatabase.execute_query self t query_ params_ commit_ w
    = try_except
        (if all_tuples (collect_params params_)
         then cursor_executemany self query_ (collect_params params_)
         else cursor_execute self query_ (collect_params params_))
        wrap_engine_error w.
Proof.
  intros Hc.
  unfold SQLiteDatabase.execute_query, bind at 1, connection, gets.
  rewrite Hc. unfold try_except. rewrite bind_commit_ret. reflexivity.
Qed.

Lemma execute_select_password (self : Database) (t : Z) (c : conn)
    (username : string) (w : world) :
  _connections w !! t = Some c ->
  SQLiteDatabase.execute_query self t q_select_password [PStr username] true w
    = (Return (map row1 (select_password username (disk w))), w).
Proof.
  intros Hc. rewrite (execute_query_cached self t c _ _ _ w Hc).
  unfold try_except. simpl. unfold cursor_execute, lift_engine. simpl.
  rewrite set_disk_same. reflexivity.
Qed.

Lemma execute_select_token (self : Database) (t : Z) (c : conn)
    (auth_token : string) (w : world) :
  _connections w !! t = Some c ->
  SQLiteDatabase.execute_query self t q_select_token [PStr auth_token] true w
    = (Return (map row3 (select_token auth_token (disk w))), w).
Proof.
  intros Hc. rewrite (execute_query_cached self t c _ _ _ w Hc).
  unfold try_except. simpl. unfold cursor_execute, lift_engine. simpl.
  rewrite set_disk_same. reflexivity.
Qed.

Lemma execute_delete_token (self : Database) (t : Z) (c : conn)
    (auth_token : string) (w : world) :
  _connections w !! t = Some c ->
  SQLiteDatabase.execute_query self t q_delete_token [PStr auth_token] true w
    = (Return [], set_disk (delete_token auth_token (disk w)) w).
Proof.
  intros Hc. rewrite (execute_query_cached self t c _ _ _ w Hc).
  unfold try_except. simpl. unfold cursor_execute, lift_engine. simpl.
  reflexivity.
Qed.

Lemma execute_insert_user (self : Database) (t : Z) (c : conn)
    (user_id username hashed_pass : string) (w : world) :
  _connections w !! t = Some c ->
  SQLiteDatabase.execute_query self t q_insert_user
      [PStr user_id; PStr username; PStr hashed_pass] true w
    = match insert_user IntegrityError
              (mkUser user_id username hashed_pass) (disk w) with
      | Return s' => (Return [], set_disk s' w)
      | Raise e => (Raise (normalized e), w)
      end.
Proof.
  intros Hc. rewrite (execute_query_cached self t c _ _ _ w Hc).
  change (collect_params [PStr user_id; PStr username; PStr hashed_pass])
    with [PStr user_id; PStr username; PStr hashed_pass].
  change (all_tuples [PStr user_id; PStr username; PStr hashed_pass]) with false.
  unfold try_except, cursor_execute, lift_engine.
  rewrite sqlite_execute_insert_user.
  destruct (insert_user IntegrityError _ (disk w)) as [s'|e]; [reflexivity|].
  apply wrap_engine_error_normalized.
Qed.

(** ** The user and token operations, method by method *)

Lemma with_session {A} (self : Database) (t : Z) (w : world)
    (body : conn -> M A) :
  can_connect self t w ->
  exists w1 c,
    SQLAlchemyDatabase.__enter__ self t w = (Return c, w1) /\
    disk w1 = disk w /\
    forall (r : outcome A) (s : store),
      body c w1 = (r, set_disk s w1) ->
      exists w3,
        with_ (SQLAlchemyDatabase.__enter__ self t) (exit_scope t) body w
          = (r, w3) /\
        disk w3 = s.
Proof.
  intros Hcan.
  destruct (enter_scope_ok self t w Hcan) as (w1 & c & He & Hc & Hd).
  assert (Hs : SQLAlchemyDatabase.__enter__ self t w = (Return c, w1)).
  { unfold SQLAlchemyDatabase.__enter__, bind. rewrite He.
    unfold getitem_connections. rewrite Hc. reflexivity. }
  exists w1, c. repeat split; try assumption.
  intros r s Hb.
  destruct (exit_scope_ok t (set_disk s w1) c Hc) as (w3 & Hx & Hd3).
  exists w3. split; [|exact Hd3].
  unfold with_. rewrite Hs, Hb, Hx. reflexivity.
Qed.

(** Opens the scope of the goal [exists w3, with_ ... w = (r, w3) /\ _]:
    what is left is the body, run in the world [w1] after the entry. *)
Ltac in_scope Hcan :=
  unfold SQLiteDatabase.__enter__, SQLiteDatabase.__exit__,
    SQLAlchemyDatabase.__exit__;
  match goal with
  | |- exists w3, with_ (enter_scope ?self ?t) (exit_scope ?t) ?body ?w = _ /\ _ =>
      let w1 := fresh "w1" in
      let c := fresh "c" in
      let He := fresh "He" in
      let Hc := fresh "Hc" in
      let Hd := fresh "Hd" in
      let Hbody := fresh "Hbody" in
      destruct (with_scope self t w body Hcan) as (w1 & c & He & Hc & Hd & Hbody);
      apply Hbody; clear Hbody
  | |- exists w3, with_ (SQLAlchemyDatabase.__enter__ ?self ?t) (exit_scope ?t)
                        ?body ?w = _ /\ _ =>
      let w1 := fresh "w1" in
      let c := fresh "c" in
      let He := fresh "He" in
      let Hd := fresh "Hd" in
      let Hbody := fresh "Hbody" in
      destruct (with_session self t w body Hcan) as (w1 & c & He & Hd & Hbody);
      apply Hbody; clear Hbody
  end.

Lemma raw_password_matches (self : Database) (t : Z) (w : world)
    (username password_ : string) :
  can_connect self t w ->
  exists w3,
    SQLiteDatabase.password_matches self t username password_ w
      = (Return (match head (select_password username (disk w)) with
                 | None => false
                 | Some stored => String.eqb stored password_
                 end), w3) /\
    disk w3 = disk w.
Proof.
  intros Hcan. unfold SQLiteDatabase.password_matches. in_scope Hcan.
  unfold bind at 1. rewrite (execute_select_password self t c username w1 Hc).
  rewrite <- Hd, set_disk_same.
  destruct (select_password username (disk w1)) as [|stored rest]; reflexivity.
Qed.

Lemma mapped_password_matches (self : Database) (t : Z) (w : world)
    (username password_ : string) :
  can_connect self t w ->
  exists w3,
    SQLAlchemyDatabase.password_matches self t username password_ w
      = (Return (match select_password username (disk w) with
                 | [stored] => String.eqb stored password_
                 | _ => false
                 end), w3) /\
    disk w3 = disk w.
Proof.
  intros Hcan. unfold SQLAlchemyDatabase.password_matches. in_scope Hcan.
  unfold bind, gets. rewrite <- Hd, set_disk_same.
  destruct (select_password username (disk w1)) as [|stored [|? ?]]; reflexivity.
Qed.

Lemma raw_get_user_id_from_token (self : Database) (t : Z) (w : world)
    (now : Q) (auth_token : string) :
  can_connect self t w ->
  exists w3,
    SQLiteDatabase.get_user_id_from_token self t now auth_token w
      = (Return (match token_lookup (disk w) now auth_token with
                 | TokenValid h n e => PTuple [PStr h; PStr n; PInt e]
                 | _ => PNone
                 end), w3) /\
    disk w3 = match token_lookup (disk w) now auth_token with
              | TokenExpired => delete_token auth_token (disk w)
              | _ => disk w
              end.
Proof.
  intros Hcan. unfold SQLiteDatabase.get_user_id_from_token. in_scope Hcan.
  unfold bind at 1. rewrite (execute_select_token self t c auth_token w1 Hc).
  unfold token_lookup. rewrite <- Hd.
  destruct (select_token auth_token (disk w1)) as [|[[h n] e] rest]; simpl.
  - rewrite set_disk_same. reflexivity.
  - unfold bind, lift; simpl. destruct (int_lt_float e now).
    + rewrite (execute_delete_token self t c auth_token w1 Hc). reflexivity.
    + rewrite set_disk_same. reflexivity.
Qed.

Lemma mapped_get_user_id_from_token (self : Database) (t : Z) (w : world)
    (now : Q) (auth_token : string) :
  can_connect self t w ->
  exists w3,
    SQLAlchemyDatabase.get_user_id_from_token self t now auth_token w
      = (Return (match token_lookup (disk w) now auth_token with
                 | TokenValid h n e => PTuple [PStr h; PStr n]
                 | _ => PNone
                 end), w3) /\
    disk w3 = match token_lookup (disk w) now auth_token with
              | TokenExpired => delete_token auth_token (disk w)
              | _ => disk w
              end.
Proof.
  intros Hcan. unfold SQLAlchemyDatabase.get_user_id_from_token. in_scope Hcan.
  unfold bind at 1, gets. unfold token_lookup. rewrite <- Hd.
  destruct (select_token auth_token (disk w1)) as [|[[h n] e] rest]; simpl.
  - rewrite set_disk_same. reflexivity.
  - unfold bind, lift, modify; simpl. destruct (int_lt_float e now); simpl.
    + reflexivity.
    + rewrite set_disk_same. reflexivity.
Qed.

(** ** Token lookup *)

(** The rows of the join are the pairs of a stored token and its holder. *)
Lemma select_token_In (s : store) (auth_token h n : string) (e : Z) :
  In (h, n, e) (select_token auth_token s) <->
  exists a u, In a (auth_tokens s) /\ In u (users s) /\
              token a = auth_token /\ id u = holder_id a /\
              h = holder_id a /\ n = name u /\ e = expires a.
Proof.
  unfold select_token. rewrite in_flat_map. split.
  - intros (a & Ha & Hin). apply filter_In in Ha as [Ha Htok].
    apply in_map_iff in Hin as (u & Heq & Hu).
    apply filter_In in Hu as [Hu Hid].
    apply String.eqb_eq in Htok, Hid. injection Heq as <- <- <-.
    exists a, u. repeat split; assumption.
  - intros (a & u & Ha & Hu & Htok & Hid & -> & -> & ->).
    exists a. split.
    + apply filter_In. split; [assumption|]. apply String.eqb_eq. assumption.
    + apply in_map_iff. exists u. split; [reflexivity|].
      apply filter_In. split; [assumption|]. apply String.eqb_eq. assumption.
Qed.

Lemma delete_token_spec (s : store) (auth_token : string) :
  users (delete_token auth_token s) = users s /\
  forall a, In a (auth_tokens (delete_token auth_token s)) <->
            In a (auth_tokens s) /\ token a <> auth_token.
Proof.
  split; [reflexivity|]. intros a. unfold delete_token; simpl.
  rewrite filter_In, negb_true_iff. split; intros [Ha Hne]; split; try assumption.
  - intros Heq. apply String.eqb_eq in Heq. congruence.
  - destruct (String.eqb (token a) auth_token) eqn:E; [|reflexivity].
    apply String.eqb_eq in E. contradiction.
Qed.

(** C5, on the code.  For every store, with [rows] the join for the token:
    when there is no row, both classes return [None] and leave the store as
    it is; when the first row has [expires < now], both return [None] and
    the store loses exactly the [auth_tokens] rows of that token; when the
    first row has [expires >= now], the store is left as it is,
    [SQLAlchemyDatabase] returns the pair (holder, name) and [SQLiteDatabase]
    returns the row itself, the triple (holder, name, expires). *)
Theorem token_lookup_outcomes (self : Database) (t : Z) (w : world)
    (now : Q) (auth_token : string) :
  can_connect self t w ->
  let raw := SQLiteDatabase.get_user_id_from_token self t now auth_token w in
  let mapped := SQLAlchemyDatabase.get_user_id_from_token self t now auth_token w in
  (select_token auth_token (disk w) = [] ->
     fst raw = Return PNone /\ fst mapped = Return PNone /\
     disk (snd raw) = disk w /\ disk (snd mapped) = disk w) /\
  (forall h n e rest,
     select_token auth_token (disk w) = (h, n, e) :: rest ->
     (inject_Z e < now)%Q ->
     fst raw = Return PNone /\ fst mapped = Return PNone /\
     disk (snd raw) = delete_token auth_token (disk w) /\
     disk (snd mapped) = delete_token auth_token (disk w) /\
     users (disk (snd raw)) = users (disk w) /\
     forall a, In a (auth_tokens (disk (snd raw))) <->
               In a (auth_tokens (disk w)) /\ token a <> auth_token) /\
  (forall h n e rest,
     select_token auth_token (disk w) = (h, n, e) :: rest ->
     (now <= inject_Z e)%Q ->
     fst mapped = Return (PTuple [PStr h; PStr n]) /\
     fst raw = Return (PTuple [PStr h; PStr n; PInt e]) /\
     disk (snd raw) = disk w /\ disk (snd mapped) = disk w).
Proof.
  intros Hcan raw mapped.
  destruct (raw_get_user_id_from_token self t w now auth_token Hcan)
    as (wr & Hr & Hdr).
  destruct (mapped_get_user_id_from_token self t w now auth_token Hcan)
    as (wm & Hm & Hdm).
  subst raw mapped. rewrite Hr, Hm. simpl. clear Hr Hm.
  unfold token_lookup in *.
  split; [|split].
  - intros Hrows. rewrite Hrows in *. simpl in *. auto.
  - intros h n e rest Hrows Hlt. rewrite Hrows in *. simpl in *.
    apply int_lt_float_spec in Hlt. rewrite Hlt in *.
    rewrite Hdr, Hdm. do 4 (split; [reflexivity|]).
    apply delete_token_spec.
  - intros h n e rest Hrows Hle. rewrite Hrows in *. simpl in *.
    assert (Hnlt : int_lt_float e now = false).
    { destruct (int_lt_float e now) eqn:E; [|reflexivity].
      apply int_lt_float_spec in E. exfalso. apply (Qlt_not_le _ _ E Hle). }
    rewrite Hnlt in *. auto.
Qed.

Lemma token_lookup_outcomes_witness :
  fst (SQLAlchemyDatabase.get_user_id_from_token quiet_db 7 (50 # 1) "tok1" world1)
    = Return (PTuple [PStr "id1"; PStr "alice"]) /\
  fst (SQLiteDatabase.get_user_id_from_token quiet_db 7 (50 # 1) "tok1" world1)
    = Return (PTuple [PStr "id1"; PStr "alice"; PInt 100]).
Proof.
  destruct (token_lookup_outcomes quiet_db 7 world1 (50 # 1) "tok1")
    as (_ & _ & Hvalid); [right; reflexivity|].
  destruct (Hvalid "id1" "alice" 100 []) as (Hm & Hr & _);
    [reflexivity | discriminate |].
  split; assumption.
Defined.

(** C3, on the code.  With alice holding the token ["tok1"] that expires at
    100, a lookup at time 50 returns the pair (holder, name) from
    [SQLAlchemyDatabase] and the whole row (holder, name, expires) from
    [SQLiteDatabase]: the two classes do not return the same value for a
    valid token. *)
Theorem token_lookup_backends_differ :
  fst (SQLiteDatabase.get_user_id_from_token quiet_db 7 (50 # 1) "tok1" world1)
    = Return (PTuple [PStr "id1"; PStr "alice"; PInt 100]) /\
  fst (SQLAlchemyDatabase.get_user_id_from_token quiet_db 7 (50 # 1) "tok1" world1)
    = Return (PTuple [PStr "id1"; PStr "alice"]) /\
  fst (SQLiteDatabase.get_user_id_from_token quiet_db 7 (50 # 1) "tok1" world1)
    <> fst (SQLAlchemyDatabase.get_user_id_from_token quiet_db 7 (50 # 1) "tok1" world1).
Proof.
  assert (Hr : fst (SQLiteDatabase.get_user_id_from_token quiet_db 7 (50 # 1) "tok1" world1)
               = Return (PTuple [PStr "id1"; PStr "alice"; PInt 100]))
    by (vm_compute; reflexivity).
  assert (Hm : fst (SQLAlchemyDatabase.get_user_id_from_token quiet_db 7 (50 # 1) "tok1" world1)
               = Return (PTuple [PStr "id1"; PStr "alice"]))
    by (vm_compute; reflexivity).
  split; [exact Hr|]. split; [exact Hm|].
  rewrite Hr, Hm. discriminate.
Qed.

(** ** Password check *)

Lemma filter_name_unique (us : list User) (username : string) :
  List.NoDup (map name us) ->
  List.filter (fun u => String.eqb (name u) username) us = [] \/
  exists u, In u us /\ name u = username /\
            List.filter (fun u => String.eqb (name u) username) us = [u].
Proof.
  induction us as [|u us IH]; intros Hnd; simpl; [left; reflexivity|].
  simpl in Hnd. apply List.NoDup_cons_iff in Hnd as [Hnotin Hnd].
  destruct (String.eqb (name u) username) eqn:E.
  - right. apply String.eqb_eq in E. exists u. repeat split; auto.
    destruct (IH Hnd) as [Hnil|(u' & Hin & Hname & _)].
    + rewrite Hnil. reflexivity.
    + exfalso. apply Hnotin. rewrite E, <- Hname. apply in_map. assumption.
  - destruct (IH Hnd) as [Hnil|(u' & Hin & Hname & Hf)].
    + left. assumption.
    + right. exists u'. repeat split; auto.
Qed.

Lemma valid_credentials_spec (s : store) (username password_ : string) :
  valid_credentials s username password_ = true <->
  exists u, In u (users s) /\ name u = username /\ password u = password_.
Proof.
  unfold valid_credentials. rewrite existsb_exists.
  split; intros (u & Hin & H); exists u; split; try assumption.
  - apply andb_true_iff in H as [H1 H2].
    apply String.eqb_eq in H1, H2. auto.
  - destruct H as [H1 H2]. apply andb_true_iff.
    split; apply String.eqb_eq; assumption.
Qed.

(** With names unique, the first row and the one row are the same check. *)
Lemma password_check_unique (s : store) (username password_ : string) :
  List.NoDup (map name (users s)) ->
  match head (select_password username s) with
  | None => false
  | Some stored => String.eqb stored password_
  end = valid_credentials s username password_ /\
  match select_password username s with
  | [stored] => String.eqb stored password_
  | _ => false
  end = valid_credentials s username password_.
Proof.
  intros Hnd. unfold select_password.
  assert (Hmem : forall u, In u (users s) -> name u = username ->
            In u (List.filter (fun u => String.eqb (name u) username) (users s))).
  { intros u Hin Hname. apply filter_In. split; [assumption|].
    apply String.eqb_eq. assumption. }
  destruct (filter_name_unique (users s) username Hnd)
    as [Hnil|(u & Hin & Hname & Hone)].
  - rewrite Hnil in *. simpl.
    assert (Hv : valid_credentials s username password_ = false).
    { destruct (valid_credentials s username password_) eqn:E; [|reflexivity].
      apply valid_credentials_spec in E as (u & Hin & Hname & _).
      destruct (Hmem u Hin Hname). }
    rewrite Hv. auto.
  - rewrite Hone in *. simpl.
    assert (Hv : String.eqb (password u) password_
                 = valid_credentials s username password_).
    { apply eq_true_iff_eq. rewrite valid_credentials_spec, String.eqb_eq.
      split.
      - intros Hp. exists u. auto.
      - intros (u' & Hin' & Hname' & Hp').
        destruct (Hmem u' Hin' Hname') as [->|[]]. assumption. }
    rewrite Hv. auto.
Qed.

(** C8.  With user names unique in the store, [password_matches] of both
    classes returns [True] exactly when a user of that name is stored with
    that very hash, and [False] otherwise, leaving the store as it is: it
    returns [False] when no user has the name and [False] when the stored
    hash differs.  Two failing calls, whatever their store, name and hash,
    return the same value. *)
Theorem password_matches_non_disclosure (self : Database) (t : Z)
    (w w' : world) (username password_ username' password_' : string) :
  can_connect self t w ->
  can_connect self t w' ->
  List.NoDup (map name (users (disk w))) ->
  List.NoDup (map name (users (disk w'))) ->
  let raw := SQLiteDatabase.password_matches self t username password_ w in
  let mapped := SQLAlchemyDatabase.password_matches self t username password_ w in
  let raw' := SQLiteDatabase.password_matches self t username' password_' w' in
  let mapped' := SQLAlchemyDatabase.password_matches self t username' password_' w' in
  fst raw = Return (valid_credentials (disk w) username password_) /\
  fst mapped = Return (valid_credentials (disk w) username password_) /\
  disk (snd raw) = disk w /\
  disk (snd mapped) = disk w /\
  ((forall u, In u (users (disk w)) -> name u <> username) ->
     fst raw = Return false /\ fst mapped = Return false) /\
  (forall u, In u (users (disk w)) -> name u = username ->
             password u <> password_ ->
     fst raw = Return false /\ fst mapped = Return false) /\
  (fst raw = Return true <->
     exists u, In u (users (disk w)) /\ name u = username /\
               password u = password_) /\
  (valid_credentials (disk w) username password_ = false ->
   valid_credentials (disk w') username' password_' = false ->
     fst raw = fst raw' /\ fst mapped = fst mapped').
Proof.
  intros Hcan Hcan' Hnd Hnd' raw mapped raw' mapped'.
  destruct (raw_password_matches self t w username password_ Hcan)
    as (wr & Hr & Hdr).
  destruct (mapped_password_matches self t w username password_ Hcan)
    as (wm & Hm & Hdm).
  destruct (raw_password_matches self t w' username' password_' Hcan')
    as (wr' & Hr' & _).
  destruct (mapped_password_matches self t w' username' password_' Hcan')
    as (wm' & Hm' & _).
  destruct (password_check_unique (disk w) username password_ Hnd) as [H1 H2].
  destruct (password_check_unique (disk w') username' password_' Hnd')
    as [H1' H2'].
  rewrite H1 in Hr. rewrite H2 in Hm. rewrite H1' in Hr'. rewrite H2' in Hm'.
  subst raw mapped raw' mapped'. rewrite Hr, Hm, Hr', Hm'. simpl.
  clear Hr Hm Hr' Hm' H1 H2 H1' H2'.
  assert (Hfalse : forall b : bool, b <> true -> @Return bool b = Return false)
    by (intros [] Hb; congruence).
  split; [reflexivity|]. split; [reflexivity|].
  split; [assumption|]. split; [assumption|].
  split; [|split; [|split]].
  - intros Hno.
    assert (Hv : valid_credentials (disk w) username password_ <> true).
    { intros Hv. apply valid_credentials_spec in Hv as (u & Hin & Hname & _).
      exact (Hno u Hin Hname). }
    split; apply Hfalse; assumption.
  - intros u Hin Hname Hdiff.
    assert (Hv : valid_credentials (disk w) username password_ <> true).
    { intros Hv. apply valid_credentials_spec in Hv as (u' & Hin' & Hname' & Hp').
      destruct (filter_name_unique (users (disk w)) username Hnd)
        as [Hnil|(u0 & _ & _ & Hone)].
      - assert (Hmem : In u (List.filter (fun u => String.eqb (name u) username)
                                         (users (disk w))))
          by (apply filter_In; split; [assumption | apply String.eqb_eq; assumption]).
        rewrite Hnil in Hmem. destruct Hmem.
      - assert (Hmem : In u (List.filter (fun u => String.eqb (name u) username)
                                         (users (disk w))))
          by (apply filter_In; split; [assumption | apply String.eqb_eq; assumption]).
        assert (Hmem' : In u' (List.filter (fun u => String.eqb (name u) username)
                                           (users (disk w))))
          by (apply filter_In; split; [assumption | apply String.eqb_eq; assumption]).
        rewrite Hone in Hmem, Hmem'.
        destruct Hmem as [<-|[]]. destruct Hmem' as [<-|[]]. contradiction. }
    split; apply Hfalse; assumption.
  - rewrite <- valid_credentials_spec. split; [intros [= ->]; reflexivity|].
    intros ->. reflexivity.
  - intros -> ->. split; reflexivity.
Qed.

Lemma password_matches_non_disclosure_witness :
  fst (SQLiteDatabase.password_matches quiet_db 7 "nonexistent" "anything" world1)
    = Return false /\
  fst (SQLiteDatabase.password_matches quiet_db 7 "alice" "wrong" world1)
    = Return false /\
  fst (SQLAlchemyDatabase.password_matches quiet_db 7 "nonexistent" "anything" world1)
    = Return false /\
  fst (SQLAlchemyDatabase.password_matches quiet_db 7 "alice" "wrong" world1)
    = Return false.
Proof.
  assert (Hnd : List.NoDup (map name (users (disk world1)))).
  { simpl. apply List.NoDup_cons; [intros [] | apply List.NoDup_nil]. }
  destruct (password_matches_non_disclosure quiet_db 7 world1 world1
              "nonexistent" "anything" "alice" "wrong")
    as (Hr & Hm & _ & _ & _ & _ & _ & Hsame);
    [right; reflexivity | right; reflexivity | exact Hnd | exact Hnd |].
  destruct (Hsame eq_refl eq_refl) as [Hrr Hmm].
  rewrite <- Hrr, <- Hmm. repeat split; assumption.
Defined.

(** ** Creating a user *)

Lemma insert_user_cases (cls : exn_class) (u : User) (s : store) :
  (id_taken s (id u) = false /\ name_taken s (name u) = false /\
   insert_user cls u s = Return (mkStore (users s ++ [u]) (auth_tokens s))) \/
  ((id_taken s (id u) = true \/ name_taken s (name u) = true) /\
   exists args, insert_user cls u s = Raise (mkExn cls args)).
Proof.
  unfold insert_user.
  destruct (id_taken s (id u)); [right; eauto|].
  destruct (name_taken s (name u)); [right; eauto|].
  left. auto.
Qed.

Lemma normalized_integrity (args : list pyval) :
  normalized (mkExn IntegrityError args) = DBException_new [PTuple args].
Proof. reflexivity. Qed.

(** [SQLiteDatabase.create_user] once the scope can be entered. *)
Lemma raw_create_user (self : Database) (t : Z) (w : world)
    (user_id username hashed_pass : string) :
  can_connect self t w ->
  exists w3,
    SQLiteDatabase.create_user self t user_id username hashed_pass w
      = (Return (match insert_user IntegrityError
                         (mkUser user_id username hashed_pass) (disk w) with
                 | Return _ => true
                 | Raise _ => false
                 end), w3) /\
    disk w3 = match insert_user IntegrityError
                      (mkUser user_id username hashed_pass) (disk w) with
              | Return s' => s'
              | Raise _ => disk w
              end.
Proof.
  intros Hcan. unfold SQLiteDatabase.create_user.
  unfold SQLiteDatabase.__enter__, SQLiteDatabase.__exit__.
  destruct (with_scope self t w
              (fun _ : unit =>
                 run SQLiteDatabase.execute_query self t q_insert_user
                       [PStr user_id; PStr username; PStr hashed_pass] true;
                 ret tt) Hcan)
    as (w1 & c & He & Hc & Hd & Hbody).
  pose proof (execute_insert_user self t c user_id username hashed_pass w1 Hc)
    as Hex.
  rewrite Hd in Hex.
  destruct (insert_user_cases IntegrityError
              (mkUser user_id username hashed_pass) (disk w))
    as [(_ & _ & Hins)|(_ & args & Hins)]; rewrite Hins in *.
  - destruct (Hbody (Return tt) _
                (ltac:(unfold bind; rewrite Hex; reflexivity)))
      as (w3 & Hw & Hd3).
    exists w3. split; [|exact Hd3].
    unfold try_except. unfold bind at 1. rewrite Hw. reflexivity.
  - rewrite normalized_integrity in Hex.
    destruct (Hbody (Raise (DBException_new [PTuple args])) (disk w)
                (ltac:(unfold bind; rewrite Hex, <- Hd, set_disk_same; reflexivity)))
      as (w3 & Hw & Hd3).
    exists w3. split; [|exact Hd3].
    unfold try_except. unfold bind at 1. rewrite Hw. reflexivity.
Qed.

(** [SQLiteDatabase.create_user] when the scope cannot be entered. *)
Lemma raw_create_user_no_connection (self : Database) (t : Z) (w : world)
    (user_id username hashed_pass : string) (e : exn) :
  _connections w !! t = None ->
  connect_outcome self (attempts w) = Some e ->
  exists w3,
    SQLiteDatabase.create_user self t user_id username hashed_pass w
      = (if isinstance e DatabaseError then Return false else Raise e, w3) /\
    disk w3 = disk w.
Proof.
  intros Hc Hp. unfold SQLiteDatabase.create_user.
  unfold SQLiteDatabase.__enter__, SQLiteDatabase.__exit__.
  unfold try_except, bind, with_.
  rewrite (enter_scope_open_fails self t w e Hc Hp).
  destruct (isinstance e DatabaseError); eexists; split; reflexivity.
Qed.

(** [SQLAlchemyDatabase.create_user] when the insert goes through. *)
Lemma mapped_create_user_inserted (self : Database) (t : Z) (w : world)
    (user_id username hashed_pass : string) (s' : store) :
  can_connect self t w ->
  insert_user SAIntegrityError (mkUser user_id username hashed_pass) (disk w)
    = Return s' ->
  exists w3,
    SQLAlchemyDatabase.create_user self t user_id username hashed_pass w
      = (Return true, w3) /\
    disk w3 = s'.
Proof.
  intros Hcan Hins. unfold SQLAlchemyDatabase.create_user.
  unfold SQLAlchemyDatabase.__exit__.
  destruct (with_session self t w
              (fun session =>
                 SQLAlchemyDatabase.session_add_user session
                   (mkUser user_id username hashed_pass)) Hcan)
    as (w1 & c & He & Hd & Hbody).
  destruct (Hbody (Return tt) s') as (w3 & Hw & Hd3).
  { unfold SQLAlchemyDatabase.session_add_user. rewrite Hd, Hins. reflexivity. }
  exists w3. split; [|exact Hd3].
  unfold try_except, bind. rewrite Hw. reflexivity.
Qed.

(** What the [except DatabaseError] clause of the mapped class meets when the
    name or the id is taken: the session's own [IntegrityError], which is no
    [sqlite3.DatabaseError], so the clause lets it through. *)
Lemma mapped_create_user_taken (self : Database) (t : Z) (w : world)
    (user_id username hashed_pass : string) :
  can_connect self t w ->
  id_taken (disk w) user_id = true \/ name_taken (disk w) username = true ->
  exists args w3,
    SQLAlchemyDatabase.create_user self t user_id username hashed_pass w
      = (Raise (mkExn SAIntegrityError args), w3) /\
    disk w3 = disk w.
Proof.
  intros Hcan Htaken. unfold SQLAlchemyDatabase.create_user.
  unfold SQLAlchemyDatabase.__exit__.
  destruct (with_session self t w
              (fun session =>
                 SQLAlchemyDatabase.session_add_user session
                   (mkUser user_id username hashed_pass)) Hcan)
    as (w1 & c & He & Hd & Hbody).
  destruct (insert_user_cases SAIntegrityError
              (mkUser user_id username hashed_pass) (disk w))
    as [(Hi & Hn & _)|(_ & args & Hins)].
  { simpl in Hi, Hn. destruct Htaken; congruence. }
  destruct (Hbody (Raise (mkExn SAIntegrityError args)) (disk w))
    as (w3 & Hw & Hd3).
  { unfold SQLAlchemyDatabase.session_add_user. rewrite Hd, Hins.
    rewrite <- Hd, set_disk_same. reflexivity. }
  exists args, w3. split; [|exact Hd3].
  unfold try_except, bind. rewrite Hw. reflexivity.
Qed.

(** [SQLAlchemyDatabase.create_user] when the scope cannot be entered. *)
Lemma mapped_create_user_no_connection (self : Database) (t : Z) (w : world)
    (user_id username hashed_pass : string) (e : exn) :
  _connections w !! t = None ->
  connect_outcome self (attempts w) = Some e ->
  exists w3,
    SQLAlchemyDatabase.create_user self t user_id username hashed_pass w
      = (if isinstance e DatabaseError then Return false else Raise e, w3) /\
    disk w3 = disk w.
Proof.
  intros Hc Hp. unfold SQLAlchemyDatabase.create_user.
  unfold SQLAlchemyDatabase.__enter__, SQLAlchemyDatabase.__exit__.
  unfold try_except, bind, with_.
  rewrite (enter_scope_open_fails self t w e Hc Hp).
  destruct (isinstance e DatabaseError); eexists; split; reflexivity.
Qed.

(** C4 at the inputs where the code leaves the claim.  With alice stored
    under the id ["id1"]: creating a second alice makes [SQLiteDatabase]
    return [False] and makes [SQLAlchemyDatabase] raise the session's
    [IntegrityError]; creating bob under the id of alice returns [False]
    although no user is named bob; creating bob under a fresh id returns
    [False] as well when the provider cannot open the file. *)
Lemma create_user_false_without_name_clash :
  name_taken store1 "alice" = true /\
  fst (SQLiteDatabase.create_user quiet_db 7 "id2" "alice" "h2" world1)
    = Return false /\
  fst (SQLAlchemyDatabase.create_user quiet_db 7 "id2" "alice" "h2" world1)
    = Raise (mkExn SAIntegrityError
               [PStr "(sqlite3.IntegrityError) UNIQUE constraint failed: users.name"]) /\
  name_taken store1 "bob" = false /\
  id_taken store1 "id2" = false /\
  fst (SQLiteDatabase.create_user quiet_db 7 "id1" "bob" "h2" world1)
    = Return false /\
  fst (SQLiteDatabase.create_user refusing_db 7 "id2" "bob" "h2" world1)
    = Return false.
Proof. repeat split; vm_compute; reflexivity. Qed.

(** C4, on the code.  [create_user] of both classes returns [True] when
    the insertion succeeds, and the row is then stored.  When the id or the
    name is taken, the store stays as it is; [SQLiteDatabase] returns
    [False], for the id as for the name, and [SQLAlchemyDatabase] raises the
    session's [IntegrityError], which its [except] clause, naming the
    [DatabaseError] of [sqlite3], does not catch.  When the provider fails,
    both classes return [False] for an instance of [sqlite3.DatabaseError]
    and raise any other error unchanged. *)
Theorem create_user_outcomes (self : Database) (t : Z) (w : world)
    (user_id username hashed_pass : string) :
  let raw := SQLiteDatabase.create_user self t user_id username hashed_pass w in
  let mapped := SQLAlchemyDatabase.create_user self t user_id username hashed_pass w in
  let inserted := mkStore (users (disk w) ++ [mkUser user_id username hashed_pass])
                          (auth_tokens (disk w)) in
  (can_connect self t w ->
   id_taken (disk w) user_id = false ->
   name_taken (disk w) username = false ->
     fst raw = Return true /\ disk (snd raw) = inserted /\
     fst mapped = Return true /\ disk (snd mapped) = inserted) /\
  (can_connect self t w ->
   id_taken (disk w) user_id = true \/ name_taken (disk w) username = true ->
     fst raw = Return false /\ disk (snd raw) = disk w /\
     (exists args, fst mapped = Raise (mkExn SAIntegrityError args)) /\
     disk (snd mapped) = disk w) /\
  (forall e,
     _connections w !! t = None ->
     connect_outcome self (attempts w) = Some e ->
     fst raw = (if isinstance e DatabaseError then Return false else Raise e) /\
     disk (snd raw) = disk w /\
     fst mapped = (if isinstance e DatabaseError then Return false else Raise e) /\
     disk (snd mapped) = disk w).
Proof.
  intros raw mapped inserted. split; [|split].
  - intros Hcan Hid Hname.
    destruct (raw_create_user self t w user_id username hashed_pass Hcan)
      as (wr & Hr & Hdr).
    destruct (insert_user_cases IntegrityError
                (mkUser user_id username hashed_pass) (disk w))
      as [(_ & _ & Hins)|([Hi|Hn] & _)]; simpl in *; try congruence.
    rewrite Hins in Hr, Hdr.
    destruct (mapped_create_user_inserted self t w user_id username
                hashed_pass inserted Hcan) as (wm & Hm & Hdm).
    { unfold insert_user in *. simpl in *. rewrite Hid, Hname in *.
      reflexivity. }
    subst raw mapped. rewrite Hr, Hm. simpl. auto.
  - intros Hcan Htaken.
    destruct (raw_create_user self t w user_id username hashed_pass Hcan)
      as (wr & Hr & Hdr).
    destruct (mapped_create_user_taken self t w user_id username hashed_pass
                Hcan Htaken) as (margs & wm & Hm & Hdm).
    destruct (insert_user_cases IntegrityError
                (mkUser user_id username hashed_pass) (disk w))
      as [(Hi & Hn & _)|(_ & args & Hins)]; simpl in *.
    { destruct Htaken; congruence. }
    rewrite Hins in Hr, Hdr. subst raw mapped. rewrite Hr, Hm. simpl.
    split; [reflexivity|]. split; [exact Hdr|]. split; [eauto|exact Hdm].
  - intros e Hc Hp.
    destruct (raw_create_user_no_connection self t w user_id username
                hashed_pass e Hc Hp) as (wr & Hr & Hdr).
    destruct (mapped_create_user_no_connection self t w user_id username
                hashed_pass e Hc Hp) as (wm & Hm & Hdm).
    subst raw mapped. rewrite Hr, Hm. simpl. auto.
Qed.

Lemma create_user_outcomes_witness :
  fst (SQLiteDatabase.create_user quiet_db 7 "id2" "bob" "h2" world1) = Return true /\
  fst (SQLAlchemyDatabase.create_user quiet_db 7 "id2" "bob" "h2" world1) = Return true /\
  fst (SQLiteDatabase.create_user quiet_db 7 "id2" "alice" "h2" world1) = Return false /\
  (exists args,
     fst (SQLAlchemyDatabase.create_user quiet_db 7 "id2" "alice" "h2" world1)
       = Raise (mkExn SAIntegrityError args)) /\
  fst (SQLiteDatabase.create_user refusing_db 7 "id2" "bob" "h2" world1) = Return false.
Proof.
  destruct (create_user_outcomes quiet_db 7 world1 "id2" "bob" "h2")
    as (Hok & _ & _).
  destruct Hok as (Hr & _ & Hm & _);
    [right; reflexivity | reflexivity | reflexivity |].
  destruct (create_user_outcomes quiet_db 7 world1 "id2" "alice" "h2")
    as (_ & Htaken & _).
  destruct Htaken as (Hf & _ & Hraise & _);
    [right; reflexivity | right; reflexivity |].
  destruct (create_user_outcomes refusing_db 7 world1 "id2" "bob" "h2")
    as (_ & _ & Hfail).
  destruct (Hfail unable_to_open) as (Hp & _); [reflexivity | reflexivity |].
  repeat split; assumption.
Defined.

(** ** Threads: the statements of a method, run without interruption *)

(** A thread left alone goes through [__enter__] in at most five steps and
    ends where [enter_scope] ends. *)
Lemma steps_enter_scope (self : Database) (t : Z) (rest : list call)
    (w : world) :
  exists k, (k <= 5)%nat /\
    steps self t k (mkThread Idle (CallEnter :: rest)) w
      = (mkThread (match fst (enter_scope self t w) with
                   | Return _ => Idle
                   | Raise e => Crashed e
                   end) rest,
         snd (enter_scope self t w)).
Proof.
  destruct (_connections w !! t) as [c|] eqn:Hc.
  - exists 3%nat. split; [lia|].
    rewrite (enter_scope_cached self t w c Hc). simpl.
    unfold step at 1. simpl. rewrite Hc.
    rewrite bool_decide_eq_true_2 by eauto. reflexivity.
  - destruct (connect_outcome self (attempts w)) as [e|] eqn:Hp.
    + exists 4%nat. split; [lia|].
      rewrite (enter_scope_open_fails self t w e Hc Hp). simpl.
      unfold step at 1. simpl. rewrite Hc.
      rewrite bool_decide_eq_false_2 by (intros [? ?]; discriminate).
      unfold step, get_connection. simpl. rewrite Hp. reflexivity.
    + exists 5%nat. split; [lia|].
      rewrite (enter_scope_open self t w Hc Hp). simpl.
      unfold step at 1. simpl. rewrite Hc.
      rewrite bool_decide_eq_false_2 by (intros [? ?]; discriminate).
      unfold step, get_connection. simpl. rewrite Hp. reflexivity.
Qed.

(** And through [__exit__], ending where [exit_scope] ends. *)
Lemma steps_exit_scope (t : Z) (self : Database) (rest : list call)
    (w : world) :
  exists k, (k <= 5)%nat /\
    steps self t k (mkThread Idle (CallExit :: rest)) w
      = (mkThread (match fst (exit_scope t w) with
                   | Return _ => Idle
                   | Raise e => Crashed e
                   end) rest,
         snd (exit_scope t w)).
Proof.
  destruct (Z.eq_dec (default 1 (_nested_contexts w !! t) - 1) 0) as [Hz|Hnz].
  - destruct (_connections w !! t) as [c|] eqn:Hc.
    + exists 5%nat. split; [lia|].
      rewrite (exit_scope_last t w c) by (assumption || lia).
      remember (default 1 (_nested_contexts w !! t)) as d eqn:Hd.
      simpl. unfold step at 1. simpl. rewrite <- ?Hd; rewrite ?Hz. simpl.
      unfold bind, getitem_connections, close, modify. simpl. rewrite Hc.
      unfold step at 1. simpl. unfold del_connections. simpl. rewrite Hc.
      unfold step. simpl. unfold del_nested_contexts. simpl.
      rewrite lookup_insert_eq. unfold set_nested_contexts, set_connections.
      simpl. rewrite delete_insert_eq. reflexivity.
    + exists 3%nat. split; [lia|].
      unfold exit_scope, bind, gets, modify, getitem_connections.
      remember (default 1 (_nested_contexts w !! t)) as d eqn:Hd.
      simpl. rewrite <- ?Hd; rewrite ?Hz. simpl. rewrite Hc. simpl.
      unfold step at 1. simpl. rewrite <- ?Hd; rewrite ?Hz. simpl.
      unfold bind, getitem_connections. simpl. rewrite Hc. reflexivity.
  - exists 3%nat. split; [lia|].
    rewrite (exit_scope_inner t w Hnz).
    remember (default 1 (_nested_contexts w !! t)) as d eqn:Hd.
    apply Z.eqb_neq in Hnz.
    simpl. unfold step at 1. simpl. rewrite <- ?Hd; rewrite ?Hnz. reflexivity.
Qed.

(** ** Threads: what one step can touch *)

(** All the ways [step self s th w = (th', w')] can come about. *)
Ltac step_cases Hstep :=
  unfold step in Hstep;
  match type of Hstep with
  | context [at_ ?th] => destruct th as [? ?]
  end;
  match type of Hstep with
  | context [match at_ (mkThread ?p _) with _ => _ end] => destruct p
  end;
  simpl in Hstep;
  repeat match type of Hstep with
         | context [match ?x with _ => _ end] => destruct x eqn:?
         end;
  try (injection Hstep as <- <-);
  unfold get_connection, bind, getitem_connections, close, modify,
    del_connections, del_nested_contexts in *;
  repeat match goal with
         | H : context [match ?x with _ => _ end] |- _ => destruct x eqn:?
         end;
  simplify_eq; simpl in *.

(** A step of thread [s] leaves the entries of every other thread in both
    maps as they are, and the tables too; if it closes a connection, it is
    the one [s] has in the map; the provider's count never goes down. *)
Lemma step_frame (self : Database) (s : Z) (th : thread) (w : world)
    (th' : thread) (w' : world) :
  step self s th w = (th', w') ->
  (forall t, t <> s ->
     _nested_contexts w' !! t = _nested_contexts w !! t /\
     _connections w' !! t = _connections w !! t) /\
  disk w' = disk w /\
  (closed w' = closed w \/
   exists c, _connections w !! s = Some c /\ closed w' = c :: closed w) /\
  (attempts w <= attempts w')%nat.
Proof.
  intros Hstep. step_cases Hstep.
  all: try (split; [intros t Hne; split;
                    rewrite ?lookup_insert_ne, ?lookup_delete_ne by congruence;
                    reflexivity|]).
  all: try (split; [reflexivity|]).
  all: try (split; [|lia]).
  all: eauto.
Qed.

(** The entry of [s] itself after a step of [s]: the one it had, or the
    connection it had in hand. *)
Lemma step_own_connection (self : Database) (s : Z) (th : thread) (w : world)
    (th' : thread) (w' : world) (c : conn) :
  step self s th w = (th', w') ->
  _connections w' !! s = Some c ->
  _connections w !! s = Some c \/ at_ th = EnterOpened c.
Proof.
  intros Hstep Hc. step_cases Hstep; auto.
  all: rewrite ?lookup_insert_eq, ?lookup_delete_eq in Hc; simplify_eq; auto.
Qed.

(** A connection in hand after a step was opened by that very step. *)
Lemma step_opened (self : Database) (s : Z) (th : thread) (w : world)
    (th' : thread) (w' : world) (c : conn) :
  step self s th w = (th', w') ->
  at_ th' = EnterOpened c ->
  at_ th = EnterMissing /\ c = attempts w /\ attempts w' = S (attempts w) /\
  _connections w' = _connections w.
Proof.
  intros Hstep Hat. step_cases Hstep; try discriminate.
  injection Hat as <-. auto.
Qed.

(** The entry found missing is missing. *)
Lemma step_missing (self : Database) (s : Z) (th : thread) (w : world)
    (th' : thread) (w' : world) :
  step self s th w = (th', w') ->
  at_ th' = EnterMissing ->
  at_ th = EnterStored /\ _connections w !! s = None /\ w' = w.
Proof.
  intros Hstep Hat. step_cases Hstep; try discriminate.
  repeat split.
  match goal with
  | H : bool_decide (is_Some ?x) = false |- ?x = None =>
      apply bool_decide_eq_false in H;
      destruct x; [exfalso; eauto | reflexivity]
  end.
Qed.

(** ** Threads: the invariant of every schedule *)

Lemma holds_after_step (self : Database) (sys : system) (s : Z) (th th' : thread)
    (w' : world) (t : Z) (c : conn) :
  pool sys !! s = Some th ->
  step self s th (shared sys) = (th', w') ->
  holds (mkSystem (<[s := th']> (pool sys)) w') t c ->
  holds sys t c \/
  (t = s /\ c = attempts (shared sys) /\ attempts w' = S (attempts (shared sys))).
Proof.
  intros Hth Hstep [Hmap|(th'' & Hpool & Hat)]; simpl in *.
  - destruct (decide (t = s)) as [->|Hne].
    + destruct (step_own_connection _ _ _ _ _ _ _ Hstep Hmap) as [Hold|Hhand].
      * left. left. assumption.
      * left. right. eauto.
    + left. left.
      destruct (step_frame _ _ _ _ _ _ Hstep) as (Hframe & _).
      destruct (Hframe t Hne) as [_ <-]. assumption.
  - destruct (decide (t = s)) as [->|Hne].
    + rewrite lookup_insert_eq in Hpool. injection Hpool as <-.
      destruct (step_opened _ _ _ _ _ _ _ Hstep Hat) as (_ & Hc & Ha & _).
      right. auto.
    + rewrite lookup_insert_ne in Hpool by congruence.
      left. right. eauto.
Qed.

Lemma sched_step_inv (self : Database) (sys : system) (s : Z) :
  sys_inv sys -> sys_inv (sched_step self sys s).
Proof.
  intros [Hout Hown Hmiss]. unfold sched_step.
  destruct (pool sys !! s) as [th|] eqn:Hth; [|constructor; assumption].
  destruct (step self s th (shared sys)) as [th' w'] eqn:Hstep.
  destruct (step_frame _ _ _ _ _ _ Hstep) as (Hframe & _ & _ & Hmono).
  constructor; simpl.
  - intros t c Hh.
    destruct (holds_after_step _ _ _ _ _ _ _ _ Hth Hstep Hh)
      as [Hold|(_ & -> & ->)]; [|lia].
    specialize (Hout t c Hold). lia.
  - intros t t' c Hh Hh'.
    destruct (holds_after_step _ _ _ _ _ _ _ _ Hth Hstep Hh)
      as [Hold|(-> & -> & _)];
    destruct (holds_after_step _ _ _ _ _ _ _ _ Hth Hstep Hh')
      as [Hold'|(-> & Hc' & _)].
    + eapply Hown; eassumption.
    + subst c. specialize (Hout t _ Hold). lia.
    + specialize (Hout t' _ Hold'). lia.
    + reflexivity.
  - intros t th'' Hpool Hat.
    destruct (decide (t = s)) as [->|Hne].
    + rewrite lookup_insert_eq in Hpool. injection Hpool as <-.
      destruct Hat as [Hat|[c Hat]].
      * destruct (step_missing _ _ _ _ _ _ Hstep Hat) as (_ & Hnone & ->).
        assumption.
      * destruct (step_opened _ _ _ _ _ _ _ Hstep Hat) as (Hwas & _ & _ & ->).
        apply (Hmiss s th Hth). left. assumption.
    + rewrite lookup_insert_ne in Hpool by congruence.
      destruct (Hframe t Hne) as [_ ->].
      apply (Hmiss t th'' Hpool Hat).
Qed.

Lemma run_schedule_inv (self : Database) (schedule : list Z) (sys : system) :
  sys_inv sys -> sys_inv (run_schedule self schedule sys).
Proof.
  revert sys. induction schedule as [|s schedule IH]; intros sys Hinv; simpl.
  - assumption.
  - apply IH. apply sched_step_inv. assumption.
Qed.

(** ** Threads: entering under any schedule *)

Lemma step_opened_log (self : Database) (s : Z) (th : thread) (w : world)
    (th' : thread) (w' : world) (c : conn) :
  step self s th w = (th', w') -> In c (opened w) -> In c (opened w').
Proof.
  intros Hstep Hin. step_cases Hstep; auto.
Qed.

Lemma entered_own_step (self : Database) (t : Z) (k : nat) (th : thread)
    (w : world) (th' : thread) (w' : world) :
  (forall n, connect_outcome self n = None) ->
  entered_upto k t th w ->
  step self t th w = (th', w') ->
  entered_upto (S k) t th' w'.
Proof.
  intros Hp Hk Hstep.
  destruct k as [|[|[|[|[|k]]]]]; simpl in Hk.
  - destruct Hk as (-> & Hn & Hc). unfold step in Hstep. simpl in Hstep.
    rewrite Hn in Hstep. injection Hstep as <- <-. simpl. auto.
  - destruct Hk as (-> & Hn & Hc). unfold step in Hstep. simpl in Hstep.
    injection Hstep as <- <-. simpl. rewrite lookup_insert_eq. auto.
  - destruct Hk as (-> & Hn & Hc). unfold step in Hstep. simpl in Hstep.
    rewrite Hc in Hstep.
    rewrite bool_decide_eq_false_2 in Hstep by (intros [? ?]; discriminate).
    injection Hstep as <- <-. simpl. auto.
  - destruct Hk as (-> & Hn & Hc). unfold step, get_connection in Hstep.
    simpl in Hstep. rewrite Hp in Hstep. injection Hstep as <- <-.
    simpl. exists (attempts w). auto.
  - destruct Hk as (c & -> & Hn & Hc & Hin). unfold step in Hstep.
    simpl in Hstep. injection Hstep as <- <-. simpl.
    exists c. rewrite lookup_insert_eq. auto.
  - destruct Hk as (c & -> & Hn & Hc & Hin). unfold step in Hstep.
    simpl in Hstep. injection Hstep as <- <-. simpl. exists c. auto.
Qed.

Lemma entered_other_step (self : Database) (t s : Z) (k : nat)
    (th ths : thread) (w : world) (ths' : thread) (w' : world) :
  s <> t ->
  entered_upto k t th w ->
  step self s ths w = (ths', w') ->
  entered_upto k t th w'.
Proof.
  intros Hne Hk Hstep.
  destruct (step_frame _ _ _ _ _ _ Hstep) as (Hframe & _).
  destruct (Hframe t (not_eq_sym Hne)) as [Hn Hc].
  pose proof (fun c => step_opened_log _ _ _ _ _ _ c Hstep) as Hlog.
  destruct k as [|[|[|[|[|k]]]]]; simpl in *; rewrite ?Hn, ?Hc.
  1-4: assumption.
  - destruct Hk as (c & ? & ? & ? & ?). exists c. rewrite ?Hn, ?Hc. auto.
  - destruct Hk as (c & ? & ? & ? & ?). exists c. rewrite ?Hn, ?Hc. auto.
Qed.

Lemma run_schedule_entering (self : Database) (t : Z) (schedule : list Z) :
  (forall n, connect_outcome self n = None) ->
  forall (sys : system) (k : nat) (th : thread),
  pool sys !! t = Some th ->
  entered_upto k t th (shared sys) ->
  exists th',
    pool (run_schedule self schedule sys) !! t = Some th' /\
    entered_upto (k + count_occ Z.eq_dec schedule t) t th'
                 (shared (run_schedule self schedule sys)).
Proof.
  intros Hp. induction schedule as [|s schedule IH]; intros sys k th Hth Hk.
  - exists th. simpl. rewrite Nat.add_0_r. auto.
  - change (run_schedule self (s :: schedule) sys)
      with (run_schedule self schedule (sched_step self sys s)).
    destruct (Z.eq_dec s t) as [->|Hne].
    + rewrite count_occ_cons_eq by reflexivity.
      unfold sched_step. rewrite Hth.
      destruct (step self t th (shared sys)) as [th1 w1] eqn:Hstep.
      destruct (IH (mkSystem (<[t := th1]> (pool sys)) w1) (S k) th1)
        as (th' & Hpool & Hent).
      * simpl. apply lookup_insert_eq.
      * simpl. eapply entered_own_step; eassumption.
      * exists th'. split; [exact Hpool|].
        replace (k + S (count_occ Z.eq_dec schedule t))%nat
          with (S k + count_occ Z.eq_dec schedule t)%nat by lia.
        exact Hent.
    + rewrite count_occ_cons_neq by assumption.
      unfold sched_step.
      destruct (pool sys !! s) as [ths|] eqn:Hths.
      * destruct (step self s ths (shared sys)) as [ths1 w1] eqn:Hstep.
        apply (IH (mkSystem (<[s := ths1]> (pool sys)) w1) k th).
        -- simpl. rewrite lookup_insert_ne by assumption. exact Hth.
        -- simpl. eapply entered_other_step; eassumption.
      * apply (IH sys k th); assumption.
Qed.

(** ** Threads: two contexts at once *)

Lemma two_entering_inv : sys_inv two_entering.
Proof.
  assert (Hno : forall t c, ~ holds two_entering t c).
  { intros t c [Hmap|(th & Hpool & Hat)].
    - unfold two_entering in Hmap. simpl in Hmap.
      rewrite lookup_empty in Hmap. discriminate.
    - unfold two_entering in Hpool. simpl in Hpool.
      destruct (decide (t = 1)) as [->|H1].
      + rewrite lookup_insert_eq in Hpool. injection Hpool as <-. discriminate.
      + rewrite lookup_insert_ne in Hpool by congruence.
        destruct (decide (t = 2)) as [->|H2].
        * rewrite lookup_singleton_eq in Hpool. injection Hpool as <-.
          discriminate.
        * rewrite lookup_singleton_ne in Hpool by congruence. discriminate. }
  constructor.
  - intros t c Hh. destruct (Hno t c Hh).
  - intros t t' c Hh. destruct (Hno t c Hh).
  - intros t th Hpool Hat. reflexivity.
Qed.

(** C9, the part that fails: nothing keeps two threads from standing inside
    a read-modify-write of the shared maps at the same time.  After thread 1
    and then thread 2 have each run one statement of [__enter__], both have
    read the depth counter and neither has written it back. *)
Lemma two_threads_inside_read_modify_write :
  exists th1 th2,
    pool (run_schedule quiet_db [1; 2] two_entering) !! 1 = Some th1 /\
    pool (run_schedule quiet_db [1; 2] two_entering) !! 2 = Some th2 /\
    in_read_modify_write (at_ th1) = true /\
    in_read_modify_write (at_ th2) = true.
Proof.
  exists (mkThread (EnterGot 0) []), (mkThread (EnterGot 0) []).
  repeat split; vm_compute; reflexivity.
Qed.

Lemma cons_neq_self {A} (x : A) (l : list A) : x :: l <> l.
Proof.
  intros H. apply (f_equal (@length A)) in H. simpl in H. lia.
Qed.

(** C9, amended.  From a state in which no connection is held twice, under
    every schedule of the statements of [__enter__] and [__exit__] of any
    number of threads: two different threads never hold the same
    connection; a statement run by one thread leaves the counter and the
    connection entry of every other thread as they are and closes no
    connection but the one its own thread has in the map, which no other
    thread has; and two threads that set out to enter for the first time
    each end up, once each has run its five statements, with a connection
    of its own at depth 1.  No lock is involved: the statements of the
    threads interleave in any order. *)
Theorem concurrent_scopes_isolated (self : Database) (sys : system)
    (schedule : list Z) :
  sys_inv sys ->
  let sys' := run_schedule self schedule sys in
  (forall t1 t2 c1 c2,
     t1 <> t2 -> holds sys' t1 c1 -> holds sys' t2 c2 -> c1 <> c2) /\
  (forall s th th' w',
     pool sys' !! s = Some th ->
     step self s th (shared sys') = (th', w') ->
     (forall t, t <> s ->
        _nested_contexts w' !! t = _nested_contexts (shared sys') !! t /\
        _connections w' !! t = _connections (shared sys') !! t) /\
     (forall c, closed w' = c :: closed (shared sys') ->
        _connections (shared sys') !! s = Some c /\
        forall t, t <> s -> _connections (shared sys') !! t <> Some c)) /\
  (forall t1 t2,
     t1 <> t2 ->
     (forall n, connect_outcome self n = None) ->
     entered_upto 0 t1 (mkThread Idle [CallEnter]) (shared sys) ->
     entered_upto 0 t2 (mkThread Idle [CallEnter]) (shared sys) ->
     pool sys !! t1 = Some (mkThread Idle [CallEnter]) ->
     pool sys !! t2 = Some (mkThread Idle [CallEnter]) ->
     (5 <= count_occ Z.eq_dec schedule t1)%nat ->
     (5 <= count_occ Z.eq_dec schedule t2)%nat ->
     exists c1 c2,
       _connections (shared sys') !! t1 = Some c1 /\
       _connections (shared sys') !! t2 = Some c2 /\
       c1 <> c2 /\
       _nested_contexts (shared sys') !! t1 = Some 1 /\
       _nested_contexts (shared sys') !! t2 = Some 1 /\
       In c1 (opened (shared sys')) /\ In c2 (opened (shared sys'))).
Proof.
  intros Hinv sys'.
  pose proof (run_schedule_inv self schedule sys Hinv) as Hinv'.
  fold sys' in Hinv'. destruct Hinv' as [Hout Hown Hmiss].
  split; [|split].
  - intros t1 t2 c1 c2 Hne H1 H2 ->. apply Hne. eapply Hown; eassumption.
  - intros s th th' w' Hth Hstep.
    destruct (step_frame _ _ _ _ _ _ Hstep) as (Hframe & _ & Hclosed & _).
    split; [exact Hframe|].
    intros c Hc. destruct Hclosed as [Hsame|(c0 & Hs & Hc0)].
    + rewrite Hsame in Hc. symmetry in Hc. destruct (cons_neq_self _ _ Hc).
    + rewrite Hc0 in Hc. injection Hc as ->. split; [exact Hs|].
      intros t Hne Ht. apply Hne. apply (Hown t s c); left; assumption.
  - intros t1 t2 Hne Hp He1 He2 Hp1 Hp2 Hn1 Hn2.
    destruct (run_schedule_entering self t1 schedule Hp sys 0 _ Hp1 He1)
      as (th1 & _ & Hent1).
    destruct (run_schedule_entering self t2 schedule Hp sys 0 _ Hp2 He2)
      as (th2 & _ & Hent2).
    fold sys' in Hent1, Hent2. simpl in Hent1, Hent2.
    remember (count_occ Z.eq_dec schedule t1) as k1.
    remember (count_occ Z.eq_dec schedule t2) as k2.
    do 5 (destruct k1 as [|k1]; [lia|]).
    do 5 (destruct k2 as [|k2]; [lia|]).
    simpl in Hent1, Hent2.
    destruct Hent1 as (c1 & _ & Hd1 & Hc1 & Ho1).
    destruct Hent2 as (c2 & _ & Hd2 & Hc2 & Ho2).
    exists c1, c2. repeat split; try assumption.
    intros ->. apply Hne. apply (Hown t1 t2 c2); left; assumption.
Qed.

Lemma concurrent_scopes_isolated_witness :
  exists c1 c2,
    _connections (shared (run_schedule quiet_db [1; 2; 1; 2; 2; 1; 1; 2; 1; 2]
                            two_entering)) !! 1 = Some c1 /\
    _connections (shared (run_schedule quiet_db [1; 2; 1; 2; 2; 1; 1; 2; 1; 2]
                            two_entering)) !! 2 = Some c2 /\
    c1 <> c2.
Proof.
  destruct (concurrent_scopes_isolated quiet_db two_entering
              [1; 2; 1; 2; 2; 1; 1; 2; 1; 2] two_entering_inv)
    as (_ & _ & Hboth).
  destruct (Hboth 1 2) as (c1 & c2 & H1 & H2 & Hne & _).
  - discriminate.
  - intros n. reflexivity.
  - repeat split; reflexivity.
  - repeat split; reflexivity.
  - reflexivity.
  - reflexivity.
  - vm_compute. lia.
  - vm_compute. lia.
  - exists c1, c2. repeat split; assumption.
Defined.

(** * More of the code *)

(** ** What a scope does to the world *)

Lemma exit_scope_set_disk (t : Z) (s : store) (w : world) :
  exit_scope t (set_disk s w)
    = (fst (exit_scope t w), set_disk s (snd (exit_scope t w))).
Proof.
  destruct (Z.eq_dec (default 1 (_nested_contexts w !! t) - 1) 0) as [Hz|Hnz].
  - destruct (_connections w !! t) as [c|] eqn:Hc.
    + rewrite (exit_scope_last t w c) by (assumption || lia).
      rewrite (exit_scope_last t (set_disk s w) c) by (assumption || (simpl; lia)).
      reflexivity.
    + unfold exit_scope, bind, gets, modify, getitem_connections. simpl.
      remember (default 1 (_nested_contexts w !! t)) as d.
      rewrite Hz. simpl. rewrite Hc. reflexivity.
  - rewrite (exit_scope_inner t w Hnz).
    rewrite (exit_scope_inner t (set_disk s w)) by exact Hnz.
    reflexivity.
Qed.

(** A body that touches nothing but the tables, inside a scope: the world
    afterwards is the world after an empty scope, with the body's tables. *)
Lemma scoped {A} (self : Database) (t : Z) (w : world) (body : unit -> M A) :
  can_connect self t w ->
  exists w1 c,
    enter_scope self t w = (Return tt, w1) /\
    _connections w1 !! t = Some c /\
    disk w1 = disk w /\
    forall (r : outcome A) (s : store),
      body tt w1 = (r, set_disk s w1) ->
      with_ (enter_scope self t) (exit_scope t) body w
        = (r, set_disk s (scope_done self t w)).
Proof.
  intros Hcan.
  destruct (enter_scope_ok self t w Hcan) as (w1 & c & He & Hc & Hd).
  exists w1, c. repeat split; try assumption.
  intros r s Hb.
  destruct (exit_scope_ok t w1 c Hc) as (w3 & Hx & Hd3).
  unfold scope_done, with_. rewrite He, Hb. unfold ret.
  rewrite exit_scope_set_disk, Hx. reflexivity.
Qed.

Lemma scoped_session {A} (self : Database) (t : Z) (w : world)
    (body : conn -> M A) :
  can_connect self t w ->
  exists w1 c,
    SQLAlchemyDatabase.__enter__ self t w = (Return c, w1) /\
    disk w1 = disk w /\
    forall (r : outcome A) (s : store),
      body c w1 = (r, set_disk s w1) ->
      with_ (SQLAlchemyDatabase.__enter__ self t) (exit_scope t) body w
        = (r, set_disk s (scope_done self t w)).
Proof.
  intros Hcan.
  destruct (enter_scope_ok self t w Hcan) as (w1 & c & He & Hc & Hd).
  assert (Hs : SQLAlchemyDatabase.__enter__ self t w = (Return c, w1)).
  { unfold SQLAlchemyDatabase.__enter__, bind. rewrite He.
    unfold getitem_connections. rewrite Hc. reflexivity. }
  exists w1, c. repeat split; try assumption.
  intros r s Hb.
  destruct (exit_scope_ok t w1 c Hc) as (w3 & Hx & Hd3).
  unfold scope_done, with_. rewrite Hs, He, Hb. unfold ret.
  rewrite exit_scope_set_disk, Hx. reflexivity.
Qed.



(** The same scope-opening step as [in_scope], keeping the whole world. *)
Ltac in_scope_world Hcan :=
  unfold SQLiteDatabase.__enter__, SQLiteDatabase.__exit__,
    SQLAlchemyDatabase.__exit__;
  match goal with
  | |- with_ (enter_scope ?self ?t) (exit_scope ?t) ?body ?w = _ =>
      let w1 := fresh "w1" in
      let c := fresh "c" in
      let He := fresh "He" in
      let Hc := fresh "Hc" in
      let Hd := fresh "Hd" in
      let Hbody := fresh "Hbody" in
      destruct (scoped self t w body Hcan) as (w1 & c & He & Hc & Hd & Hbody);
      apply Hbody; clear Hbody
  | |- with_ (SQLAlchemyDatabase.__enter__ ?self ?t) (exit_scope ?t)
             ?body ?w = _ =>
      let w1 := fresh "w1" in
      let c := fresh "c" in
      let He := fresh "He" in
      let Hd := fresh "Hd" in
      let Hbody := fresh "Hbody" in
      destruct (scoped_session self t w body Hcan) as (w1 & c & He & Hd & Hbody);
      apply Hbody; clear Hbody
  end.

(** ** Every operation, with the world it leaves *)

Lemma set_disk_as (w1 w : world) : disk w1 = disk w -> w1 = set_disk (disk w) w1.
Proof. intros <-. symmetry. apply set_disk_same. Qed.

Lemma password_matches_world (self : Database) (t : Z) (w : world)
    (username password_ : string) :
  can_connect self t w ->
  SQLiteDatabase.password_matches self t username password_ w
    = (Return (match head (select_password username (disk w)) with
               | None => false
               | Some stored => String.eqb stored password_
               end), set_disk (disk w) (scope_done self t w)) /\
  SQLAlchemyDatabase.password_matches self t username password_ w
    = (Return (match select_password username (disk w) with
               | [stored] => String.eqb stored password_
               | _ => false
               end), set_disk (disk w) (scope_done self t w)).
Proof.
  intros Hcan. split.
  - unfold SQLiteDatabase.password_matches. in_scope_world Hcan.
    unfold bind at 1. rewrite (execute_select_password self t c username w1 Hc).
    rewrite <- Hd, set_disk_same.
    destruct (select_password username (disk w1)) as [|stored rest]; reflexivity.
  - unfold SQLAlchemyDatabase.password_matches. in_scope_world Hcan.
    unfold bind, gets. rewrite <- Hd, set_disk_same.
    destruct (select_password username (disk w1)) as [|stored [|? ?]]; reflexivity.
Qed.

Lemma get_user_id_from_token_world (self : Database) (t : Z) (w : world)
    (now : Q) (auth_token : string) :
  can_connect self t w ->
  let after := match token_lookup (disk w) now auth_token with
               | TokenExpired => delete_token auth_token (disk w)
               | _ => disk w
               end in
  SQLiteDatabase.get_user_id_from_token self t now auth_token w
    = (Return (match token_lookup (disk w) now auth_token with
               | TokenValid h n e => PTuple [PStr h; PStr n; PInt e]
               | _ => PNone
               end), set_disk after (scope_done self t w)) /\
  SQLAlchemyDatabase.get_user_id_from_token self t now auth_token w
    = (Return (match token_lookup (disk w) now auth_token with
               | TokenValid h n e => PTuple [PStr h; PStr n]
               | _ => PNone
               end), set_disk after (scope_done self t w)).
Proof.
  intros Hcan after. subst after. split.
  - unfold SQLiteDatabase.get_user_id_from_token. in_scope_world Hcan.
    unfold bind at 1. rewrite (execute_select_token self t c auth_token w1 Hc).
    unfold token_lookup. rewrite <- Hd.
    destruct (select_token auth_token (disk w1)) as [|[[h n] e] rest]; simpl.
    + rewrite set_disk_same. reflexivity.
    + unfold bind, lift; simpl. destruct (int_lt_float e now).
      * rewrite (execute_delete_token self t c auth_token w1 Hc). reflexivity.
      * rewrite set_disk_same. reflexivity.
  - unfold SQLAlchemyDatabase.get_user_id_from_token. in_scope_world Hcan.
    unfold bind at 1, gets. unfold token_lookup. rewrite <- Hd.
    destruct (select_token auth_token (disk w1)) as [|[[h n] e] rest]; simpl.
    + rewrite set_disk_same. reflexivity.
    + unfold bind, lift, modify; simpl. destruct (int_lt_float e now); simpl.
      * reflexivity.
      * rewrite set_disk_same. reflexivity.
Qed.

Lemma create_user_world (self : Database) (t : Z) (w : world)
    (user_id username hashed_pass : string) :
  can_connect self t w ->
  let u := mkUser user_id username hashed_pass in
  SQLiteDatabase.create_user self t user_id username hashed_pass w
    = match insert_user IntegrityError u (disk w) with
      | Return s' => (Return true, set_disk s' (scope_done self t w))
      | Raise _ => (Return false, set_disk (disk w) (scope_done self t w))
      end /\
  SQLAlchemyDatabase.create_user self t user_id username hashed_pass w
    = match insert_user SAIntegrityError u (disk w) with
      | Return s' => (Return true, set_disk s' (scope_done self t w))
      | Raise e => (Raise e, set_disk (disk w) (scope_done self t w))
      end.
Proof.
  intros Hcan u. subst u. split.
  - unfold SQLiteDatabase.create_user.
    unfold SQLiteDatabase.__enter__, SQLiteDatabase.__exit__.
    destruct (scoped self t w
                (fun _ : unit =>
                   run SQLiteDatabase.execute_query self t q_insert_user
                         [PStr user_id; PStr username; PStr hashed_pass] true;
                   ret tt) Hcan)
      as (w1 & c & He & Hc & Hd & Hbody).
    pose proof (execute_insert_user self t c user_id username hashed_pass w1 Hc)
      as Hex.
    rewrite Hd in Hex.
    destruct (insert_user_cases IntegrityError
                (mkUser user_id username hashed_pass) (disk w))
      as [(_ & _ & Hins)|(_ & args & Hins)]; rewrite Hins in *.
    + unfold try_except. unfold bind at 1.
      rewrite (Hbody (Return tt) _
                 (ltac:(unfold bind; rewrite Hex; reflexivity))).
      reflexivity.
    + rewrite normalized_integrity in Hex.
      unfold try_except. unfold bind at 1.
      rewrite (Hbody (Raise (DBException_new [PTuple args])) (disk w)
                 (ltac:(unfold bind; rewrite Hex, <- Hd, set_disk_same;
                        reflexivity))).
      reflexivity.
  - unfold SQLAlchemyDatabase.create_user. unfold SQLAlchemyDatabase.__exit__.
    destruct (scoped_session self t w
                (fun session =>
                   SQLAlchemyDatabase.session_add_user session
                     (mkUser user_id username hashed_pass)) Hcan)
      as (w1 & c & He & Hd & Hbody).
    destruct (insert_user_cases SAIntegrityError
                (mkUser user_id username hashed_pass) (disk w))
      as [(_ & _ & Hins)|(_ & args & Hins)]; rewrite Hins.
    + unfold try_except, bind.
      rewrite (Hbody (Return tt) _
                 (ltac:(unfold SQLAlchemyDatabase.session_add_user;
                        rewrite Hd, Hins; reflexivity))).
      reflexivity.
    + unfold try_except, bind.
      rewrite (Hbody (Raise (mkExn SAIntegrityError args)) (disk w)
                 (ltac:(unfold SQLAlchemyDatabase.session_add_user;
                        rewrite Hd, Hins, <- Hd, set_disk_same; reflexivity))).
      reflexivity.
Qed.

Lemma sqlite_execute_other_statement (self : Database) (params : list pyval)
    (s : store) :
  sqlite_execute self q_select_id params s
    = execute_other self q_select_id params s /\
  sqlite_execute self q_insert_token params s
    = execute_other self q_insert_token params s.
Proof. split; reflexivity. Qed.

Lemma insert_token_cases (cls : exn_class) (a : AuthToken) (s : store) :
  (fits_int64 (expires a) = true /\ token_taken s (token a) = false /\
   insert_token cls a s = Return (mkStore (users s) (auth_tokens s ++ [a]))) \/
  (exists e, insert_token cls a s = Raise e /\
     (fits_int64 (expires a) = false \/ token_taken s (token a) = true)).
Proof.
  unfold insert_token. destruct (fits_int64 (expires a)); simpl; [|eauto].
  destruct (token_taken s (token a)); eauto.
Qed.

Lemma insert_token_fits (cls : exn_class) (a : AuthToken) (s : store) :
  fits_int64 (expires a) = true ->
  insert_token cls a s
    = if token_taken s (token a)
      then Raise (integrity_error cls "UNIQUE constraint failed: auth_tokens.token")
      else Return (mkStore (users s) (auth_tokens s ++ [a])).
Proof. intros Hfit. unfold insert_token. rewrite Hfit. reflexivity. Qed.

Lemma get_user_id_world (self : Database) (t : Z) (w : world)
    (username : string) :
  can_connect self t w ->
  answers_user_statements self ->
  SQLiteDatabase_get_user_id self t username w
    = (Return (match head (select_id username (disk w)) with
               | None => PNone
               | Some i => PStr i
               end), set_disk (disk w) (scope_done self t w)) /\
  SQLAlchemyDatabase_get_user_id self t username w
    = (Return (match select_id username (disk w) with
               | [i] => PStr i
               | _ => PNone
               end), set_disk (disk w) (scope_done self t w)).
Proof.
  intros Hcan [Hsel _]. split.
  - unfold SQLiteDatabase_get_user_id. in_scope_world Hcan.
    unfold bind at 1.
    rewrite (execute_query_cached self t c _ _ _ w1 Hc).
    change (collect_params [PStr username]) with [PStr username].
    change (all_tuples [PStr username]) with false.
    unfold try_except, cursor_execute, lift_engine.
    destruct (sqlite_execute_other_statement self [PStr username] (disk w1))
      as [-> _].
    rewrite Hsel, set_disk_same, <- Hd.
    destruct (select_id username (disk w1)) as [|i rest]; simpl.
    + rewrite set_disk_same. reflexivity.
    + unfold lift. simpl. rewrite set_disk_same. reflexivity.
  - unfold SQLAlchemyDatabase_get_user_id. in_scope_world Hcan.
    unfold bind, gets. rewrite <- Hd, set_disk_same.
    destruct (select_id username (disk w1)) as [|i [|? ?]]; reflexivity.
Qed.

Lemma save_auth_token_world (self : Database) (t : Z) (w : world)
    (expires_ : Q) (token_ user_id : string) :
  can_connect self t w ->
  answers_user_statements self ->
  let a := mkAuthToken user_id token_ (int_of_float expires_) in
  SQLiteDatabase_save_auth_token self t expires_ token_ user_id w
    = match insert_token IntegrityError a (disk w) with
      | Return s' => (Return tt, set_disk s' (scope_done self t w))
      | Raise e => (Raise (normalized e),
                    set_disk (disk w) (scope_done self t w))
      end /\
  SQLAlchemyDatabase_save_auth_token self t expires_ token_ user_id w
    = match insert_token SAIntegrityError a (disk w) with
      | Return s' => (Return tt, set_disk s' (scope_done self t w))
      | Raise e => (Raise e, set_disk (disk w) (scope_done self t w))
      end.
Proof.
  intros Hcan [_ Hins] a. subst a. split.
  - destruct (insert_token IntegrityError
                (mkAuthToken user_id token_ (int_of_float expires_)) (disk w))
      as [s'|e] eqn:Hres;
      unfold SQLiteDatabase_save_auth_token; in_scope_world Hcan;
      unfold bind at 1;
      rewrite (execute_query_cached self t c _ _ _ w1 Hc);
      change (collect_params [PStr user_id; PStr token_; PInt (int_of_float expires_)])
        with [PStr user_id; PStr token_; PInt (int_of_float expires_)];
      change (all_tuples [PStr user_id; PStr token_; PInt (int_of_float expires_)])
        with false;
      unfold try_except, cursor_execute, lift_engine;
      destruct (sqlite_execute_other_statement self
                  [PStr user_id; PStr token_; PInt (int_of_float expires_)]
                  (disk w1)) as [_ ->];
      rewrite Hins, Hd, Hres.
    + reflexivity.
    + rewrite wrap_engine_error_normalized. rewrite <- Hd, set_disk_same.
      reflexivity.
  - destruct (insert_token SAIntegrityError
                (mkAuthToken user_id token_ (int_of_float expires_)) (disk w))
      as [s'|e] eqn:Hres;
      unfold SQLAlchemyDatabase_save_auth_token; in_scope_world Hcan;
      unfold session_add_token; rewrite Hd, Hres.
    + reflexivity.
    + rewrite <- Hd, set_disk_same. reflexivity.
Qed.

Lemma get_auth_token_world (self : Database) (t : Z) (w : world)
    (user_id : string) :
  can_connect self t w ->
  SQLAlchemyDatabase_get_auth_token self t user_id w
    = (SQLAlchemyDatabase.scalar_one (select_tokens_of user_id (disk w)),
       set_disk (disk w) (scope_done self t w)).
Proof.
  intros Hcan. unfold SQLAlchemyDatabase_get_auth_token. in_scope_world Hcan.
  unfold bind, gets, lift. rewrite <- Hd, set_disk_same. reflexivity.
Qed.

Lemma sql_db_answers : answers_user_statements sql_db.
Proof. split; intros; reflexivity. Qed.

(** ** Lists of rows *)

Lemma filter_none {A} (f : A -> bool) (l : list A) :
  existsb f l = false -> List.filter f l = [].
Proof.
  induction l as [|x l IH]; simpl; [reflexivity|].
  intros H. apply orb_false_iff in H as [Hx Hl]. rewrite Hx. auto.
Qed.

Lemma head_filter_find {A} (f : A -> bool) (l : list A) :
  head (List.filter f l) = find f l.
Proof.
  induction l as [|x l IH]; simpl; [reflexivity|].
  destruct (f x); [reflexivity | exact IH].
Qed.

Lemma select_after_insert_user (s : store) (u : User) :
  name_taken s (name u) = false ->
  select_password (name u) (mkStore (users s ++ [u]) (auth_tokens s))
    = [password u] /\
  select_id (name u) (mkStore (users s ++ [u]) (auth_tokens s)) = [id u].
Proof.
  intros Hn. unfold select_password, select_id. simpl.
  rewrite List.filter_app, (filter_none _ _ Hn). simpl.
  rewrite String.eqb_refl. auto.
Qed.

Lemma always_can_connect (self : Database) (t : Z) (w : world) :
  always_connects self -> can_connect self t w.
Proof. intros Hp. right. apply Hp. Qed.

(** ** Signing up, then logging in *)

(** X1.  A user created under a fresh id and a fresh name can log in: after
    [create_user] has returned [True], [password_matches] with the same name
    and hash returns [True] and [get_user_id] returns the id, in both
    classes. *)
Theorem create_user_then_login (self : Database) (t : Z) (w : world)
    (user_id username hashed_pass : string) :
  always_connects self ->
  answers_user_statements self ->
  id_taken (disk w) user_id = false ->
  name_taken (disk w) username = false ->
  fst ((do created <- SQLiteDatabase.create_user self t user_id username hashed_pass;
        do matches <- SQLiteDatabase.password_matches self t username hashed_pass;
        do found <- SQLiteDatabase_get_user_id self t username;
        ret (created, matches, found)) w)
    = Return (true, true, PStr user_id) /\
  fst ((do created <- SQLAlchemyDatabase.create_user self t user_id username hashed_pass;
        do matches <- SQLAlchemyDatabase.password_matches self t username hashed_pass;
        do found <- SQLAlchemyDatabase_get_user_id self t username;
        ret (created, matches, found)) w)
    = Return (true, true, PStr user_id).
Proof.
  intros Hp Hans Hid Hname.
  pose (u := mkUser user_id username hashed_pass).
  assert (Hraw : insert_user IntegrityError u (disk w)
                 = Return (mkStore (users (disk w) ++ [u]) (auth_tokens (disk w)))).
  { unfold insert_user. simpl. rewrite Hid, Hname. reflexivity. }
  assert (Hmap : insert_user SAIntegrityError u (disk w)
                 = Return (mkStore (users (disk w) ++ [u]) (auth_tokens (disk w)))).
  { unfold insert_user. simpl. rewrite Hid, Hname. reflexivity. }
  destruct (select_after_insert_user (disk w) u Hname) as [Hpw Hsel].
  simpl in Hpw, Hsel.
  split.
  - unfold bind at 1.
    rewrite (proj1 (create_user_world self t w user_id username hashed_pass
                      (always_can_connect self t w Hp))).
    fold u. rewrite Hraw.
    unfold bind at 1.
    rewrite (proj1 (password_matches_world self t _ username hashed_pass
                      (always_can_connect self t _ Hp))).
    simpl disk. rewrite Hpw.
    change (head [hashed_pass]) with (Some hashed_pass). cbv iota beta.
    rewrite String.eqb_refl.
    unfold bind at 1.
    rewrite (proj1 (get_user_id_world self t _ username
                      (always_can_connect self t _ Hp) Hans)).
    simpl disk. rewrite Hsel. reflexivity.
  - unfold bind at 1.
    rewrite (proj2 (create_user_world self t w user_id username hashed_pass
                      (always_can_connect self t w Hp))).
    fold u. rewrite Hmap.
    unfold bind at 1.
    rewrite (proj2 (password_matches_world self t _ username hashed_pass
                      (always_can_connect self t _ Hp))).
    simpl disk. rewrite Hpw. rewrite String.eqb_refl.
    unfold bind at 1.
    rewrite (proj2 (get_user_id_world self t _ username
                      (always_can_connect self t _ Hp) Hans)).
    simpl disk. rewrite Hsel. reflexivity.
Qed.

Lemma create_user_then_login_witness :
  fst ((do created <- SQLiteDatabase.create_user sql_db 7 "id2" "bob" "h2";
        do matches <- SQLiteDatabase.password_matches sql_db 7 "bob" "h2";
        do found <- SQLiteDatabase_get_user_id sql_db 7 "bob";
        ret (created, matches, found)) world1)
    = Return (true, true, PStr "id2").
Proof.
  apply (create_user_then_login sql_db 7 world1 "id2" "bob" "h2").
  - intros n. reflexivity.
  - exact sql_db_answers.
  - reflexivity.
  - reflexivity.
Defined.

(** ** A name that is taken *)

Lemma taken_after_insert_user (s : store) (u : User) :
  name_taken (mkStore (users s ++ [u]) (auth_tokens s)) (name u) = true.
Proof.
  unfold name_taken. simpl. rewrite existsb_app. simpl.
  rewrite String.eqb_refl. rewrite orb_true_r. reflexivity.
Qed.

(** X2.  The name stays with its first owner.  After [create_user] has
    stored a user, a second [create_user] with the same name, whatever its id
    and hash, leaves that row as it is: on [SQLiteDatabase] it returns
    [False], and afterwards [password_matches] still accepts the first hash
    and accepts the second only if it is the same hash; on
    [SQLAlchemyDatabase] it raises the session's [IntegrityError]. *)
Theorem create_user_name_taken (self : Database) (t : Z) (w : world)
    (id1 id2 username hash1 hash2 : string) :
  always_connects self ->
  id_taken (disk w) id1 = false ->
  name_taken (disk w) username = false ->
  fst ((do first <- SQLiteDatabase.create_user self t id1 username hash1;
        do second <- SQLiteDatabase.create_user self t id2 username hash2;
        do still <- SQLiteDatabase.password_matches self t username hash1;
        do other <- SQLiteDatabase.password_matches self t username hash2;
        ret (first, second, still, other)) w)
    = Return (true, false, true, String.eqb hash1 hash2) /\
  exists args w',
    (do first <- SQLAlchemyDatabase.create_user self t id1 username hash1;
     SQLAlchemyDatabase.create_user self t id2 username hash2) w
      = (Raise (mkExn SAIntegrityError args), w') /\
    disk w' = mkStore (users (disk w) ++ [mkUser id1 username hash1])
                      (auth_tokens (disk w)).
Proof.
  intros Hp Hid Hname.
  pose (u1 := mkUser id1 username hash1).
  pose (s1 := mkStore (users (disk w) ++ [u1]) (auth_tokens (disk w))).
  assert (Hfirst : forall cls, insert_user cls u1 (disk w) = Return s1).
  { intros cls. unfold insert_user. simpl. rewrite Hid, Hname. reflexivity. }
  assert (Hsecond : forall cls, exists args,
            insert_user cls (mkUser id2 username hash2) s1
              = Raise (mkExn cls args)).
  { intros cls.
    destruct (insert_user_cases cls (mkUser id2 username hash2) s1)
      as [(_ & Hn & _)|(_ & args & Hins)]; [|eauto].
    change (name_taken s1 username = false) in Hn.
    pose proof (taken_after_insert_user (disk w) u1) as Ht.
    change (name_taken s1 username = true) in Ht. congruence. }
  destruct (select_after_insert_user (disk w) u1 Hname) as [Hpw _].
  simpl in Hpw. fold s1 in Hpw.
  split.
  - unfold bind at 1.
    rewrite (proj1 (create_user_world self t w id1 username hash1
                      (always_can_connect self t w Hp))).
    fold u1. rewrite Hfirst.
    unfold bind at 1.
    rewrite (proj1 (create_user_world self t _ id2 username hash2
                      (always_can_connect self t _ Hp))).
    simpl disk. destruct (Hsecond IntegrityError) as [args ->].
    unfold bind at 1.
    rewrite (proj1 (password_matches_world self t _ username hash1
                      (always_can_connect self t _ Hp))).
    simpl disk. rewrite Hpw.
    change (head [hash1]) with (Some hash1). cbv iota beta.
    rewrite String.eqb_refl.
    unfold bind at 1.
    rewrite (proj1 (password_matches_world self t _ username hash2
                      (always_can_connect self t _ Hp))).
    simpl disk. rewrite Hpw. reflexivity.
  - destruct (Hsecond SAIntegrityError) as [args Hins].
    exists args. eexists. split.
    + unfold bind at 1.
      rewrite (proj2 (create_user_world self t w id1 username hash1
                        (always_can_connect self t w Hp))).
      fold u1. rewrite Hfirst.
      rewrite (proj2 (create_user_world self t _ id2 username hash2
                        (always_can_connect self t _ Hp))).
      simpl disk. rewrite Hins. reflexivity.
    + reflexivity.
Qed.

Lemma create_user_name_taken_witness :
  fst ((do first <- SQLiteDatabase.create_user quiet_db 7 "id1" "alice" "h1";
        do second <- SQLiteDatabase.create_user quiet_db 7 "id2" "alice" "h2";
        do still <- SQLiteDatabase.password_matches quiet_db 7 "alice" "h1";
        do other <- SQLiteDatabase.password_matches quiet_db 7 "alice" "h2";
        ret (first, second, still, other)) world0)
    = Return (true, false, true, false).
Proof.
  destruct (create_user_name_taken quiet_db 7 world0 "id1" "id2" "alice" "h1" "h2")
    as [Hraw _].
  - intros n. reflexivity.
  - reflexivity.
  - reflexivity.
  - exact Hraw.
Defined.

(** ** The schema's uniqueness, kept *)

Lemma existsb_eqb_false_not_in {A} (f : A -> string) (x : string) (l : list A) :
  existsb (fun r => String.eqb (f r) x) l = false -> ~ In x (map f l).
Proof.
  intros Hex Hin. apply in_map_iff in Hin as (r & Hr & Hin).
  assert (Ht : existsb (fun r => String.eqb (f r) x) l = true).
  { apply existsb_exists. exists r. split; [assumption|].
    apply String.eqb_eq. assumption. }
  congruence.
Qed.

Lemma NoDup_map_snoc {A} (f : A -> string) (l : list A) (x : A) :
  List.NoDup (map f l) -> ~ In (f x) (map f l) ->
  List.NoDup (map f (l ++ [x])).
Proof.
  induction l as [|y l IH]; simpl; intros Hnd Hnin.
  - constructor; [intros [] | constructor].
  - apply List.NoDup_cons_iff in Hnd as [Hy Hnd].
    constructor.
    + rewrite map_app, in_app_iff. simpl. intros [Hin|[Heq|[]]].
      * contradiction.
      * apply Hnin. left. congruence.
    + apply IH; [assumption|]. intros Hin. apply Hnin. right. assumption.
Qed.

Lemma NoDup_map_filter {A} (f : A -> string) (g : A -> bool) (l : list A) :
  List.NoDup (map f l) -> List.NoDup (map f (List.filter g l)).
Proof.
  induction l as [|y l IH]; simpl; intros Hnd; [constructor|].
  apply List.NoDup_cons_iff in Hnd as [Hy Hnd].
  destruct (g y); simpl; [|auto].
  constructor; [|auto].
  intros Hin. apply Hy. apply in_map_iff in Hin as (r & Hr & Hin).
  apply filter_In in Hin as [Hin _]. apply in_map_iff. eauto.
Qed.

Lemma insert_user_wf (cls : exn_class) (u : User) (s s' : store) :
  store_wf s -> insert_user cls u s = Return s' -> store_wf s'.
Proof.
  intros [Hi Hn Ht] Hins.
  destruct (insert_user_cases cls u s) as [(Hid & Hname & Heq)|(_ & args & Heq)];
    rewrite Heq in Hins; [|discriminate].
  injection Hins as <-. constructor; simpl.
  - apply NoDup_map_snoc; [assumption|].
    apply existsb_eqb_false_not_in. exact Hid.
  - apply NoDup_map_snoc; [assumption|].
    apply existsb_eqb_false_not_in. exact Hname.
  - assumption.
Qed.

Lemma insert_token_wf (cls : exn_class) (a : AuthToken) (s s' : store) :
  store_wf s -> insert_token cls a s = Return s' -> store_wf s'.
Proof.
  intros [Hi Hn Ht] Hins.
  destruct (insert_token_cases cls a s) as [(_ & Htok & Heq)|(e & Heq & _)];
    rewrite Heq in Hins; [|discriminate].
  injection Hins as <-. constructor; simpl; try assumption.
  apply NoDup_map_snoc; [assumption|].
  apply existsb_eqb_false_not_in. exact Htok.
Qed.

Lemma delete_token_wf (auth_token : string) (s : store) :
  store_wf s -> store_wf (delete_token auth_token s).
Proof.
  intros [Hi Hn Ht]. constructor; simpl; try assumption.
  apply NoDup_map_filter. assumption.
Qed.

(** X3.  Every operation that writes keeps ids, names and tokens unique:
    [create_user], [save_auth_token] and [get_user_id_from_token] of both
    classes, whether they succeed, return [False] or raise. *)
Theorem operations_keep_store_wf (self : Database) (t : Z) (w : world)
    (user_id username hashed_pass token_ : string) (expires_ now : Q) :
  can_connect self t w ->
  answers_user_statements self ->
  store_wf (disk w) ->
  Forall (fun w' => store_wf (disk w'))
    [ snd (SQLiteDatabase.create_user self t user_id username hashed_pass w);
      snd (SQLAlchemyDatabase.create_user self t user_id username hashed_pass w);
      snd (SQLiteDatabase_save_auth_token self t expires_ token_ user_id w);
      snd (SQLAlchemyDatabase_save_auth_token self t expires_ token_ user_id w);
      snd (SQLiteDatabase.get_user_id_from_token self t now token_ w);
      snd (SQLAlchemyDatabase.get_user_id_from_token self t now token_ w) ].
Proof.
  intros Hcan Hans Hwf.
  destruct (create_user_world self t w user_id username hashed_pass Hcan)
    as [Hc1 Hc2].
  destruct (save_auth_token_world self t w expires_ token_ user_id Hcan Hans)
    as [Hs1 Hs2].
  destruct (get_user_id_from_token_world self t w now token_ Hcan)
    as [Hg1 Hg2].
  rewrite Hc1, Hc2, Hs1, Hs2, Hg1, Hg2. clear Hc1 Hc2 Hs1 Hs2 Hg1 Hg2.
  repeat apply List.Forall_cons; [| | | | | |apply List.Forall_nil].
  - destruct (insert_user IntegrityError _ (disk w)) eqn:E; simpl;
      [eapply insert_user_wf; eassumption | assumption].
  - destruct (insert_user SAIntegrityError _ (disk w)) eqn:E; simpl;
      [eapply insert_user_wf; eassumption | assumption].
  - destruct (insert_token IntegrityError _ (disk w)) eqn:E; simpl;
      [eapply insert_token_wf; eassumption | assumption].
  - destruct (insert_token SAIntegrityError _ (disk w)) eqn:E; simpl;
      [eapply insert_token_wf; eassumption | assumption].
  - simpl. destruct (token_lookup (disk w) now token_);
      [assumption | apply delete_token_wf; assumption | assumption].
  - simpl. destruct (token_lookup (disk w) now token_);
      [assumption | apply delete_token_wf; assumption | assumption].
Qed.

Lemma store1_wf : store_wf store1.
Proof.
  constructor; simpl;
    (apply List.NoDup_cons; [intros [] | apply List.NoDup_nil]).
Qed.

Lemma operations_keep_store_wf_witness :
  store_wf (disk (snd (SQLiteDatabase.create_user sql_db 7 "id2" "bob" "h2" world1))) /\
  store_wf (disk (snd (SQLiteDatabase_save_auth_token sql_db 7 (160 # 1) "tok2" "id2" world1))).
Proof.
  pose proof (operations_keep_store_wf sql_db 7 world1 "id2" "bob" "h2" "tok2"
                (160 # 1) (50 # 1)
                (always_can_connect sql_db 7 world1 (fun n => eq_refl))
                sql_db_answers store1_wf) as H.
  split.
  - exact (List.Forall_inv H).
  - exact (List.Forall_inv (List.Forall_inv_tail (List.Forall_inv_tail H))).
Defined.

(** ** A token, from login to expiry *)

Lemma filter_negb_all {A} (f : A -> bool) (l : list A) :
  existsb f l = false -> List.filter (fun x => negb (f x)) l = l.
Proof.
  induction l as [|x l IH]; simpl; [reflexivity|].
  intros H. apply orb_false_iff in H as [Hx Hl]. rewrite Hx. simpl.
  rewrite IH by assumption. reflexivity.
Qed.

Lemma token_lookup_after_insert (s : store) (now : Q) (a : AuthToken) (u : User) :
  token_taken s (token a) = false ->
  find (fun r => String.eqb (id r) (holder_id a)) (users s) = Some u ->
  token_lookup (mkStore (users s) (auth_tokens s ++ [a])) now (token a)
    = (if int_lt_float (expires a) now then TokenExpired
       else TokenValid (holder_id a) (name u) (expires a)) /\
  delete_token (token a) (mkStore (users s) (auth_tokens s ++ [a])) = s.
Proof.
  intros Htok Hfind. split.
  - unfold token_lookup, select_token. simpl.
    rewrite List.filter_app, (filter_none _ _ Htok). simpl.
    rewrite String.eqb_refl. simpl. rewrite app_nil_r.
    rewrite <- head_filter_find in Hfind.
    destruct (List.filter _ (users s)) as [|r rest]; [discriminate|].
    simpl in Hfind. injection Hfind as ->. reflexivity.
  - unfold delete_token. simpl.
    rewrite List.filter_app. simpl. rewrite String.eqb_refl. simpl.
    rewrite app_nil_r.
    rewrite (filter_negb_all (fun t => String.eqb (token t) (token a)) _ Htok).
    destruct s; reflexivity.
Qed.

(** X4.  A token saved for a stored user under a fresh token string, with
    an expiry whose integer part fits the 64 bits of the column, is found
    again: [save_auth_token] followed by [get_user_id_from_token] at time
    [now] returns the holder (the pair from [SQLAlchemyDatabase], the row
    from [SQLiteDatabase]) with the token stored, as long as [now] does not
    exceed the integer part of the expiry; past it, the lookup returns
    [None] and the store is again what it was before the token was
    saved. *)
Theorem save_then_lookup_token (self : Database) (t : Z) (w : world)
    (expires_ now : Q) (token_ user_id : string) (u : User) :
  always_connects self ->
  answers_user_statements self ->
  fits_int64 (int_of_float expires_) = true ->
  token_taken (disk w) token_ = false ->
  find (fun r => String.eqb (id r) user_id) (users (disk w)) = Some u ->
  let e := int_of_float expires_ in
  let saved := mkStore (users (disk w))
                 (auth_tokens (disk w) ++ [mkAuthToken user_id token_ e]) in
  let raw := (run SQLiteDatabase_save_auth_token self t expires_ token_ user_id;
              SQLiteDatabase.get_user_id_from_token self t now token_) w in
  let mapped := (run SQLAlchemyDatabase_save_auth_token self t expires_ token_ user_id;
                 SQLAlchemyDatabase.get_user_id_from_token self t now token_) w in
  fst raw = Return (if int_lt_float e now then PNone
                    else PTuple [PStr user_id; PStr (name u); PInt e]) /\
  fst mapped = Return (if int_lt_float e now then PNone
                       else PTuple [PStr user_id; PStr (name u)]) /\
  disk (snd raw) = (if int_lt_float e now then disk w else saved) /\
  disk (snd mapped) = (if int_lt_float e now then disk w else saved).
Proof.
  intros Hp Hans Hfit Htok Hfind. cbv zeta.
  remember (int_of_float expires_) as e eqn:He.
  destruct (token_lookup_after_insert (disk w) now
              (mkAuthToken user_id token_ e) u Htok Hfind) as [Hlook Hdel].
  simpl in Hlook, Hdel.
  assert (Hins : forall cls,
            insert_token cls (mkAuthToken user_id token_ e) (disk w)
              = Return (mkStore (users (disk w))
                          (auth_tokens (disk w) ++ [mkAuthToken user_id token_ e]))).
  { intros cls. rewrite insert_token_fits by exact Hfit. simpl.
    rewrite Htok. reflexivity. }
  destruct (save_auth_token_world self t w expires_ token_ user_id
              (always_can_connect self t w Hp) Hans) as [Hs1 Hs2].
  rewrite <- He in Hs1, Hs2. rewrite Hins in Hs1, Hs2.
  destruct (get_user_id_from_token_world self t
              (set_disk (mkStore (users (disk w))
                           (auth_tokens (disk w) ++ [mkAuthToken user_id token_ e]))
                        (scope_done self t w))
              now token_ (always_can_connect self t _ Hp)) as [Hg1 Hg2].
  simpl disk in Hg1, Hg2. rewrite Hlook, Hdel in Hg1, Hg2.
  unfold bind. rewrite Hs1, Hs2, Hg1, Hg2.
  destruct (int_lt_float e now); simpl; auto.
Qed.

Lemma save_then_lookup_token_witness :
  fst ((run SQLAlchemyDatabase_save_auth_token sql_db 7 (1205 # 10) "tok2" "id1";
        SQLAlchemyDatabase.get_user_id_from_token sql_db 7 (60 # 1) "tok2") world1)
    = Return (PTuple [PStr "id1"; PStr "alice"]) /\
  fst ((run SQLAlchemyDatabase_save_auth_token sql_db 7 (1205 # 10) "tok2" "id1";
        SQLAlchemyDatabase.get_user_id_from_token sql_db 7 (1201 # 10) "tok2") world1)
    = Return PNone.
Proof.
  split.
  - destruct (save_then_lookup_token sql_db 7 world1 (1205 # 10) (60 # 1)
                "tok2" "id1" (mkUser "id1" "alice" "h1"))
      as (_ & Hm & _);
      [intros n; reflexivity | exact sql_db_answers | reflexivity
      | reflexivity | reflexivity |].
    exact Hm.
  - destruct (save_then_lookup_token sql_db 7 world1 (1205 # 10) (1201 # 10)
                "tok2" "id1" (mkUser "id1" "alice" "h1"))
      as (_ & Hm & _);
      [intros n; reflexivity | exact sql_db_answers | reflexivity
      | reflexivity | reflexivity |].
    exact Hm.
Defined.

(** ** Tokens without a holder, tokens stored twice *)

Lemma select_token_orphan (s : store) (auth_token : string) :
  (forall a, In a (auth_tokens s) -> token a = auth_token ->
             id_taken s (holder_id a) = false) ->
  select_token auth_token s = [].
Proof.
  intros Horphan.
  destruct (select_token auth_token s) as [|[[h n] e] rest] eqn:E;
    [reflexivity|].
  assert (Hin : In (h, n, e) (select_token auth_token s))
    by (rewrite E; left; reflexivity).
  apply select_token_In in Hin as (a & u & Ha & Hu & Htok & Hid & _).
  specialize (Horphan a Ha Htok).
  assert (Ht : id_taken s (holder_id a) = true).
  { apply existsb_exists. exists u. split; [assumption|].
    apply String.eqb_eq. assumption. }
  congruence.
Qed.

(** X5.  A token whose holder is not among the users is never accepted:
    [get_user_id_from_token] of both classes returns [None] for it at every
    time, and leaves its row where it is, expired or not. *)
Theorem orphan_token_not_accepted (self : Database) (t : Z) (w : world)
    (now : Q) (auth_token : string) :
  can_connect self t w ->
  (forall a, In a (auth_tokens (disk w)) -> token a = auth_token ->
             id_taken (disk w) (holder_id a) = false) ->
  let raw := SQLiteDatabase.get_user_id_from_token self t now auth_token w in
  let mapped := SQLAlchemyDatabase.get_user_id_from_token self t now auth_token w in
  fst raw = Return PNone /\ fst mapped = Return PNone /\
  disk (snd raw) = disk w /\ disk (snd mapped) = disk w.
Proof.
  intros Hcan Horphan raw mapped.
  destruct (get_user_id_from_token_world self t w now auth_token Hcan)
    as [Hg1 Hg2].
  subst raw mapped. rewrite Hg1, Hg2.
  unfold token_lookup. rewrite (select_token_orphan _ _ Horphan). simpl. auto.
Qed.

Lemma orphan_token_not_accepted_witness :
  fst (SQLAlchemyDatabase.get_user_id_from_token quiet_db 7 (50 # 1) "tok9"
         (mkWorld ∅ ∅ 0 [] []
            (mkStore [mkUser "id1" "alice" "h1"] [mkAuthToken "id9" "tok9" 100])))
    = Return PNone.
Proof.
  destruct (orphan_token_not_accepted quiet_db 7
              (mkWorld ∅ ∅ 0 [] []
                 (mkStore [mkUser "id1" "alice" "h1"] [mkAuthToken "id9" "tok9" 100]))
              (50 # 1) "tok9") as (_ & Hm & _).
  - right. reflexivity.
  - intros a [<-|[]] _. reflexivity.
  - exact Hm.
Defined.



(** ** One user, several tokens *)

(** X7.  [SQLAlchemyDatabase.get_auth_token] works for a user with exactly
    one token.  For a user without a token it raises [NoResultFound]; after
    one [save_auth_token] it returns that token; after a second one, under
    another token string, it raises [MultipleResultsFound].  The expiries
    are such that their integer parts fit the 64 bits of the column, so that
    both tokens are stored. *)
Theorem get_auth_token_after_logins (self : Database) (t : Z) (w : world)
    (e1 e2 : Q) (token1 token2 user_id : string) :
  always_connects self ->
  fits_int64 (int_of_float e1) = true ->
  fits_int64 (int_of_float e2) = true ->
  select_tokens_of user_id (disk w) = [] ->
  token_taken (disk w) token1 = false ->
  token_taken (disk w) token2 = false ->
  token1 <> token2 ->
  fst (SQLAlchemyDatabase_get_auth_token self t user_id w)
    = Raise (mkExn SANoResultFound
               [PStr "No row was found when one was required"]) /\
  fst ((run SQLAlchemyDatabase_save_auth_token self t e1 token1 user_id;
        SQLAlchemyDatabase_get_auth_token self t user_id) w)
    = Return (PStr token1) /\
  fst ((run SQLAlchemyDatabase_save_auth_token self t e1 token1 user_id;
        run SQLAlchemyDatabase_save_auth_token self t e2 token2 user_id;
        SQLAlchemyDatabase_get_auth_token self t user_id) w)
    = Raise (mkExn SAMultipleResultsFound
               [PStr "Multiple rows were found when exactly one was required"]).
Proof.
  intros Hp Hfit1 Hfit2 Hnone Ht1 Ht2 Hne.
  pose (a1 := mkAuthToken user_id token1 (int_of_float e1)).
  pose (a2 := mkAuthToken user_id token2 (int_of_float e2)).
  pose (s1 := mkStore (users (disk w)) (auth_tokens (disk w) ++ [a1])).
  pose (s2 := mkStore (users (disk w)) ((auth_tokens (disk w) ++ [a1]) ++ [a2])).
  assert (Hi1 : insert_token SAIntegrityError a1 (disk w) = Return s1).
  { rewrite insert_token_fits by exact Hfit1. simpl. rewrite Ht1. reflexivity. }
  assert (Hi2 : insert_token SAIntegrityError a2 s1 = Return s2).
  { rewrite insert_token_fits by exact Hfit2.
    unfold token_taken. simpl. rewrite existsb_app. simpl.
    fold (token_taken (disk w) token2). rewrite Ht2. simpl.
    replace (String.eqb token1 token2) with false; [reflexivity|].
    symmetry. apply String.eqb_neq. assumption. }
  assert (Hsel1 : select_tokens_of user_id s1 = [token1]).
  { unfold select_tokens_of in *. simpl. rewrite List.filter_app, map_app, Hnone.
    simpl. rewrite String.eqb_refl. reflexivity. }
  assert (Hsel2 : select_tokens_of user_id s2 = [token1; token2]).
  { unfold select_tokens_of in *. simpl.
    rewrite !List.filter_app, !map_app, Hnone.
    simpl. rewrite String.eqb_refl. reflexivity. }
  assert (Hsave : forall w0 e tok,
            SQLAlchemyDatabase_save_auth_token self t e tok user_id w0
              = match insert_token SAIntegrityError
                        (mkAuthToken user_id tok (int_of_float e)) (disk w0) with
                | Return s' => (Return tt, set_disk s' (scope_done self t w0))
                | Raise x => (Raise x, set_disk (disk w0) (scope_done self t w0))
                end).
  { intros w0 e tok.
    destruct (scoped_session self t w0
                (fun session => session_add_token session
                   (mkAuthToken user_id tok (int_of_float e)))
                (always_can_connect self t w0 Hp))
      as (w1 & c & He & Hd & Hbody).
    unfold SQLAlchemyDatabase_save_auth_token, SQLAlchemyDatabase.__exit__.
    destruct (insert_token SAIntegrityError _ (disk w0)) as [s'|x] eqn:Hres;
      apply Hbody; unfold session_add_token; rewrite Hd, Hres;
      [reflexivity | rewrite <- Hd, set_disk_same; reflexivity]. }
  split; [|split].
  - rewrite (get_auth_token_world self t w user_id
               (always_can_connect self t w Hp)).
    rewrite Hnone. reflexivity.
  - unfold bind. rewrite Hsave. fold a1. rewrite Hi1.
    rewrite (get_auth_token_world self t _ user_id
               (always_can_connect self t _ Hp)).
    simpl disk. fold s1. rewrite Hsel1. reflexivity.
  - unfold bind. rewrite Hsave. fold a1. rewrite Hi1.
    rewrite Hsave. simpl disk. fold s1. fold a2. rewrite Hi2.
    rewrite (get_auth_token_world self t _ user_id
               (always_can_connect self t _ Hp)).
    simpl disk. rewrite Hsel2. reflexivity.
Qed.

Lemma get_auth_token_after_logins_witness :
  fst ((run SQLAlchemyDatabase_save_auth_token quiet_db 7 (100 # 1) "tokA" "id1";
        run SQLAlchemyDatabase_save_auth_token quiet_db 7 (200 # 1) "tokB" "id1";
        SQLAlchemyDatabase_get_auth_token quiet_db 7 "id1") world0)
    = Raise (mkExn SAMultipleResultsFound
               [PStr "Multiple rows were found when exactly one was required"]).
Proof.
  destruct (get_auth_token_after_logins quiet_db 7 world0 (100 # 1) (200 # 1)
              "tokA" "tokB" "id1") as (_ & _ & H);
    [intros n; reflexivity | reflexivity | reflexivity | reflexivity
     | reflexivity | reflexivity | discriminate |].
  exact H.
Defined.

(** ** Looking a user up *)

(** X8.  With names unique, [get_user_id] of both classes returns the id of
    the user stored under the name, and [None] when there is none; the two
    classes agree and the store is left as it is. *)
Theorem get_user_id_found (self : Database) (t : Z) (w : world)
    (username : string) :
  can_connect self t w ->
  answers_user_statements self ->
  List.NoDup (map name (users (disk w))) ->
  let raw := SQLiteDatabase_get_user_id self t username w in
  let mapped := SQLAlchemyDatabase_get_user_id self t username w in
  fst raw = fst mapped /\
  disk (snd raw) = disk w /\ disk (snd mapped) = disk w /\
  (forall u, In u (users (disk w)) -> name u = username ->
     fst raw = Return (PStr (id u))) /\
  ((forall u, In u (users (disk w)) -> name u <> username) ->
     fst raw = Return PNone).
Proof.
  intros Hcan Hans Hnd raw mapped.
  destruct (get_user_id_world self t w username Hcan Hans) as [Hr Hm].
  subst raw mapped. rewrite Hr, Hm. simpl. clear Hr Hm.
  unfold select_id.
  assert (Hmem : forall u, In u (users (disk w)) -> name u = username ->
            In u (List.filter (fun u => String.eqb (name u) username)
                              (users (disk w)))).
  { intros u Hin Hname. apply filter_In. split; [assumption|].
    apply String.eqb_eq. assumption. }
  destruct (filter_name_unique (users (disk w)) username Hnd)
    as [Hnil|(u0 & Hin0 & Hname0 & Hone)].
  - rewrite Hnil in *. simpl. repeat split.
    intros u Hin Hname. destruct (Hmem u Hin Hname).
  - rewrite Hone in *. simpl. repeat split.
    + intros u Hin Hname. destruct (Hmem u Hin Hname) as [->|[]]. reflexivity.
    + intros Hno. destruct (Hno u0 Hin0 Hname0).
Qed.

Lemma get_user_id_found_witness :
  fst (SQLiteDatabase_get_user_id sql_db 7 "alice" world1) = Return (PStr "id1") /\
  fst (SQLAlchemyDatabase_get_user_id sql_db 7 "alice" world1) = Return (PStr "id1").
Proof.
  destruct (get_user_id_found sql_db 7 world1 "alice")
    as (Hsame & _ & _ & Hfound & _).
  - right. reflexivity.
  - exact sql_db_answers.
  - simpl. apply List.NoDup_cons; [intros [] | apply List.NoDup_nil].
  - rewrite <- Hsame.
    assert (H := Hfound (mkUser "id1" "alice" "h1") (or_introl eq_refl) eq_refl).
    split; exact H.
Defined.

(** ** An expired token is gone for good *)

Lemma select_token_deleted (s : store) (auth_token : string) :
  select_token auth_token (delete_token auth_token s) = [] /\
  token_taken (delete_token auth_token s) auth_token = false.
Proof.
  assert (Hnone : List.filter (fun t => String.eqb (token t) auth_token)
                    (auth_tokens (delete_token auth_token s)) = []).
  { unfold delete_token. simpl.
    induction (auth_tokens s) as [|a l IH]; simpl; [reflexivity|].
    destruct (String.eqb (token a) auth_token) eqn:E; simpl; [exact IH|].
    rewrite E. exact IH. }
  split.
  - unfold select_token. rewrite Hnone. reflexivity.
  - unfold token_taken.
    destruct (existsb _ (auth_tokens (delete_token auth_token s))) eqn:E;
      [|reflexivity].
    apply existsb_exists in E as (a & Hin & Ha).
    assert (Hf : In a (List.filter (fun t => String.eqb (token t) auth_token)
                         (auth_tokens (delete_token auth_token s))))
      by (apply filter_In; auto).
    rewrite Hnone in Hf. destruct Hf.
Qed.

(** X9.  Once a lookup has found a token expired, the token is forgotten: a
    second [get_user_id_from_token], at whatever time, returns [None] too
    and changes nothing more, and no row of that token is left. *)
Theorem expired_token_is_forgotten (self : Database) (t : Z) (w : world)
    (now later : Q) (auth_token : string) :
  always_connects self ->
  token_lookup (disk w) now auth_token = TokenExpired ->
  let raw := (do first <- SQLiteDatabase.get_user_id_from_token self t now auth_token;
              do second <- SQLiteDatabase.get_user_id_from_token self t later auth_token;
              ret (first, second)) w in
  let mapped := (do first <- SQLAlchemyDatabase.get_user_id_from_token self t now auth_token;
                 do second <- SQLAlchemyDatabase.get_user_id_from_token self t later auth_token;
                 ret (first, second)) w in
  fst raw = Return (PNone, PNone) /\
  fst mapped = Return (PNone, PNone) /\
  disk (snd raw) = delete_token auth_token (disk w) /\
  disk (snd mapped) = delete_token auth_token (disk w) /\
  token_taken (disk (snd raw)) auth_token = false.
Proof.
  intros Hp Hexp. cbv zeta.
  destruct (get_user_id_from_token_world self t w now auth_token
              (always_can_connect self t w Hp)) as [Hg1 Hg2].
  rewrite Hexp in Hg1, Hg2.
  destruct (get_user_id_from_token_world self t
              (set_disk (delete_token auth_token (disk w)) (scope_done self t w))
              later auth_token (always_can_connect self t _ Hp)) as [Hh1 Hh2].
  simpl disk in Hh1, Hh2.
  destruct (select_token_deleted (disk w) auth_token) as [Hsel Htaken].
  unfold token_lookup in Hh1, Hh2. rewrite Hsel in Hh1, Hh2. simpl in Hh1, Hh2.
  unfold bind. rewrite Hg1, Hg2, Hh1, Hh2. simpl. auto.
Qed.

Lemma expired_token_is_forgotten_witness :
  fst ((do first <- SQLiteDatabase.get_user_id_from_token quiet_db 7 (150 # 1) "tok1";
        do second <- SQLiteDatabase.get_user_id_from_token quiet_db 7 (10 # 1) "tok1";
        ret (first, second)) world1)
    = Return (PNone, PNone).
Proof.
  destruct (expired_token_is_forgotten quiet_db 7 world1 (150 # 1) (10 # 1) "tok1")
    as (Hr & _); [intros n; reflexivity | reflexivity |].
  exact Hr.
Defined.

(** ** Operations and the scopes around them *)

Lemma set_disk_disk (s : store) (w : world) :
  set_disk s w = set_disk (disk (set_disk s w)) w.
Proof. reflexivity. Qed.



(** ** Errors of the engine inside a call *)




(** ** Scopes that do not pair up *)

(** X12.  After an entry that failed in the provider, the next scope of the
    thread does not close its connection.  The failed entry has left the
    depth counter at 1; the next [with] block raises it to 2, opens a
    connection, and on the way out lowers the counter to 1 only: the
    connection stays open and cached, for both classes. *)
Theorem failed_entry_leaks_next_connection (self : Database) (t : Z)
    (w : world) (e : exn) :
  _nested_contexts w !! t = None ->
  _connections w !! t = None ->
  connect_outcome self (attempts w) = Some e ->
  connect_outcome self (S (attempts w)) = None ->
  let c := S (attempts w) in
  let after := mkWorld (<[t := 1]> (_nested_contexts w))
                       (<[t := c]> (_connections w))
                       (S (S (attempts w))) (c :: opened w) (closed w) (disk w) in
  (run try_except (SQLiteDatabase.__enter__ self t) (fun _ => ret tt);
   with_ (SQLiteDatabase.__enter__ self t) (SQLiteDatabase.__exit__ t)
         (fun _ => ret tt)) w
    = (Return tt, after) /\
  (run try_except (run SQLAlchemyDatabase.__enter__ self t; ret tt)
                  (fun _ => ret tt);
   with_ (SQLAlchemyDatabase.__enter__ self t) (SQLAlchemyDatabase.__exit__ t)
         (fun _ => ret tt)) w
    = (Return tt, after).
Proof.
  intros Hn Hc Hp1 Hp2 c after.
  pose proof (enter_scope_open_fails self t w e Hc Hp1) as Hfail.
  rewrite Hn in Hfail. simpl in Hfail.
  set (w1 := mkWorld (<[t := 1]> (_nested_contexts w)) (_connections w)
                     (S (attempts w)) (opened w) (closed w) (disk w)) in *.
  assert (Hc1 : _connections w1 !! t = None) by exact Hc.
  pose proof (enter_scope_open self t w1 Hc1 Hp2) as Hopen.
  simpl in Hopen. rewrite lookup_insert_eq in Hopen. simpl in Hopen.
  rewrite insert_insert_eq in Hopen.
  set (w2 := mkWorld (<[t := 1 + 1]> (_nested_contexts w))
                     (<[t := S (attempts w)]> (_connections w))
                     (S (S (attempts w))) (S (attempts w) :: opened w)
                     (closed w) (disk w)) in *.
  assert (Hexit : exit_scope t w2 = (Return tt, after)).
  { rewrite exit_scope_inner; unfold w2; simpl _nested_contexts;
      rewrite lookup_insert_eq; simpl; [|lia].
    unfold set_nested_contexts. simpl. rewrite insert_insert_eq. reflexivity. }
  split.
  - assert (H1 : try_except (SQLiteDatabase.__enter__ self t)
                            (fun _ => ret tt) w = (Return tt, w1)).
    { unfold try_except, SQLiteDatabase.__enter__. rewrite Hfail. reflexivity. }
    assert (H2 : with_ (SQLiteDatabase.__enter__ self t)
                       (SQLiteDatabase.__exit__ t) (fun _ => ret tt) w1
                 = (Return tt, after)).
    { unfold with_, SQLiteDatabase.__enter__, SQLiteDatabase.__exit__.
      rewrite Hopen. unfold ret. cbv beta iota zeta. rewrite Hexit.
      reflexivity. }
    unfold bind. rewrite H1. exact H2.
  - assert (H1 : try_except (run SQLAlchemyDatabase.__enter__ self t; ret tt)
                            (fun _ => ret tt) w = (Return tt, w1)).
    { unfold try_except, bind, SQLAlchemyDatabase.__enter__, bind.
      rewrite Hfail. reflexivity. }
    assert (H2 : with_ (SQLAlchemyDatabase.__enter__ self t)
                       (SQLAlchemyDatabase.__exit__ t) (fun _ => ret tt) w1
                 = (Return tt, after)).
    { unfold with_, SQLAlchemyDatabase.__enter__, SQLAlchemyDatabase.__exit__,
        bind.
      rewrite Hopen. unfold getitem_connections. simpl _connections.
      rewrite lookup_insert_eq. unfold ret. cbv beta iota zeta.
      rewrite Hexit. reflexivity. }
    unfold bind at 1. rewrite H1. exact H2.
Qed.

Lemma failed_entry_leaks_next_connection_witness :
  (run try_except (SQLiteDatabase.__enter__ failing_once_db 7) (fun _ => ret tt);
   with_ (SQLiteDatabase.__enter__ failing_once_db 7) (SQLiteDatabase.__exit__ 7)
         (fun _ => ret tt)) world0
    = (Return tt, mkWorld {[ 7 := 1 ]} {[ 7 := 1%nat ]} 2 [1%nat] [] (mkStore [] [])).
Proof.
  destruct (failed_entry_leaks_next_connection failing_once_db 7 world0
              unable_to_open) as [H _];
    [reflexivity | reflexivity | reflexivity | reflexivity |].
  exact H.
Defined.

(** X13.  An [__exit__] without an [__enter__] raises [KeyError] and leaves
    a depth counter of 0 behind; the next scope of the thread clears it
    away: it opens one connection, closes it, and leaves both maps without
    an entry for the thread. *)
Theorem unmatched_exit_then_scope (self : Database) (t : Z) (w : world) :
  _nested_contexts w !! t = None ->
  _connections w !! t = None ->
  connect_outcome self (attempts w) = None ->
  exit_scope t w
    = (Raise (mkExn PyKeyError [PInt t]), set_nested_contexts <[t := 0]> w) /\
  with_ (SQLiteDatabase.__enter__ self t) (SQLiteDatabase.__exit__ t)
        (fun _ => ret tt) (set_nested_contexts <[t := 0]> w)
    = (Return tt, released (attempts w) w).
Proof.
  intros Hn Hc Hp. split.
  - unfold exit_scope, bind, gets, modify, getitem_connections. simpl.
    rewrite Hn. simpl. rewrite Hc. reflexivity.
  - unfold with_, SQLiteDatabase.__enter__, SQLiteDatabase.__exit__.
    rewrite enter_scope_open by assumption.
    simpl. rewrite lookup_insert_eq. simpl. unfold ret.
    rewrite (exit_scope_last t _ (attempts w)); simpl;
      rewrite ?lookup_insert_eq; try reflexivity.
    f_equal. unfold released. apply world_eq; simpl; try reflexivity.
    + rewrite insert_insert_eq, delete_insert_eq. apply delete_id. assumption.
    + rewrite delete_insert_eq. apply delete_id. assumption.
Qed.

Lemma unmatched_exit_then_scope_witness :
  exit_scope 7 world0
    = (Raise (mkExn PyKeyError [PInt 7]), mkWorld {[ 7 := 0 ]} ∅ 0 [] [] (mkStore [] [])).
Proof.
  destruct (unmatched_exit_then_scope quiet_db 7 world0) as [H _];
    [reflexivity | reflexivity | reflexivity |].
  exact H.
Defined.

(** ** [Query.__str__] *)

Lemma string_app_assoc (a b c : string) :
  ((a ++ b) ++ c)%string = (a ++ b ++ c)%string.
Proof.
  induction a as [|x a IH]; [reflexivity|].
  change (String x ((a ++ b) ++ c) = String x (a ++ b ++ c))%string.
  rewrite IH. reflexivity.
Qed.

Lemma fill_nil (s : string) : fill [] s = s.
Proof.
  induction s as [|c rest IH]; simpl; [reflexivity|].
  destruct (Ascii.eqb c "?"); [reflexivity | rewrite IH; reflexivity].
Qed.

Lemma fill_app (texts : list string) (a b : string) :
  no_qmark a = true -> fill texts (a ++ b) = (a ++ fill texts b)%string.
Proof.
  induction a as [|c a IH]; simpl; intros Ha; [reflexivity|].
  apply andb_true_iff in Ha as [Hc Ha]. apply negb_true_iff in Hc.
  rewrite Hc, IH by assumption. reflexivity.
Qed.

Lemma replace_first_qmark_app (new a rest : string) :
  no_qmark a = true ->
  replace_first_qmark new (a ++ String "?" rest) = (a ++ new ++ rest)%string.
Proof.
  induction a as [|c a IH]; simpl; intros Ha; [reflexivity|].
  apply andb_true_iff in Ha as [Hc Ha]. apply negb_true_iff in Hc.
  rewrite Hc, IH by assumption. reflexivity.
Qed.

Lemma fill_cons (x : string) (texts : list string) (s : string) :
  no_qmark x = true ->
  fill (x :: texts) s = fill texts (replace_first_qmark x s).
Proof.
  intros Hx. induction s as [|c rest IH]; simpl; [reflexivity|].
  destruct (Ascii.eqb c "?") eqn:E.
  - rewrite fill_app by assumption. reflexivity.
  - simpl. rewrite E, IH. reflexivity.
Qed.

(** X14.  [str(query)] fills the placeholders in order: when the text of no
    parameter holds a question mark, the result is the query text with its
    first question mark replaced by the text of the first parameter, the
    second by the second, and so on; question marks beyond the parameters
    stay, parameters beyond the question marks are dropped. *)
Theorem query_str_positional (str : pyval -> string) (q : Query.t) :
  Forall (fun p => no_qmark (str p) = true) (items (Query.params q)) ->
  Query__str__ str q = fill (map str (items (Query.params q))) (Query.query q).
Proof.
  unfold Query__str__. generalize (Query.query q) as text.
  induction (items (Query.params q)) as [|p ps IH]; intros text Hall; simpl.
  - rewrite fill_nil. reflexivity.
  - apply List.Forall_cons_iff in Hall as [Hp Hps].
    rewrite IH by assumption. rewrite fill_cons by assumption. reflexivity.
Qed.

Lemma query_str_positional_witness :
  Query__str__ str_sample
    (Query.__init__ "SELECT * FROM t WHERE a = ? AND b = ? AND c = ?"
       [PStr "x"; PInt 5] (FormatValue PNone) PNone)
    = "SELECT * FROM t WHERE a = x AND b = 5 AND c = ?".
Proof.
  rewrite (query_str_positional str_sample).
  - reflexivity.
  - repeat constructor.
Defined.

(** X15.  A question mark inside the text of a parameter is taken for the
    next placeholder.  With two parameters, the first of which has the text
    [a ++ "?" ++ b], the second parameter lands inside the first, and the
    second placeholder of the query is left unfilled. *)
Theorem query_str_qmark_in_parameter (str : pyval -> string)
    (pre post a b : string) (p1 p2 : pyval) (f : format_func_t) (d : pyval) :
  no_qmark pre = true ->
  no_qmark a = true ->
  str p1 = (a ++ String "?" b)%string ->
  Query__str__ str (Query.mk (PTuple [p1; p2]) (pre ++ String "?" post) false f d)
    = (pre ++ a ++ str p2 ++ b ++ post)%string.
Proof.
  intros Hpre Ha Hp1. unfold Query__str__. simpl.
  rewrite replace_first_qmark_app by assumption.
  rewrite Hp1.
  replace (pre ++ (a ++ String "?" b) ++ post)%string
    with ((pre ++ a) ++ String "?" (b ++ post))%string.
  - rewrite replace_first_qmark_app.
    + rewrite !string_app_assoc. reflexivity.
    + clear -Hpre Ha. induction pre as [|c pre IH]; simpl in *; [assumption|].
      apply andb_true_iff in Hpre as [Hc Hpre]. rewrite Hc. simpl. auto.
  - rewrite !string_app_assoc. reflexivity.
Qed.

Lemma query_str_qmark_in_parameter_witness :
  Query__str__ str_sample
    (Query.mk (PTuple [PStr "why?"; PStr "bob"])
       "SELECT * FROM t WHERE q = ? AND name = ?" false (FormatValue PNone) PNone)
    = "SELECT * FROM t WHERE q = whybob AND name = ?".
Proof.
  apply (query_str_qmark_in_parameter str_sample "SELECT * FROM t WHERE q = "
           " AND name = ?" "why" "" (PStr "why?") (PStr "bob"));
    reflexivity.
Defined.

(** ** [create_backup] *)

Lemma string_length_app (a b : string) :
  String.length (a ++ b) = (String.length a + String.length b)%nat.
Proof.
  induction a as [|x a IH]; [reflexivity|].
  change (S (String.length (a ++ b)) = S (String.length a + String.length b))%nat.
  rewrite IH. reflexivity.
Qed.

(** Removing every [".db"] shortens a path by a multiple of three. *)
Lemma remove_db_length (s : string) :
  exists k, String.length s = (String.length (remove_db s) + 3 * k)%nat.
Proof.
  enough (Hgen : forall n s, (String.length s <= n)%nat ->
            exists k, String.length s = (String.length (remove_db s) + 3 * k)%nat)
    by (apply (Hgen (String.length s)); lia).
  clear s. induction n as [|n IH]; intros s Hlen.
  - destruct s; [exists 0%nat; reflexivity | simpl in Hlen; lia].
  - destruct s as [|c rest]; [exists 0%nat; reflexivity|].
    simpl in Hlen.
    destruct (IH rest ltac:(lia)) as [k Hk].
    destruct rest as [|c2 [|c3 rest']].
    + exists 0%nat. reflexivity.
    + exists 0%nat. reflexivity.
    + change (remove_db (String c (String c2 (String c3 rest'))))
        with (if Ascii.eqb c "." && Ascii.eqb c2 "d" && Ascii.eqb c3 "b"
              then remove_db rest'
              else String c (remove_db (String c2 (String c3 rest')))).
      destruct (Ascii.eqb c "." && Ascii.eqb c2 "d" && Ascii.eqb c3 "b").
      * simpl in Hlen. destruct (IH rest' ltac:(lia)) as [k' Hk'].
        exists (S k'). simpl String.length. lia.
      * exists k. simpl String.length in *. lia.
Qed.

Lemma backup_name_neq (db_path : string) : backup_name db_path <> db_path.
Proof.
  intros Heq. apply (f_equal String.length) in Heq.
  unfold backup_name in Heq. rewrite string_length_app in Heq.
  destruct (remove_db_length db_path) as [k Hk].
  simpl in Heq. lia.
Qed.

Lemma create_backup_run (open_new : string -> option Z) (db_path : string)
    (fs : files) :
  create_backup open_new db_path fs
    = match fs !! db_path, open_new (backup_name db_path) with
      | None, _ =>
          (Raise (DBException_new [PInt 2]), delete (backup_name db_path) fs)
      | Some content, Some errno =>
          (Raise (DBException_new [PInt errno]),
           delete (backup_name db_path) fs)
      | Some content, None =>
          (Return tt, <[backup_name db_path := content]> fs)
      end.
Proof.
  pose proof (backup_name_neq db_path) as Hne.
  assert (Hdel : (if bool_decide (is_Some (fs !! backup_name db_path))
                  then delete (backup_name db_path) fs else fs)
                 = delete (backup_name db_path) fs).
  { unfold files in *.
    destruct (bool_decide (is_Some (fs !! backup_name db_path))) eqn:Hex;
      [reflexivity|].
    apply bool_decide_eq_false in Hex. symmetry. apply delete_id.
    destruct (fs !! backup_name db_path) eqn:E; [|reflexivity].
    exfalso. apply Hex. eauto. }
  unfold create_backup, copyfile. cbv zeta. rewrite Hdel. unfold files in *.
  rewrite lookup_delete_ne by exact Hne. rewrite lookup_delete_eq.
  destruct (fs !! db_path) as [content|]; [|reflexivity].
  replace (String.eqb db_path (backup_name db_path)) with false
    by (symmetry; apply String.eqb_neq; congruence).
  destruct (open_new (backup_name db_path)); [reflexivity|].
  rewrite insert_delete_eq. reflexivity.
Qed.

(** X16.  [create_backup] never touches the database file: the backup path
    it computes is never the path of the database, whatever the path looks
    like, and the database file is after the call what it was before,
    whether the call succeeds or raises. *)
Theorem create_backup_spares_database (open_new : string -> option Z)
    (db_path : string) (fs : files) :
  backup_name db_path <> db_path /\
  snd (create_backup open_new db_path fs) !! db_path = fs !! db_path.
Proof.
  pose proof (backup_name_neq db_path) as Hne. split; [exact Hne|].
  rewrite create_backup_run. unfold files in *.
  destruct (fs !! db_path) as [content|] eqn:E;
    [destruct (open_new (backup_name db_path))|]; simpl.
  - rewrite lookup_delete_ne by exact Hne. exact E.
  - rewrite lookup_insert_ne by exact Hne. exact E.
  - rewrite lookup_delete_ne by exact Hne. exact E.
Qed.





(** ** utils.py *)

Lemma days_offset_weekday (w : nat) :
  (w < 7)%nat -> nth_error utils.days_offset w = Some (6 - Z.of_nat w).
Proof.
  intros Hw. do 7 (destruct w as [|w]; [reflexivity|]). lia.
Qed.

Lemma last_sunday_weekday (m d : Z) (w : nat) :
  (w < 7)%nat ->
  utils._last_sunday_in_month (utils.mkDatetime m d w)
    = Return (31 - d <=? 6 - Z.of_nat w).
Proof.
  intros Hw. unfold utils._last_sunday_in_month. simpl.
  rewrite days_offset_weekday by exact Hw. reflexivity.
Qed.

Lemma weekday_of_last_sunday (d S : Z) (w : nat) :
  1 <= d <= 31 -> 25 <= S <= 31 ->
  Z.of_nat w = (6 + d - S) mod 7 ->
  (w < 7)%nat /\
  (24 < d -> (31 - d <=? 6 - Z.of_nat w) = bool_decide (S < d \/ S = 31)).
Proof.
  intros Hd HS Hw.
  pose proof (Z.mod_pos_bound (6 + d - S) 7 ltac:(lia)) as Hb.
  pose proof (Z.div_mod (6 + d - S) 7 ltac:(lia)) as Hq.
  rewrite <- Hw in Hb, Hq. split; [lia|]. intros H24.
  destruct (Z.leb_spec (31 - d) (6 - Z.of_nat w)) as [Hle|Hgt].
  - symmetry. apply bool_decide_eq_true_2. lia.
  - symmetry. apply bool_decide_eq_false_2. lia.
Qed.

(** X19.  March, for a date whose weekday is the calendar's: with [S] the
    day of the month's last Sunday, [dst] gives two hours exactly from the
    day after [S] on - on the Sunday itself it still gives zero - and, when
    the last Sunday is the 31st, already from the 25th on. *)
Theorem dst_march (d S : Z) (w : nat) :
  1 <= d <= 31 -> 25 <= S <= 31 ->
  Z.of_nat w = (6 + d - S) mod 7 ->
  utils.dst (utils.mkDatetime 3 d w)
    = Return (if bool_decide (S < d \/ (S = 31 /\ 25 <= d))
              then utils.hours 2 else utils.hours 0).
Proof.
  intros Hd HS Hw.
  destruct (weekday_of_last_sunday d S w Hd HS Hw) as [Hlt Hsun].
  unfold utils.dst. cbn [utils.month utils.day].
  change (3 <? 3) with false. change (3 <? 10) with true.
  change (10 <? 3) with false. change (3 =? 3) with true.
  change (3 =? 10) with false. cbn [andb orb].
  rewrite last_sunday_weekday by exact Hlt.
  destruct (Z.ltb_spec 24 d) as [H24|H24].
  - rewrite (Hsun H24). destruct (bool_decide (S < d \/ S = 31)) eqn:E.
    + apply bool_decide_eq_true in E.
      rewrite bool_decide_eq_true_2 by lia. reflexivity.
    + apply bool_decide_eq_false in E.
      rewrite bool_decide_eq_false_2 by lia. reflexivity.
  - rewrite bool_decide_eq_false_2 by lia. reflexivity.
Qed.

Lemma dst_march_witness :
  utils.dst (utils.mkDatetime 3 30 6) = Return (utils.hours 0) /\
  utils.dst (utils.mkDatetime 3 25 0) = Return (utils.hours 2).
Proof.
  split.
  - exact (dst_march 30 30 6 ltac:(lia) ltac:(lia) eq_refl).
  - exact (dst_march 25 31 0 ltac:(lia) ltac:(lia) eq_refl).
Defined.

(** X20.  October, for a date whose weekday is the calendar's: with [S]
    the day of the month's last Sunday, [dst] gives two hours up to and
    including [S] and zero after it; when the last Sunday is the 31st, it
    gives zero already from the 25th on. *)
Theorem dst_october (d S : Z) (w : nat) :
  1 <= d <= 31 -> 25 <= S <= 31 ->
  Z.of_nat w = (6 + d - S) mod 7 ->
  utils.dst (utils.mkDatetime 10 d w)
    = Return (if bool_decide (d <= S /\ (S < 31 \/ d < 25))
              then utils.hours 2 else utils.hours 0).
Proof.
  intros Hd HS Hw.
  destruct (weekday_of_last_sunday d S w Hd HS Hw) as [Hlt Hsun].
  unfold utils.dst. cbn [utils.month utils.day].
  change (3 <? 10) with true. change (10 <? 10) with false.
  change (10 <? 3) with false. change (10 =? 3) with false.
  change (10 =? 10) with true. cbn [andb orb].
  rewrite last_sunday_weekday by exact Hlt.
  destruct (Z.ltb_spec d 25) as [H25|H25].
  - rewrite bool_decide_eq_true_2 by lia. reflexivity.
  - rewrite (Hsun ltac:(lia)).
    destruct (bool_decide (S < d \/ S = 31)) eqn:E.
    + apply bool_decide_eq_true in E.
      rewrite bool_decide_eq_false_2 by lia. reflexivity.
    + apply bool_decide_eq_false in E.
      rewrite bool_decide_eq_true_2 by lia. reflexivity.
Qed.

Lemma dst_october_witness :
  utils.dst (utils.mkDatetime 10 27 6) = Return (utils.hours 2) /\
  utils.dst (utils.mkDatetime 10 26 1) = Return (utils.hours 0).
Proof.
  split.
  - exact (dst_october 27 27 6 ltac:(lia) ltac:(lia) eq_refl).
  - exact (dst_october 26 31 1 ltac:(lia) ltac:(lia) eq_refl).
Defined.

(** X21.  For every date with a weekday from Monday to Sunday, neither
    [dst] nor [utcoffset] raises; [utcoffset] is one hour where [dst] is
    zero and two hours where [dst] is two hours, so the difference of the
    two is one hour in winter and nothing in summer. *)
Theorem utcoffset_one_or_two_hours (dt : utils.datetime) :
  (utils.weekday dt < 7)%nat ->
  (utils.dst dt = Return 0 /\ utils.utcoffset dt = Return 3600) \/
  (utils.dst dt = Return 7200 /\ utils.utcoffset dt = Return 7200).
Proof.
  intros Hw. destruct dt as [m d w]. simpl in Hw.
  unfold utils.utcoffset, utils.dst. cbn [utils.month utils.day].
  rewrite last_sunday_weekday by exact Hw.
  destruct ((3 <? m) && (m <? 10)); [right; split; reflexivity|].
  destruct ((m <? 3) || (10 <? m)); [left; split; reflexivity|].
  destruct ((m =? 3) && (24 <? d)), (m =? 10), (d <? 25),
    (31 - d <=? 6 - Z.of_nat w); simpl;
    solve [left; split; reflexivity | right; split; reflexivity].
Qed.

Lemma utcoffset_one_or_two_hours_witness :
  (utils.dst (utils.mkDatetime 12 24 3) = Return 0 /\
   utils.utcoffset (utils.mkDatetime 12 24 3) = Return 3600) \/
  (utils.dst (utils.mkDatetime 12 24 3) = Return 7200 /\
   utils.utcoffset (utils.mkDatetime 12 24 3) = Return 7200).
Proof.
  apply (utcoffset_one_or_two_hours (utils.mkDatetime 12 24 3)). simpl. lia.
Defined.

(** ** auth.verify_input *)

Lemma field_ok_step (data : gmap string pyval) (names keys : list string)
    (lengths : list Z) (n k : string) (m : Z) :
  field_ok data k m ->
  verify_input data (n :: names) (k :: keys) (m :: lengths)
    = verify_input data names keys lengths.
Proof.
  intros (s & Hs & Hne & Hlen). simpl. rewrite Hs. simpl.
  destruct s as [|c s]; [congruence|]. simpl.
  match goal with
  | |- context [?a <? ?b] => destruct (Z.ltb_spec a b) as [Hlt|_]
  end; [|reflexivity].
  simpl String.length in Hlen. lia.
Qed.

Lemma field_not_ok_step (data : gmap string pyval) (names keys : list string)
    (lengths : list Z) (n k : string) (m : Z) :
  strings_only data ->
  ~ field_ok data k m ->
  verify_input data (n :: names) (k :: keys) (m :: lengths)
    = Return (false, PStr (n ++ complaint data k m)).
Proof.
  intros Hdata Hbad. unfold complaint. simpl.
  destruct (data !! k) as [v|] eqn:Hk; [|reflexivity].
  destruct (Hdata k v Hk) as [->|[s ->]]; [reflexivity|].
  destruct s as [|c s]; [reflexivity|]. simpl.
  match goal with
  | |- context [?a <? ?b] => destruct (Z.ltb_spec a b) as [Hlt|Hge]
  end; [reflexivity|].
  exfalso. apply Hbad. exists (String c s).
  split; [exact Hk|]. split; [discriminate|].
  simpl String.length. lia.
Qed.

(** X22.  On form data (every value a string or [None]) [verify_input]
    answers [(True, None)] exactly when every field of
    [zip(names, keys, lengths)] is present, not empty and no longer than its
    maximum; fields beyond the shortest of the three lists are not looked
    at. *)
Theorem verify_input_accepts_iff (data : gmap string pyval)
    (names keys : list string) (lengths : list Z) :
  strings_only data ->
  verify_input data names keys lengths = Return (true, PNone) <->
  List.Forall (fun '(_, k, m) => field_ok data k m) (zip3 names keys lengths).
Proof.
  intros Hdata. revert keys lengths.
  induction names as [|n names IH]; intros keys lengths.
  - simpl. split; [constructor|reflexivity].
  - destruct keys as [|k keys]; [simpl; split; [constructor|reflexivity]|].
    destruct lengths as [|m lengths];
      [simpl; split; [constructor|reflexivity]|].
    change (zip3 (n :: names) (k :: keys) (m :: lengths))
      with ((n, k, m) :: zip3 names keys lengths).
    split.
    + intros Hrun.
      assert (Hok : field_ok data k m).
      { destruct (data !! k) as [v|] eqn:Hk.
        - destruct (Hdata k v Hk) as [->|[s ->]].
          + simpl in Hrun. rewrite Hk in Hrun. discriminate.
          + destruct s as [|c s].
            * simpl in Hrun. rewrite Hk in Hrun. discriminate.
            * exists (String c s). split; [exact Hk|].
              split; [discriminate|].
              simpl in Hrun. rewrite Hk in Hrun. simpl in Hrun.
              match type of Hrun with
              | context [?a <? ?b] =>
                  destruct (Z.ltb_spec a b) as [Hlt|Hge]
              end; [discriminate|]. simpl String.length. lia.
        - simpl in Hrun. rewrite Hk in Hrun. discriminate. }
      constructor; [exact Hok|].
      apply IH. rewrite <- Hrun. symmetry. apply field_ok_step. exact Hok.
    + intros Hall. apply List.Forall_cons_iff in Hall as [Hok Hrest].
      rewrite field_ok_step by exact Hok. apply IH. exact Hrest.
Qed.

Lemma verify_input_accepts_iff_witness :
  verify_input {[ "user" := PStr "alice"; "pass" := PStr "secret" ]}
      ["Username"; "Password"] ["user"; "pass"] [32; 64]
    = Return (true, PNone) <->
  List.Forall
    (fun '(_, k, m) =>
       field_ok {[ "user" := PStr "alice"; "pass" := PStr "secret" ]} k m)
    (zip3 ["Username"; "Password"] ["user"; "pass"] [32; 64]).
Proof.
  apply (verify_input_accepts_iff
           {[ "user" := PStr "alice"; "pass" := PStr "secret" ]}
           ["Username"; "Password"] ["user"; "pass"] [32; 64]).
  intros k v Hk. right.
  destruct (decide (k = "user")) as [->|Hu].
  - exists "alice". rewrite lookup_insert_eq in Hk. congruence.
  - rewrite lookup_insert_ne in Hk by congruence.
    destruct (decide (k = "pass")) as [->|Hp].
    + exists "secret". rewrite lookup_singleton_eq in Hk. congruence.
    + rewrite lookup_singleton_ne in Hk by congruence. discriminate.
Defined.

(** X23.  On form data [verify_input] never raises, and when a field does
    not pass it answers [False] with a message that starts with the name of
    the first such field of [zip(names, keys, lengths)] and says what is
    wrong with that field: missing, empty ([None] or the empty string), or
    too long; the fields after it have no influence. *)
Theorem verify_input_first_failure (data : gmap string pyval)
    (names keys : list string) (lengths : list Z)
    (pre post : list (string * string * Z)) (n k : string) (m : Z) :
  strings_only data ->
  zip3 names keys lengths = pre ++ (n, k, m) :: post ->
  List.Forall (fun '(_, k', m') => field_ok data k' m') pre ->
  ~ field_ok data k m ->
  verify_input data names keys lengths
    = Return (false, PStr (n ++ complaint data k m)).
Proof.
  intros Hdata Hzip Hpre Hbad. revert names keys lengths Hzip.
  induction Hpre as [|[[n0 k0] m0] pre Hok _ IH]; intros names keys lengths Hzip.
  - destruct names as [|n1 names]; [discriminate|].
    destruct keys as [|k1 keys]; [discriminate|].
    destruct lengths as [|m1 lengths]; [discriminate|].
    simpl in Hzip. injection Hzip as -> -> -> _.
    apply field_not_ok_step; assumption.
  - destruct names as [|n1 names]; [discriminate|].
    destruct keys as [|k1 keys]; [discriminate|].
    destruct lengths as [|m1 lengths]; [discriminate|].
    simpl in Hzip. injection Hzip as -> -> -> Hzip.
    rewrite field_ok_step by exact Hok. apply IH. exact Hzip.
Qed.

Lemma verify_input_first_failure_witness :
  verify_input {[ "user" := PStr "alice"; "pass" := PStr "" ]}
      ["Username"; "Password"; "Email"] ["user"; "pass"; "mail"] [32; 64; 64]
    = Return (false,
        PStr ("Password"
              ++ complaint {[ "user" := PStr "alice"; "pass" := PStr "" ]}
                   "pass" 64)).
Proof.
  apply (verify_input_first_failure
           {[ "user" := PStr "alice"; "pass" := PStr "" ]}
           ["Username"; "Password"; "Email"] ["user"; "pass"; "mail"]
           [32; 64; 64]
           [("Username", "user", 32)] [("Email", "mail", 64)]).
  - intros k v Hk. right.
    destruct (decide (k = "user")) as [->|Hu].
    + exists "alice". rewrite lookup_insert_eq in Hk. congruence.
    + rewrite lookup_insert_ne in Hk by congruence.
      destruct (decide (k = "pass")) as [->|Hp].
      * exists "". rewrite lookup_singleton_eq in Hk. congruence.
      * rewrite lookup_singleton_ne in Hk by congruence. discriminate.
  - reflexivity.
  - constructor; [|constructor].
    exists "alice". split; [reflexivity|]. split; [discriminate|].
    simpl. lia.
  - intros (s & Hs & Hne & _).
    rewrite lookup_insert_ne in Hs by discriminate.
    rewrite lookup_singleton_eq in Hs. congruence.
Defined.

(** ** search_logs.key_value_type *)

Lemma split_on_cons (sep : ascii) (s : string) :
  exists piece pieces, split_on sep s = piece :: pieces.
Proof.
  destruct s as [|c rest]; [exists "", []; reflexivity|].
  simpl. destruct (Ascii.eqb c sep); [eauto|].
  destruct (split_on sep rest); eauto.
Qed.

Lemma split_on_length (sep : ascii) (s : string) :
  List.length (split_on sep s) = S (count_char sep s).
Proof.
  induction s as [|c rest IH]; [reflexivity|].
  simpl. destruct (Ascii.eqb c sep).
  - simpl. rewrite IH. reflexivity.
  - destruct (split_on_cons sep rest) as (piece & pieces & Hsplit).
    rewrite Hsplit in *. simpl in *. exact IH.
Qed.

Lemma split_on_without (sep : ascii) (s : string) :
  count_char sep s = O -> split_on sep s = [s].
Proof.
  induction s as [|c rest IH]; [reflexivity|].
  simpl. destruct (Ascii.eqb c sep); [discriminate|].
  intros Hcount. rewrite (IH Hcount). reflexivity.
Qed.

Lemma split_on_app (sep : ascii) (k rest : string) :
  count_char sep k = O ->
  split_on sep (k ++ String sep rest)%string = k :: split_on sep rest.
Proof.
  induction k as [|c k IH]; intros Hcount.
  - change (split_on sep (String sep rest) = "" :: split_on sep rest).
    simpl. rewrite Ascii.eqb_refl. reflexivity.
  - change (split_on sep (String c (k ++ String sep rest))
            = String c k :: split_on sep rest).
    simpl in Hcount |- *. destruct (Ascii.eqb c sep); [discriminate|].
    rewrite (IH Hcount). reflexivity.
Qed.

Lemma count_char_one (sep : ascii) (s : string) :
  count_char sep s = 1%nat ->
  exists k v, s = (k ++ String sep v)%string /\
              count_char sep k = O /\ count_char sep v = O.
Proof.
  induction s as [|c rest IH]; [discriminate|].
  simpl. destruct (Ascii.eqb_spec c sep) as [->|Hne]; intros Hcount.
  - exists "", rest. split; [reflexivity|]. split; [reflexivity|].
    simpl in Hcount. lia.
  - destruct (IH Hcount) as (k & v & -> & Hk & Hv).
    exists (String c k), v. split; [reflexivity|]. split; [|exact Hv].
    simpl. destruct (Ascii.eqb_spec c sep); [contradiction|exact Hk].
Qed.

(** X24.  [key_value_type] goes by the number of equals signs in its
    argument: with none the whole text is the key and the value is [None];
    with exactly one the text is cut there into key and value, neither of
    which holds an equals sign; with two or more it raises
    [ArgumentTypeError]. *)
Theorem key_value_type_by_equals_signs (kv_string : string) :
  match count_char "=" kv_string with
  | O => key_value_type kv_string = KeyValue kv_string None
  | S O =>
      exists k v,
        kv_string = (k ++ "=" ++ v)%string /\
        count_char "=" k = O /\ count_char "=" v = O /\
        key_value_type kv_string = KeyValue k (Some v)
  | _ => key_value_type kv_string = ArgumentTypeError "Invalid key-value string"
  end.
Proof.
  destruct (count_char "=" kv_string) as [|[|n]] eqn:Hcount.
  - unfold key_value_type. rewrite split_on_without by exact Hcount.
    reflexivity.
  - destruct (count_char_one _ _ Hcount) as (k & v & -> & Hk & Hv).
    exists k, v. split; [reflexivity|]. split; [exact Hk|].
    split; [exact Hv|].
    unfold key_value_type. rewrite split_on_app by exact Hk.
    rewrite split_on_without by exact Hv. reflexivity.
  - pose proof (split_on_length "=" kv_string) as Hlen.
    rewrite Hcount in Hlen. unfold key_value_type.
    destruct (split_on "=" kv_string) as [|p1 [|p2 [|p3 ps]]];
      simpl in Hlen; try discriminate.
    reflexivity.
Qed.

(** X25.  Round trip: a key and a value without equals signs, joined by
    one, come back from [key_value_type] as they were; this holds for an
    empty key and for an empty value as well. *)
Theorem key_value_type_round_trip (k v : string) :
  count_char "=" k = O -> count_char "=" v = O ->
  key_value_type (k ++ "=" ++ v)%string = KeyValue k (Some v).
Proof.
  intros Hk Hv. unfold key_value_type.
  change (k ++ "=" ++ v)%string with (k ++ String "=" v)%string.
  rewrite split_on_app by exact Hk.
  rewrite split_on_without by exact Hv. reflexivity.
Qed.

Lemma key_value_type_round_trip_witness :
  key_value_type "level.name=ERROR" = KeyValue "level.name" (Some "ERROR") /\
  key_value_type "message=" = KeyValue "message" (Some "").
Proof.
  split.
  - exact (key_value_type_round_trip "level.name" "ERROR" eq_refl eq_refl).
  - exact (key_value_type_round_trip "message" "" eq_refl eq_refl).
Defined.

(** ** query_db.format_raw_output *)

Lemma str_repeat_length (c : ascii) (n : nat) :
  String.length (str_repeat c n) = n.
Proof. induction n as [|n IH]; [reflexivity|]. simpl. rewrite IH. reflexivity. Qed.

Lemma join_length (sep : string) (cells : list string) :
  String.length (join sep cells)
    = (sum_list (map String.length cells)
       + String.length sep * (List.length cells - 1))%nat.
Proof.
  induction cells as [|cell cells IH]; [simpl; lia|].
  destruct cells as [|cell' cells].
  - simpl. lia.
  - change (join sep (cell :: cell' :: cells))
      with (cell ++ sep ++ join sep (cell' :: cells))%string.
    rewrite !string_length_app, IH. simpl. lia.
Qed.

Lemma widen_ok (str : pyval -> string) (row : list pyval) :
  forall (rl : list nat) (i : nat),
    (i + List.length row <= List.length rl)%nat ->
    exists rl',
      widen str rl i row = Return rl' /\
      List.length rl' = List.length rl /\
      (forall j w, rl !! j = Some w ->
         exists w', rl' !! j = Some w' /\ (w <= w')%nat) /\
      (forall k col, row !! k = Some col ->
         exists w', rl' !! (i + k)%nat = Some w' /\
                    (String.length (format_value str col) <= w')%nat).
Proof.
  induction row as [|col row IH]; intros rl i Hlen.
  - exists rl. split; [reflexivity|]. split; [reflexivity|]. split.
    + intros j w Hj. exists w. split; [exact Hj|lia].
    + intros k c Hk. rewrite lookup_nil in Hk. discriminate.
  - simpl in Hlen. simpl.
    destruct (lookup_lt_is_Some_2 rl i ltac:(lia)) as [old Hold].
    rewrite Hold.
    set (rl2 := <[i := Nat.max (String.length (format_value str col)) old]> rl).
    assert (Hlen2 : List.length rl2 = List.length rl)
      by (unfold rl2; apply length_insert).
    destruct (IH rl2 (S i) ltac:(lia)) as (rl' & Hrun & Hlen' & Hmono & Hcov).
    assert (Hstep : forall j w, rl !! j = Some w ->
              exists w2, rl2 !! j = Some w2 /\ (w <= w2)%nat).
    { intros j w Hj. unfold rl2. destruct (decide (j = i)) as [->|Hne].
      - rewrite list_lookup_insert_eq by (apply lookup_lt_is_Some; eauto).
        eexists. split; [reflexivity|]. rewrite Hold in Hj.
        injection Hj as ->. lia.
      - rewrite list_lookup_insert_ne by congruence.
        exists w. split; [exact Hj|lia]. }
    exists rl'. split; [exact Hrun|]. split; [lia|]. split.
    + intros j w Hj. destruct (Hstep j w Hj) as (w2 & Hj2 & Hle).
      destruct (Hmono j w2 Hj2) as (w' & Hj' & Hle').
      exists w'. split; [exact Hj'|lia].
    + intros k c Hk. destruct k as [|k].
      * simpl in Hk. injection Hk as ->. rewrite Nat.add_0_r.
        assert (Hi2 : rl2 !! i
                  = Some (Nat.max (String.length (format_value str c)) old)).
        { unfold rl2. apply list_lookup_insert_eq.
          apply lookup_lt_is_Some. eauto. }
        destruct (Hmono i _ Hi2) as (w' & Hj' & Hle').
        exists w'. split; [exact Hj'|lia].
      * simpl in Hk. destruct (Hcov k c Hk) as (w' & Hj' & Hle').
        exists w'. split; [|exact Hle'].
        replace (i + S k)%nat with (S i + k)%nat by lia. exact Hj'.
Qed.

Lemma measure_rows_ok (str : pyval -> string) (rows : list (list pyval)) :
  forall rl : list nat,
    List.Forall (fun row => (List.length row <= List.length rl)%nat) rows ->
    exists rl',
      measure_rows str rl rows = Return rl' /\
      List.length rl' = List.length rl /\
      (forall j w, rl !! j = Some w ->
         exists w', rl' !! j = Some w' /\ (w <= w')%nat) /\
      List.Forall (fun row => forall k col, row !! k = Some col ->
                     exists w', rl' !! k = Some w' /\
                       (String.length (format_value str col) <= w')%nat) rows.
Proof.
  induction rows as [|row rows IH]; intros rl Hrows.
  - exists rl. split; [reflexivity|]. split; [reflexivity|]. split.
    + intros j w Hj. exists w. split; [exact Hj|lia].
    + constructor.
  - apply List.Forall_cons_iff in Hrows as [Hrow Hrows]. simpl.
    destruct (widen_ok str row rl 0%nat ltac:(simpl; lia))
      as (rl1 & Hrun1 & Hlen1 & Hmono1 & Hcov1).
    rewrite Hrun1.
    assert (Hrows1 : List.Forall
              (fun row => (List.length row <= List.length rl1)%nat) rows)
      by (rewrite Hlen1; exact Hrows).
    destruct (IH rl1 Hrows1) as (rl' & Hrun & Hlen' & Hmono & Hcov).
    exists rl'. split; [exact Hrun|]. split; [lia|]. split.
    + intros j w Hj. destruct (Hmono1 j w Hj) as (w1 & Hj1 & Hle1).
      destruct (Hmono j w1 Hj1) as (w' & Hj' & Hle').
      exists w'. split; [exact Hj'|lia].
    + constructor; [|exact Hcov].
      intros k c Hk. destruct (Hcov1 k c Hk) as (w1 & Hj1 & Hle1).
      simpl in Hj1. destruct (Hmono k w1 Hj1) as (w' & Hj' & Hle').
      exists w'. split; [exact Hj'|lia].
Qed.

Lemma pad_cells_ok (rl : list nat) (texts : list string) :
  forall i : nat,
    (forall k data, texts !! k = Some data ->
       exists w, rl !! (i + k)%nat = Some w /\ (String.length data <= w)%nat) ->
    exists cells,
      pad_cells rl i texts = Return cells /\
      map String.length cells = take (List.length texts) (drop i rl) /\
      Forall2 (fun data cell =>
                 exists k, cell = (data ++ str_repeat " " k)%string)
              texts cells.
Proof.
  induction texts as [|data texts IH]; intros i Hcov.
  - exists []. split; [reflexivity|]. split; [reflexivity|]. constructor.
  - destruct (Hcov 0%nat data eq_refl) as (w & Hw & Hle).
    rewrite Nat.add_0_r in Hw.
    assert (Hcov' : forall k data', texts !! k = Some data' ->
              exists w', rl !! (S i + k)%nat = Some w' /\
                         (String.length data' <= w')%nat).
    { intros k data' Hk. destruct (Hcov (S k) data' Hk) as (w' & Hw' & Hle').
      exists w'. split; [|exact Hle'].
      replace (S i + k)%nat with (i + S k)%nat by lia. exact Hw'. }
    destruct (IH (S i) Hcov') as (cells & Hrun & Hlens & Hpad).
    simpl. rewrite Hw, Hrun.
    eexists. split; [reflexivity|]. split.
    + rewrite (drop_S rl w i Hw). simpl. rewrite Hlens. f_equal.
      rewrite string_length_app, str_repeat_length. lia.
    + constructor; [eauto|exact Hpad].
Qed.

Lemma pad_cells_row (rl : list nat) (texts : list string) :
  List.length texts = List.length rl ->
  (forall k data, texts !! k = Some data ->
     exists w, rl !! k = Some w /\ (String.length data <= w)%nat) ->
  exists cells,
    pad_cells rl 0 texts = Return cells /\
    laid_out rl texts (join " | " cells).
Proof.
  intros Hlen Hcov.
  destruct (pad_cells_ok rl texts 0%nat Hcov) as (cells & Hrun & Hlens & Hpad).
  exists cells. split; [exact Hrun|]. exists cells.
  split; [reflexivity|]. split; [|exact Hpad].
  rewrite Hlens, Hlen. simpl. apply firstn_all.
Qed.

Lemma print_rows_ok (str : pyval -> string) (rl : list nat)
    (rows : list (list pyval)) :
  forall out : list string,
    List.Forall (fun row : list pyval => List.length row = List.length rl) rows ->
    List.Forall (fun row => forall k col, row !! k = Some col ->
                   exists w', rl !! k = Some w' /\
                     (String.length (format_value str col) <= w')%nat) rows ->
    exists body,
      print_rows str rl rows out = (Return tt, out ++ body) /\
      Forall2 (fun row line => laid_out rl (map (format_value str) row) line)
              rows body.
Proof.
  induction rows as [|row rows IH]; intros out Hlens Hcov.
  - exists []. split; [simpl; rewrite app_nil_r; reflexivity|constructor].
  - apply List.Forall_cons_iff in Hlens as [Hlen Hlens].
    apply List.Forall_cons_iff in Hcov as [Hrow Hcov].
    destruct (pad_cells_row rl (map (format_value str) row))
      as (cells & Hrun & Hlaid).
    { rewrite length_map. exact Hlen. }
    { intros k data Hk. rewrite list_lookup_fmap in Hk.
      destruct (row !! k) as [col|] eqn:Hcol; [|discriminate].
      simpl in Hk. injection Hk as <-. exact (Hrow k col Hcol). }
    destruct (IH (out ++ [join " | " cells]) Hlens Hcov) as (body & Hrest & Hbody).
    exists (join " | " cells :: body). split.
    + simpl. rewrite Hrun, Hrest. rewrite <- app_assoc. reflexivity.
    + constructor; [exact Hlaid|exact Hbody].
Qed.

Lemma laid_out_length (widths : list nat) (texts : list string) (line : string) :
  laid_out widths texts line ->
  String.length line
    = (sum_list widths + 3 * (List.length widths - 1))%nat.
Proof.
  intros (cells & -> & Hlens & _). rewrite join_length.
  subst widths. rewrite length_map. reflexivity.
Qed.

(** What the table looks like when every row has as many cells as there
    are columns. *)
Lemma format_raw_output_layout (str : pyval -> string) (rows_is_list : bool)
    (rows : list (list pyval)) (columns : list string) (n : nat) :
  rows <> [] ->
  List.Forall (fun row : list pyval => List.length row = n) rows ->
  columns = [] \/ List.length columns = n ->
  exists widths head body,
    format_raw_output str rows_is_list rows columns
      = (Return (Z.of_nat (List.length rows)), head ++ body) /\
    List.length widths = n /\
    Forall2 (fun row line => laid_out widths (map (format_value str) row) line)
            rows body /\
    match columns with
    | [] => head = []
    | _ => exists line,
             head = [line; str_repeat "-" (sum_list widths + n * 3)] /\
             laid_out widths columns line
    end.
Proof.
  intros Hne Hrows Hcols. unfold format_raw_output.
  destruct rows as [|row0 rows0] eqn:Erows; [congruence|].
  rewrite andb_false_r. rewrite <- Erows in *. clear Hne.
  set (rl0 := match columns with
              | [] => repeat O (List.length row0)
              | _ => map String.length columns
              end).
  assert (Hrow0 : List.length row0 = n).
  { rewrite Erows in Hrows. apply List.Forall_cons_iff in Hrows as [H _].
    exact H. }
  assert (Hlen0 : List.length rl0 = n).
  { unfold rl0. destruct Hcols as [->|Hc].
    - rewrite repeat_length. exact Hrow0.
    - destruct columns; [rewrite repeat_length; exact Hrow0|].
      rewrite length_map. exact Hc. }
  assert (Hrows0 : List.Forall
            (fun row => (List.length row <= List.length rl0)%nat) rows).
  { eapply List.Forall_impl; [|exact Hrows]. simpl. intros. lia. }
  destruct (measure_rows_ok str rows rl0 Hrows0)
    as (rl & Hrun & Hlen & Hmono & Hcov).
  cbv zeta. rewrite Hrun.
  assert (Hrowsn : List.Forall
            (fun row : list pyval => List.length row = List.length rl) rows).
  { eapply List.Forall_impl; [|exact Hrows]. simpl. intros. lia. }
  destruct columns as [|c0 columns'].
  - destruct (print_rows_ok str rl rows [] Hrowsn Hcov) as (body & Hprint & Hbody).
    rewrite Hprint. exists rl, [], body.
    split; [reflexivity|]. split; [lia|]. split; [exact Hbody|reflexivity].
  - assert (Hc : List.length (c0 :: columns') = n)
      by (destruct Hcols as [Hc|Hc]; [discriminate|exact Hc]).
    destruct (pad_cells_row rl (c0 :: columns')) as (cells & Hhead & Hlaid).
    { lia. }
    { intros k data Hk.
      assert (Hk0 : rl0 !! k = Some (String.length data)).
      { unfold rl0. rewrite list_lookup_fmap, Hk. reflexivity. }
      destruct (Hmono k _ Hk0) as (w' & Hw' & Hle). eauto. }
    rewrite Hhead.
    destruct (print_rows_ok str rl rows
                [join " | " cells;
                 str_repeat "-" (sum_list rl + List.length (c0 :: columns') * 3)]
                Hrowsn Hcov) as (body & Hprint & Hbody).
    rewrite Hprint. eexists rl, _, body.
    split; [reflexivity|]. split; [lia|]. split; [exact Hbody|].
    exists (join " | " cells). rewrite Hc. split; [reflexivity|exact Hlaid].
Qed.

(** X26.  When there is at least one row, every row has [n] cells and the
    column names, if given, are [n] as well, [format_raw_output] raises
    nothing, returns the number of rows and prints a table whose columns
    line up: there is one list of [n] widths such that every row line, and
    the head line, consists of cells joined by [" | "], each cell being the
    formatted value (or the column name) followed by spaces only and
    exactly as wide as its column; the head line is followed by a rule of
    dashes, the rows come after it in their order. *)
Theorem format_raw_output_columns_line_up (str : pyval -> string)
    (rows_is_list : bool) (rows : list (list pyval)) (columns : list string)
    (n : nat) :
  rows <> [] ->
  List.Forall (fun row : list pyval => List.length row = n) rows ->
  columns = [] \/ List.length columns = n ->
  exists widths head body,
    format_raw_output str rows_is_list rows columns
      = (Return (Z.of_nat (List.length rows)), head ++ body) /\
    List.length widths = n /\
    Forall2 (fun row line => laid_out widths (map (format_value str) row) line)
            rows body /\
    match columns with
    | [] => head = []
    | _ => exists line,
             head = [line; str_repeat "-" (sum_list widths + n * 3)] /\
             laid_out widths columns line
    end.
Proof. apply format_raw_output_layout. Qed.

Lemma format_raw_output_columns_line_up_witness :
  exists widths head body,
    format_raw_output str_sample true
        [[PInt 1; PStr "alice"]; [PInt 22; PStr "bob"]] ["id"; "name"]
      = (Return 2, head ++ body) /\
    List.length widths = 2%nat /\
    Forall2 (fun row line =>
               laid_out widths (map (format_value str_sample) row) line)
            [[PInt 1; PStr "alice"]; [PInt 22; PStr "bob"]] body /\
    exists line,
      head = [line; str_repeat "-" (sum_list widths + 2 * 3)] /\
      laid_out widths ["id"; "name"] line.
Proof.
  apply (format_raw_output_columns_line_up str_sample true
           [[PInt 1; PStr "alice"]; [PInt 22; PStr "bob"]] ["id"; "name"] 2).
  - discriminate.
  - repeat constructor.
  - right. reflexivity.
Defined.

(** X27.  Under the same conditions every line of the table but the rule
    has the same length, and the rule under the head line is three
    characters longer than the lines it separates. *)
Theorem format_raw_output_line_lengths (str : pyval -> string)
    (rows_is_list : bool) (rows : list (list pyval)) (columns : list string)
    (n : nat) :
  rows <> [] ->
  List.Forall (fun row : list pyval => List.length row = n) rows ->
  columns = [] \/ List.length columns = n ->
  exists (width : nat) (out : list string),
    format_raw_output str rows_is_list rows columns
      = (Return (Z.of_nat (List.length rows)), out) /\
    match columns with
    | [] =>
        List.length out = List.length rows /\
        List.Forall (fun line => String.length line = width) out
    | _ =>
        exists line rule body,
          out = line :: rule :: body /\
          List.length body = List.length rows /\
          List.Forall (fun line => String.length line = width) (line :: body) /\
          String.length rule = (width + 3)%nat
    end.
Proof.
  intros Hne Hrows Hcols.
  destruct (format_raw_output_layout str rows_is_list rows columns n
              Hne Hrows Hcols) as (widths & head & body & Hrun & Hn & Hbody & Hhead).
  exists (sum_list widths + 3 * (List.length widths - 1))%nat, (head ++ body).
  split; [exact Hrun|].
  assert (Hlines : List.Forall
            (fun line => String.length line
               = (sum_list widths + 3 * (List.length widths - 1))%nat) body).
  { clear Hrun Hne Hrows.
    induction Hbody as [|row line rows' body' Hlaid _ IH]; [constructor|].
    constructor; [eapply laid_out_length; exact Hlaid|exact IH]. }
  assert (Hcount : List.length body = List.length rows)
    by (symmetry; eapply Forall2_length; exact Hbody).
  destruct columns as [|c0 columns'].
  - subst head. simpl. split; [exact Hcount|exact Hlines].
  - destruct Hhead as (line & -> & Hlaid).
    exists line, (str_repeat "-" (sum_list widths + n * 3)), body.
    split; [reflexivity|]. split; [exact Hcount|]. split.
    + constructor; [eapply laid_out_length; exact Hlaid|exact Hlines].
    + rewrite str_repeat_length.
      assert (n <> O) by (destruct Hcols as [Hc|Hc]; [discriminate|];
                          rewrite <- Hc; discriminate).
      lia.
Qed.

Lemma format_raw_output_line_lengths_witness :
  exists (width : nat) (out : list string),
    format_raw_output str_sample false
        [[PInt 1; PStr "alice"]; [PInt 22; PStr "bob"]] ["id"; "name"]
      = (Return 2, out) /\
    exists line rule body,
      out = line :: rule :: body /\
      List.length body = 2%nat /\
      List.Forall (fun line => String.length line = width) (line :: body) /\
      String.length rule = (width + 3)%nat.
Proof.
  apply (format_raw_output_line_lengths str_sample false
           [[PInt 1; PStr "alice"]; [PInt 22; PStr "bob"]] ["id"; "name"] 2).
  - discriminate.
  - repeat constructor.
  - right. reflexivity.
Defined.

(** X28.  With column names and an iterable of rows that is not a list and
    yields nothing - a cursor after a query that selected no row -
    [format_raw_output] raises [IndexError] before it prints anything: the
    widths are only set up at the first row, and the head line indexes
    them.  An empty list of rows, which the first test catches, returns 0
    and prints nothing. *)
Theorem format_raw_output_cursor_without_rows (str : pyval -> string)
    (columns : list string) :
  columns <> [] ->
  format_raw_output str false [] columns = (Raise IndexError, []) /\
  format_raw_output str true [] columns = (Return 0, []).
Proof.
  intros Hne. destruct columns as [|c0 columns']; [congruence|].
  split; reflexivity.
Qed.

Lemma format_raw_output_cursor_without_rows_witness :
  format_raw_output str_sample false [] ["id"; "name"] = (Raise IndexError, []) /\
  format_raw_output str_sample true [] ["id"; "name"] = (Return 0, []).
Proof.
  apply (format_raw_output_cursor_without_rows str_sample ["id"; "name"]).
  discriminate.
Defined.

(** ** search_logs.search_for_key *)

Lemma unpack_walk (pre rest : list string) :
  forall (record v : json) (flag : bool),
    walk record pre = Some v ->
    unpack (pre ++ rest) record flag = unpack rest v flag.
Proof.
  induction pre as [|k pre IH]; intros record v flag Hwalk.
  - simpl in Hwalk. injection Hwalk as ->. reflexivity.
  - simpl in Hwalk. destruct record as [| | | | |entries]; try discriminate.
    destruct (dict_get entries k) as [v'|] eqn:Hk; [|discriminate].
    change ((k :: pre) ++ rest) with (k :: (pre ++ rest)).
    simpl. rewrite Hk. simpl. apply IH. exact Hwalk.
Qed.

(** X29.  When the path of keys cannot be followed at a key that is not
    the last one - the key is missing from its dict, or the value reached
    is not a dict - [search_for_key] does not answer [None]: it raises,
    [TypeError] where the value reached is a number or a boolean,
    [AttributeError] otherwise. *)
Theorem search_for_key_raises_inside_path (str : json -> string)
    (search_regex : json -> string -> outcome (option string))
    (record v : json) (key : string) (value : option string)
    (pre post : list string) (k k' : string) :
  split_on "." key = pre ++ k :: k' :: post ->
  walk record pre = Some v ->
  walk v [k] = None ->
  exists args,
    search_for_key str search_regex record key value
      = Raise (mkExn (match v with
                      | JBool _ | JNum _ => PyTypeError
                      | _ => PyAttributeError
                      end) args).
Proof.
  intros Hsplit Hpre Hk. unfold search_for_key. cbv zeta.
  rewrite Hsplit, (unpack_walk pre _ record v true Hpre).
  destruct v as [|b|z|s|items|entries];
    try (simpl; eexists; reflexivity).
  simpl in Hk. destruct (dict_get entries k) as [v'|] eqn:Hget; [discriminate|].
  simpl. rewrite Hget. simpl. eauto.
Qed.

Lemma search_for_key_raises_inside_path_witness :
  exists args,
    search_for_key json_str_sample search_regex_sample record_sample
        "request.path" None
      = Raise (mkExn PyAttributeError args).
Proof.
  apply (search_for_key_raises_inside_path json_str_sample search_regex_sample
           record_sample record_sample "request.path" None
           [] [] "request" "path");
    reflexivity.
Defined.

(** X30.  When the keys before the last lead through dicts, the answer
    depends on the last key alone: missing from its dict, the answer is
    [None] and the pattern is not looked at; holding a dict, [ValueError] is
    raised; otherwise the value found - [null] included - is given as text
    when no pattern is asked for, and handed to [search_regex] with the
    pattern when one is. *)
Theorem search_for_key_last_key (str : json -> string)
    (search_regex : json -> string -> outcome (option string))
    (record : json) (key : string) (value : option string)
    (pre : list string) (k : string) (entries : list (string * json)) :
  split_on "." key = pre ++ [k] ->
  walk record pre = Some (JDict entries) ->
  search_for_key str search_regex record key value =
    match dict_get entries k with
    | None => Return None
    | Some (JDict _) =>
        Raise (mkExn PyValueError
                 [PStr ("The key to search for: " ++ key ++ " is invalid. "
                        ++ "Maybe you need sub key (main.sub)?.")])
    | Some v =>
        match value with
        | None => Return (Some (str v))
        | Some pattern => search_regex v pattern
        end
    end.
Proof.
  intros Hsplit Hpre. unfold search_for_key. cbv zeta.
  rewrite Hsplit, (unpack_walk pre _ record _ true Hpre).
  simpl. destruct (dict_get entries k) as [v|]; [|reflexivity].
  destruct v; reflexivity.
Qed.

Lemma search_for_key_last_key_witness :
  search_for_key json_str_sample search_regex_sample record_sample
      "level.name" (Some "ERR")
    = Return (Some "ERR").
Proof.
  apply (search_for_key_last_key json_str_sample search_regex_sample
           record_sample "level.name" (Some "ERR") ["level"] "name"
           [("name", JStr "ERROR"); ("no", JNum 40)]);
    reflexivity.
Defined.
